(** * Pollinations Chat: the streaming / session state engine

    A shallow embedding of the core of the chat client and the proofs of
    its specification:

    - [useLocalSession] (the session store): [addMessage], [updateMessage],
      [deleteMessage], [deleteMessagesFrom], [replaceMessageContent],
      [renameSession], [updateSessionPollen], [deleteSession];
    - [lib/tokenizer]: [estimateTokens], [estimateMessagesTokens],
      [truncateMessages]; [hooks/useTokenMeter];
    - [lib/pollenMath]: [computePollenCost], [hasSufficientPollen];
    - [lib/pollinations]: the reader loop of [streamGeneration];
    - [lib/exportImport]: [exportJSON], [importJSON], [validateSessions],
      and the [JSON.stringify] and [JSON.parse] they call;
    - [components/ChatPage]: [handleSend], [handleRegenerate],
      [handleEditAndRegenerate], and the send gate of [components/Composer].

    Conventions.  A JavaScript string is a [string]: a sequence of code
    units, here the code units below 256; the tokenizer is also given on
    sequences of 16-bit code units ([Tokenizer16]).  A JavaScript [number] that
    holds a count or a time stamp is a [Z]; a [number] that holds pollen or
    a price is an IEEE 754 binary64 [float], with the operations of the
    language on it.  An optional field is an [option].  [Date.now()] and
    [uuid()] are inputs of the operations that call them. *)

From Stdlib Require Import List String Ascii Bool ZArith Lia Arith.
From Stdlib Require Import QArith Qround.
From Stdlib Require Import Floats.
From Stdlib Require Import DecimalString.
Import ListNotations.

Local Open Scope string_scope.
Local Open Scope list_scope.

(** ** Data model ([types.ts]) *)

Inductive Role : Type := user | assistant | system.

Inductive GenerationMode : Type := mode_text | mode_image | mode_video | mode_audio.

Inductive AttachmentType : Type := att_image | att_video | att_audio | att_file.

Record MessageAttachment : Type := mkAttachment {
  att_id : string;
  att_type : AttachmentType;
  att_name : string;
  att_mimeType : string;
  att_dataUrl : string;
  att_sizeBytes : Z
}.

Record ChatMessage : Type := mkMessage {
  msg_id : string;
  msg_role : Role;
  msg_content : string;
  msg_mode : GenerationMode;
  msg_attachments : list MessageAttachment;
  msg_timestamp : Z;
  msg_model : option string;
  msg_tokensUsed : option Z;
  msg_pollenSpent : option float;
  msg_isPartial : option bool;
  msg_isError : option bool
}.

Record ChatSession : Type := mkSession {
  sess_id : string;
  sess_title : string;
  sess_messages : list ChatMessage;
  sess_model : string;
  sess_createdAt : Z;
  sess_updatedAt : Z;
  sess_totalPollenSpent : float
}.

(** [Partial<ChatMessage>]: the keys an update carries. *)
Record MessageUpdate : Type := mkUpdate {
  upd_id : option string;
  upd_role : option Role;
  upd_content : option string;
  upd_mode : option GenerationMode;
  upd_attachments : option (list MessageAttachment);
  upd_timestamp : option Z;
  upd_model : option string;
  upd_tokensUsed : option Z;
  upd_pollenSpent : option float;
  upd_isPartial : option bool;
  upd_isError : option bool
}.

Definition no_update : MessageUpdate :=
  mkUpdate None None None None None None None None None None None.

Definition role_eqb (a b : Role) : bool :=
  match a, b with
  | user, user | assistant, assistant | system, system => true
  | _, _ => false
  end.

Definition or_else {A : Type} (o : option A) (d : A) : A :=
  match o with Some x => x | None => d end.

Definition or_keep {A : Type} (o old : option A) : option A :=
  match o with Some x => Some x | None => old end.

(** [{ ...m, ...update }] *)
Definition merge_message (m : ChatMessage) (u : MessageUpdate) : ChatMessage :=
  mkMessage
    (or_else (upd_id u) (msg_id m))
    (or_else (upd_role u) (msg_role m))
    (or_else (upd_content u) (msg_content m))
    (or_else (upd_mode u) (msg_mode m))
    (or_else (upd_attachments u) (msg_attachments m))
    (or_else (upd_timestamp u) (msg_timestamp m))
    (or_keep (upd_model u) (msg_model m))
    (or_keep (upd_tokensUsed u) (msg_tokensUsed m))
    (or_keep (upd_pollenSpent u) (msg_pollenSpent m))
    (or_keep (upd_isPartial u) (msg_isPartial m))
    (or_keep (upd_isError u) (msg_isError m)).

(** ** JavaScript array and string primitives used by the code *)

(** [arr.findIndex(p)]: [None] stands for [-1]. *)
Fixpoint findIndex {A : Type} (p : A -> bool) (l : list A) : option nat :=
  match l with
  | [] => None
  | x :: t => if p x then Some 0%nat
              else match findIndex p t with
                   | Some i => Some (S i)
                   | None => None
                   end
  end.

(** [s.slice(0, n)] on a string. *)
Fixpoint str_take (n : nat) (s : string) : string :=
  match n, s with
  | O, _ => ""
  | S k, String c t => String c (str_take k t)
  | S _, EmptyString => ""
  end.

Definition code (c : ascii) : nat := nat_of_ascii c.

(** White space ([\s], and what [trim] removes) on the code units below
    256: TAB, LF, VT, FF, CR, SP, NBSP. *)
Definition is_space (c : ascii) : bool :=
  let n := code c in
  ((Nat.leb 9 n && Nat.leb n 13) || Nat.eqb n 32 || Nat.eqb n 160)%bool.

(** The class [a-zA-Z0-9]. *)
Definition is_alnum (c : ascii) : bool :=
  let n := code c in
  ((Nat.leb 48 n && Nat.leb n 57) || (Nat.leb 65 n && Nat.leb n 90)
   || (Nat.leb 97 n && Nat.leb n 122))%bool.

(** [Boolean(s)] for a string. *)
Definition nonempty (s : string) : bool :=
  match s with EmptyString => false | String _ _ => true end.

Fixpoint trimStart (s : string) : string :=
  match s with
  | EmptyString => ""
  | String c t => if is_space c then trimStart t else s
  end.

Fixpoint trimEnd (s : string) : string :=
  match s with
  | EmptyString => ""
  | String c t =>
      let t' := trimEnd t in
      if (is_space c && negb (nonempty t'))%bool then "" else String c t'
  end.

(** [s.trim()] *)
Definition trim (s : string) : string := trimEnd (trimStart s).

(** [s.slice(n)] *)
Fixpoint str_drop (n : nat) (s : string) : string :=
  match n, s with
  | O, _ => s
  | S k, String _ t => str_drop k t
  | S _, EmptyString => ""
  end.

(** [s.startsWith(p)] *)
Definition startsWith (p s : string) : bool := String.prefix p s.

(** [s.includes(p)] *)
Fixpoint includes (p s : string) : bool :=
  (String.prefix p s ||
   match s with
   | EmptyString => false
   | String _ t => includes p t
   end)%bool.

Definition LF : ascii := "010"%char.

Definition cons_first (c : ascii) (pieces : list string) : list string :=
  match pieces with
  | h :: r => String c h :: r
  | [] => [String c ""]
  end.

(** [s.split('\n')]: never empty; the last piece is what follows the
    last line feed. *)
Fixpoint split_nl (s : string) : list string :=
  match s with
  | EmptyString => [""]
  | String c t =>
      if Ascii.eqb c LF then "" :: split_nl t else cons_first c (split_nl t)
  end.

(** ** The session store ([useLocalSession]) *)

Module Store.

(** The updater every mutation passes to [setSessions]:
    [prev.map((s) => { if (s.id !== sessionId) return s; ... })]. *)
Definition on_session (sessionId : string) (f : ChatSession -> ChatSession)
    (prev : list ChatSession) : list ChatSession :=
  map (fun s => if negb (sess_id s =? sessionId) then s else f s) prev.

Definition set_messages (s : ChatSession) (ms : list ChatMessage) (now : Z)
    (title : string) : ChatSession :=
  mkSession (sess_id s) title ms (sess_model s) (sess_createdAt s) now
            (sess_totalPollenSpent s).

(** The title given by the first user message:
    [content.slice(0, 50) + (content.length > 50 ? '...' : '')]. *)
Definition auto_title (content : string) : string :=
  str_take 50 content ++ (if Nat.ltb 50 (String.length content) then "..." else "").

Definition addMessage (sessionId : string) (message : ChatMessage) (now : Z)
    : list ChatSession -> list ChatSession :=
  on_session sessionId (fun s =>
    set_messages s (sess_messages s ++ [message]) now
      (if (Nat.eqb (List.length (sess_messages s)) 0
           && role_eqb (msg_role message) user)%bool
       then auto_title (msg_content message)
       else sess_title s)).

Definition updateMessage (sessionId messageId : string) (update : MessageUpdate)
    (now : Z) : list ChatSession -> list ChatSession :=
  on_session sessionId (fun s =>
    set_messages s
      (map (fun m => if msg_id m =? messageId then merge_message m update else m)
           (sess_messages s))
      now (sess_title s)).

Definition deleteMessage (sessionId messageId : string) (now : Z)
    : list ChatSession -> list ChatSession :=
  on_session sessionId (fun s =>
    set_messages s
      (filter (fun m => negb (msg_id m =? messageId)) (sess_messages s))
      now (sess_title s)).

(** The per-session step of [deleteMessagesFrom]. *)
Definition truncate_session (messageId : string) (now : Z) (s : ChatSession)
    : ChatSession :=
  match findIndex (fun m => msg_id m =? messageId) (sess_messages s) with
  | None => s
  | Some idx => set_messages s (firstn idx (sess_messages s)) now (sess_title s)
  end.

Definition deleteMessagesFrom (sessionId messageId : string) (now : Z)
    : list ChatSession -> list ChatSession :=
  on_session sessionId (truncate_session messageId now).

(** [sessions.find((s) => s.id === activeSessionId) ?? null] *)
Definition activeSession (sessions : list ChatSession)
    (activeSessionId : option string) : option ChatSession :=
  match activeSessionId with
  | None => None
  | Some i => find (fun s => sess_id s =? i) sessions
  end.

(** [{ ...m, content: newContent }] *)
Definition with_content (m : ChatMessage) (newContent : string) : ChatMessage :=
  mkMessage (msg_id m) (msg_role m) newContent (msg_mode m) (msg_attachments m)
            (msg_timestamp m) (msg_model m) (msg_tokensUsed m) (msg_pollenSpent m)
            (msg_isPartial m) (msg_isError m).

Definition updateSessionPollen (sessionId : string) (pollenDelta : float) (now : Z)
    : list ChatSession -> list ChatSession :=
  on_session sessionId (fun s =>
    mkSession (sess_id s) (sess_title s) (sess_messages s) (sess_model s)
              (sess_createdAt s) now (sess_totalPollenSpent s + pollenDelta)%float).

Definition renameSession (id title : string) (now : Z)
    : list ChatSession -> list ChatSession :=
  on_session id (fun s => set_messages s (sess_messages s) now title).



Definition replaceMessageContent (sessionId messageId newContent : string) (now : Z)
    : list ChatSession -> list ChatSession :=
  on_session sessionId (fun s =>
    set_messages s
      (map (fun m => if msg_id m =? messageId then with_content m newContent else m)
           (sess_messages s))
      now (sess_title s)).

End Store.

(** ** The tokenizer ([lib/tokenizer.ts])

    The counts the heuristic works on are integers; its one fractional
    constant is [1.3].  The arithmetic is written over exact rationals:
    for a text of at most [2^30] code units (the longest string an engine
    allocates) the binary64 evaluation of
    [Math.ceil(words * 1.3 + specials * 0.5)] returns the same integer,
    since the rounding error is below [1e-6], the exact value is a
    multiple of [0.1], and it is representable whenever it is an integer. *)

Module Tokenizer.

(** [text.split(/\s+/)]: the pieces between the maximal runs of white
    space; [cur] is the piece being read and [in_sep] tells that the
    previous code unit was white space. *)
Fixpoint split_ws (text cur : string) (in_sep : bool) : list string :=
  match text with
  | EmptyString => [cur]
  | String c t =>
      if is_space c
      then if in_sep then split_ws t "" true else cur :: split_ws t "" true
      else split_ws t (cur ++ String c "") false
  end.

Definition words (text : string) : list string :=
  filter nonempty (split_ws text "" false).

(** [(text.match(/[^a-zA-Z0-9\s]/g) ?? []).length] *)
Fixpoint specialChars (text : string) : nat :=
  match text with
  | EmptyString => 0
  | String c t =>
      (if (is_alnum c || is_space c)%bool then 0 else 1) + specialChars t
  end.

Definition wordTokens (text : string) : Q :=
  inject_Z (Z.of_nat (List.length (words text))) * 1.3.

Definition estimate (text : string) : Z :=
  Qceiling (wordTokens text + inject_Z (Z.of_nat (specialChars text)) * 0.5).

Definition charEstimate (text : string) : Z :=
  Qceiling (inject_Z (Z.of_nat (String.length text)) / 4).

Definition estimateTokens (text : string) : Z :=
  if negb (nonempty text) then 0%Z
  else Z.max (Z.max (estimate text) (charEstimate text)) 1.

(** [estimateMessagesTokens] *)
Definition estimateMessagesTokens (messages : list (string * string)) : Z :=
  (fold_left (fun total msg => total + 4 + estimateTokens (snd msg)) messages 0 + 2)%Z.

(** [current.splice(removeIdx, 1)] *)
Definition splice1 {A : Type} (removeIdx : nat) (current : list A) : list A :=
  firstn removeIdx current ++ skipn (S removeIdx) current.

(** The [while] loop of [truncateMessages].  Every turn removes one
    message and the loop stops at one message, so it makes fewer turns
    than there are messages; [turns] bounds them.  The limit is a whole
    number of tokens. *)
Fixpoint truncate_loop (maxTokens : Z) (turns : nat)
    (current : list (string * string)) (removed : nat)
    : list (string * string) * nat :=
  match turns with
  | O => (current, removed)
  | S turns' =>
      if ((maxTokens <? estimateMessagesTokens current)%Z
          && Nat.ltb 1 (List.length current))%bool
      then
        let removeIdx :=
          match current with
          | m :: _ => if fst m =? "system" then 1%nat else 0%nat
          | [] => 0%nat
          end in
        truncate_loop maxTokens turns' (splice1 removeIdx current) (S removed)
      else (current, removed)
  end.

(** [truncateMessages]: the messages kept, and the number removed. *)
Definition truncateMessages (messages : list (string * string)) (maxTokens : Z)
    : list (string * string) * nat :=
  match messages with
  | [] => ([], 0%nat)
  | _ => truncate_loop maxTokens (List.length messages) messages 0
  end.

End Tokenizer.

(** ** The tokenizer on every string of the language

    A string of the language is a sequence of 16-bit code units, here
    numbers; the regular expressions of [estimateTokens] have no [u]
    flag and work on code units, as [length] does.  [Tokenizer16] is [lib/tokenizer.ts] on
    such sequences; [Tokenizer] above is the same code on the strings
    whose code units are below 256. *)

Module Tokenizer16.

(** The class [\s]: the white space and the line terminators of the
    language. *)
Definition is_white_space (c : N) : bool :=
  ((N.leb 9 c && N.leb c 13) || N.eqb c 32 || N.eqb c 160
   || N.eqb c 5760 || (N.leb 8192 c && N.leb c 8202)
   || N.eqb c 8232 || N.eqb c 8233 || N.eqb c 8239 || N.eqb c 8287
   || N.eqb c 12288 || N.eqb c 65279)%bool.

(** The class [a-zA-Z0-9]. *)
Definition is_alphanumeric (c : N) : bool :=
  ((N.leb 48 c && N.leb c 57) || (N.leb 65 c && N.leb c 90)
   || (N.leb 97 c && N.leb c 122))%bool.

(** [Boolean(s)] *)
Definition has_units (s : list N) : bool :=
  match s with [] => false | _ :: _ => true end.

(** [text.split(/\s+/)] *)
Fixpoint split_ws (text cur : list N) (in_sep : bool) : list (list N) :=
  match text with
  | [] => [cur]
  | c :: t =>
      if is_white_space c
      then if in_sep then split_ws t [] true else cur :: split_ws t [] true
      else split_ws t (cur ++ [c]) false
  end.

Definition words (text : list N) : list (list N) :=
  filter has_units (split_ws text [] false).

(** [(text.match(/[^a-zA-Z0-9\s]/g) ?? []).length] *)
Fixpoint specialChars (text : list N) : nat :=
  match text with
  | [] => 0
  | c :: t => (if (is_alphanumeric c || is_white_space c)%bool then 0 else 1) + specialChars t
  end.

Definition wordTokens (text : list N) : Q :=
  inject_Z (Z.of_nat (List.length (words text))) * 1.3.

Definition estimate (text : list N) : Z :=
  Qceiling (wordTokens text + inject_Z (Z.of_nat (specialChars text)) * 0.5).

Definition charEstimate (text : list N) : Z :=
  Qceiling (inject_Z (Z.of_nat (List.length text)) / 4).

Definition estimateTokens (text : list N) : Z :=
  if negb (has_units text) then 0%Z
  else Z.max (Z.max (estimate text) (charEstimate text)) 1.

End Tokenizer16.

(** ** The token meter ([hooks/useTokenMeter.ts]) *)

Module TokenMeter.

Definition role_name (r : Role) : string :=
  match r with user => "user" | assistant => "assistant" | system => "system" end.

Definition historyTokens (history : list ChatMessage) : Z :=
  Tokenizer.estimateMessagesTokens
    (map (fun m => (role_name (msg_role m), msg_content m)) history).

Definition systemTokens (systemPrompt : string) : Z :=
  if nonempty systemPrompt then (Tokenizer.estimateTokens systemPrompt + 4)%Z else 0%Z.

Definition composerTokens (composerText : string) : Z :=
  (Tokenizer.estimateTokens composerText + 4)%Z.

Definition totalInputTokens (history : list ChatMessage)
    (systemPrompt composerText : string) : Z :=
  (historyTokens history + systemTokens systemPrompt + composerTokens composerText)%Z.

Definition isOverLimit (history : list ChatMessage) (maxInputTokens : Z)
    (systemPrompt composerText : string) : bool :=
  (maxInputTokens <? totalInputTokens history systemPrompt composerText)%Z.

End TokenMeter.

(** ** Pollen math ([lib/pollenMath.ts]) *)

Module PollenMath.

#[local] Set Warnings "-inexact-float".
Local Open Scope float_scope.

(** The pricing fields [computePollenCost] reads. *)
Record Pricing : Type := mkPricing {
  promptTextTokens : option float;
  promptAudioTokens : option float;
  completionTextTokens : option float;
  completionImageTokens : option float;
  completionVideoSeconds : option float;
  completionVideoTokens : option float;
  completionAudioSeconds : option float;
  completionAudioTokens : option float
}.

Definition MIN_POLLEN_PER_PROMPT : float := 0.00004.

Definition EPSILON : float := 1e-10.

(** The condition [if (x)] on an optional number: the field is there
    and is neither [0], [-0] nor [NaN]; the rate is handed to the branch. *)
Definition truthy (x : option float) : option float :=
  match x with
  | Some r => if (is_zero r || is_nan r)%bool then None else Some r
  | None => None
  end.

Definition is_pos_zero (x : float) : bool := (is_zero x && negb (get_sign x))%bool.
Definition is_neg_zero (x : float) : bool := (is_zero x && get_sign x)%bool.

(** [Math.max(a, b)] as the language defines it: [NaN] if an argument
    is [NaN]; [+0] is above [-0]; otherwise the greater one. *)
Definition Math_max (a b : float) : float :=
  if is_nan a then nan
  else if is_nan b then nan
  else if (is_pos_zero b && is_neg_zero a)%bool then b
  else if a <? b then b
  else a.

Definition computePollenCost (pricing : option Pricing)
    (inputTokens outputTokens : float) : float :=
  match pricing with
  | None => MIN_POLLEN_PER_PROMPT
  | Some pricing =>
      let cost := 0 in
      let cost := match truthy (promptTextTokens pricing) with
                  | Some r => cost + r * inputTokens
                  | None => cost
                  end in
      let cost := match truthy (promptAudioTokens pricing) with
                  | Some r => cost + r * inputTokens
                  | None => cost
                  end in
      let cost :=
        match truthy (completionTextTokens pricing) with
        | Some r => cost + r * outputTokens
        | None =>
        match truthy (completionImageTokens pricing) with
        | Some r => cost + r
        | None =>
        match truthy (completionVideoSeconds pricing) with
        | Some r => cost + r * 5
        | None =>
        match truthy (completionVideoTokens pricing) with
        | Some r => cost + r * outputTokens
        | None =>
        match truthy (completionAudioTokens pricing) with
        | Some r => cost + r * outputTokens
        | None =>
        match truthy (completionAudioSeconds pricing) with
        | Some r => cost + r * 10
        | None => cost
        end end end end end end in
      Math_max cost MIN_POLLEN_PER_PROMPT
  end.

(** [balance + EPSILON >= requiredPollen] *)
Definition hasSufficientPollen (balance requiredPollen : float) : bool :=
  requiredPollen <=? balance + EPSILON.

End PollenMath.

(** *** The cost as the specification words it

    To compare with [computePollenCost].  A rate applies when the field
    is there and is a number other than zero.  The input cost adds, from
    zero, the text rate and then the audio rate, each times the input
    tokens, for the rates that apply.  The output cost is that of the
    first output field whose rate applies, in the stated order: the rate
    times its units, or the rate alone when the price is flat.  The
    result is the greater of the minimum and of the sum. *)

Module PollenSpec.

Import PollenMath.

#[local] Set Warnings "-inexact-float".
Local Open Scope float_scope.

Definition applies (rate : option float) : option float :=
  match rate with
  | Some r => if r =? 0 then None else if r =? r then Some r else None
  | None => None
  end.

Definition plus_rate (cost : float) (rate : option float) (units : float) : float :=
  match applies rate with
  | Some r => cost + r * units
  | None => cost
  end.

Definition inputCost (p : Pricing) (inputTokens : float) : float :=
  plus_rate (plus_rate 0 (promptTextTokens p) inputTokens)
            (promptAudioTokens p) inputTokens.

(** Output fields, each with what its rate is multiplied by ([None]: a
    flat price). *)
Fixpoint first_applicable (fields : list (option float * option float))
    : option float :=
  match fields with
  | [] => None
  | (rate, units) :: rest =>
      match applies rate with
      | Some r => Some (match units with Some u => r * u | None => r end)
      | None => first_applicable rest
      end
  end.

Definition outputCost (p : Pricing) (outputTokens : float) : option float :=
  first_applicable
    [ (completionTextTokens p, Some outputTokens);
      (completionImageTokens p, None);
      (completionVideoSeconds p, Some 5);
      (completionVideoTokens p, Some outputTokens);
      (completionAudioTokens p, Some outputTokens);
      (completionAudioSeconds p, Some 10) ].

(** The greater of [floor] and [cost]; not a number when the cost is
    not one. *)
Definition at_least (floor cost : float) : float :=
  if cost =? cost then (if cost <? floor then floor else cost) else nan.

Definition spec_cost (p : Pricing) (inputTokens outputTokens : float) : float :=
  at_least 0.00004
    (match outputCost p outputTokens with
     | Some c => inputCost p inputTokens + c
     | None => inputCost p inputTokens
     end).

End PollenSpec.

(** ** The generation client ([lib/pollinations.ts]) *)

Module Pollinations.

(** What the code throws and catches: a [PollinationsError] with its
    status and code, or another error with its [name] (the [AbortError]
    of a cancelled request, the [TypeError] of a lost connection). *)
Inductive JSError : Type :=
| PollinationsError (message : string) (status : Z) (code : string)
| OtherError (name message : string).

Definition error_name (e : JSError) : string :=
  match e with
  | PollinationsError _ _ _ => "PollinationsError"
  | OtherError n _ => n
  end.

Record Usage : Type := mkUsage {
  prompt_tokens : Z;
  completion_tokens : Z;
  total_tokens : Z
}.

(** A parsed frame, as the loop reads it: [json.usage],
    [json.user_tier] and [json.choices?.[0]?.delta?.content]. *)
Record StreamDelta : Type := mkDelta {
  delta_usage : option Usage;
  delta_user_tier : option string;
  delta_content : option string
}.

(** The calls the client makes on its two callbacks, in order. *)
Inductive StreamEvent : Type :=
| OnChunk (text : string)
| OnDone (usage : option Usage) (userTier : option string).

(** How the body ends: [reader.read()] reports [done], or rejects. *)
Inductive ReadEnd : Type :=
| EndOfStream
| ReadRejects (e : JSError).

(** The body: the text each [reader.read()] decodes to, and its end. *)
Record Body : Type := mkBody {
  body_reads : list string;
  body_end : ReadEnd
}.

Record Response : Type := mkResponse {
  res_ok : bool;
  res_status : Z;
  res_contentType : option string;
  res_error_code : option string;
  res_error_message : option string;
  res_body : option Body
}.

Inductive FetchResult : Type :=
| FetchRejects (e : JSError)
| FetchResolves (res : Response).

(** [if (s)] on an optional string. *)
Definition truthy_string (o : option string) : option string :=
  match o with
  | Some s => if nonempty s then Some s else None
  | None => None
  end.

Definition string_of_Z (z : Z) : string :=
  NilZero.string_of_int (Z.to_int z).

Section Stream.

(** [JSON.parse] of a frame's payload, read at the type [StreamDelta];
    [None] when it throws, which ends in the [catch] of the loop. *)
Variable JSON_parse : string -> option StreamDelta.

(** The state of the loop between two lines. *)
Record Last : Type := mkLast {
  lastUsage : option Usage;
  lastTier : option string
}.

(** The body of [for (const line of lines)]: the callbacks made, and the
    state to go on with, or [None] after the [return] at [data: [DONE]]. *)
Fixpoint process_lines (lines : list string) (st : Last)
    : list StreamEvent * option Last :=
  match lines with
  | [] => ([], Some st)
  | line :: rest =>
      let trimmed := trim line in
      if (negb (nonempty trimmed) || (trimmed =? ":"))%bool
      then process_lines rest st
      else if trimmed =? "data: [DONE]"
      then ([OnDone (lastUsage st) (lastTier st)], None)
      else if startsWith "data: " trimmed
      then match JSON_parse (str_drop 6 trimmed) with
           | Some json =>
               let st' :=
                 mkLast (or_keep (delta_usage json) (lastUsage st))
                        (or_keep (truthy_string (delta_user_tier json)) (lastTier st)) in
               match truthy_string (delta_content json) with
               | Some delta =>
                   let (evs, k) := process_lines rest st' in
                   (OnChunk delta :: evs, k)
               | None => process_lines rest st'
               end
           | None => process_lines rest st
           end
      else process_lines rest st
  end.

(** The [while (true)] loop and what follows it.  The result is the
    callbacks made and the error thrown, if any. *)
Fixpoint read_loop (reads : list string) (ending : ReadEnd)
    (buffer : string) (st : Last) : list StreamEvent * option JSError :=
  match reads with
  | [] =>
      match ending with
      | EndOfStream => ([OnDone (lastUsage st) (lastTier st)], None)
      | ReadRejects e => ([], Some e)
      end
  | value :: rest =>
      let buffer := (buffer ++ value)%string in
      let lines := split_nl buffer in
      let buffer := last lines "" in
      let lines := removelast lines in
      match process_lines lines st with
      | (evs, None) => (evs, None)
      | (evs, Some st') =>
          let (evs', r) := read_loop rest ending buffer st' in
          (evs ++ evs', r)
      end
  end.

Definition streamGeneration (fetched : FetchResult)
    : list StreamEvent * option JSError :=
  match fetched with
  | FetchRejects e => ([], Some e)
  | FetchResolves res =>
      if negb (res_ok res)
      then ([], Some (PollinationsError
                        (or_else (res_error_message res)
                                 ("HTTP " ++ string_of_Z (res_status res))%string)
                        (res_status res)
                        (or_else (res_error_code res) "")))
      else
        let contentType := or_else (res_contentType res) "" in
        if (includes "application/json" contentType
            && negb (includes "stream" contentType))%bool
        then ([], Some (PollinationsError
                          (or_else (res_error_message res)
                                   "Model does not support text streaming")
                          200
                          (or_else (res_error_code res) "unsupported_model")))
        else match res_body res with
             | None =>
                 ([], Some (PollinationsError
                    "The server returned an empty response. Please try again."
                    0 "empty_body"))
             | Some body =>
                 read_loop (body_reads body) (body_end body) "" (mkLast None None)
             end
  end.

(** *** The reading of the stream by whole lines

    The lines the loop processes are the complete lines of the text
    received; what a frame brings is read off each line on its own. *)

Definition complete_lines (text : string) : list string :=
  removelast (split_nl text).

Definition is_done_line (line : string) : bool := trim line =? "data: [DONE]".

(** The lines read before the termination marker. *)
Fixpoint before_done (lines : list string) : list string :=
  match lines with
  | [] => []
  | line :: rest => if is_done_line line then [] else line :: before_done rest
  end.

Definition has_done (lines : list string) : bool := existsb is_done_line lines.

(** The frame a line carries: none for a blank line, a comment, a line
    without the [data: ] prefix, or a payload that does not parse. *)
Definition frame_of_line (line : string) : option StreamDelta :=
  let trimmed := trim line in
  if startsWith "data: " trimmed then JSON_parse (str_drop 6 trimmed) else None.

Fixpoint frames (lines : list string) : list StreamDelta :=
  match lines with
  | [] => []
  | line :: rest =>
      match frame_of_line line with
      | Some f => f :: frames rest
      | None => frames rest
      end
  end.

(** The deltas of the frames, in order: the non-empty ones. *)
Fixpoint deltas (fs : list StreamDelta) : list string :=
  match fs with
  | [] => []
  | f :: rest =>
      match truthy_string (delta_content f) with
      | Some d => d :: deltas rest
      | None => deltas rest
      end
  end.

(** The last usage object and the last tier label of a run of frames. *)
Definition observe (st : Last) (fs : list StreamDelta) : Last :=
  fold_left (fun st f =>
               mkLast (or_keep (delta_usage f) (lastUsage st))
                      (or_keep (truthy_string (delta_user_tier f)) (lastTier st)))
            fs st.

Definition count_done (evs : list StreamEvent) : nat :=
  List.length (filter (fun e => match e with OnDone _ _ => true | OnChunk _ => false end) evs).

End Stream.

End Pollinations.

(** ** Export and import ([lib/exportImport.ts]) *)

Module ExportImport.

Local Open Scope float_scope.

#[local] Set Warnings "-register-all".

(** The values [JSON.parse] returns and [JSON.stringify] prints. *)
Inductive JSValue : Type :=
| JNull
| JBool (b : bool)
| JNum (n : float)
| JStr (s : string)
| JArr (items : list JSValue)
| JObj (fields : list (string * JSValue)).

(** An integer as a [number]. *)
Definition Z_to_float (z : Z) : float :=
  if (z <? 0)%Z then - of_uint63 (Uint63.of_Z (- z)) else of_uint63 (Uint63.of_Z z).

Fixpoint assoc (key : string) (fields : list (string * JSValue)) : option JSValue :=
  match fields with
  | [] => None
  | (k, v) :: rest => if (k =? key)%string then Some v else assoc key rest
  end.

(** [v.key] for one of the keys the code reads ([id], [messages],
    [sessions], ...): [None] is [undefined]; no array, string, number or
    boolean has such a property.  The read throws on [null]. *)
Definition js_get (v : JSValue) (key : string) : option JSValue :=
  match v with
  | JObj fields => assoc key fields
  | _ => None
  end.

(** [key in v], for [v] an object or an array. *)
Definition js_in (key : string) (v : JSValue) : bool :=
  match js_get v key with Some _ => true | None => false end.

(** [typeof v === 'object' && v !== null] *)
Definition is_object (v : JSValue) : bool :=
  match v with JArr _ | JObj _ => true | _ => false end.

(** [Array.isArray(v)] *)
Definition isArray (v : option JSValue) : bool :=
  match v with Some (JArr _) => true | _ => false end.

(** [!v] is false *)
Definition js_truthy (v : option JSValue) : bool :=
  match v with
  | None | Some JNull => false
  | Some (JBool b) => b
  | Some (JNum n) => negb (is_zero n || is_nan n)
  | Some (JStr s) => nonempty s
  | Some (JArr _) | Some (JObj _) => true
  end.

(** What [JSON.stringify] followed by [JSON.parse] makes of a value: a
    number that is not finite comes back as [null], and [-0] as [0]. *)
Fixpoint json_normalise (v : JSValue) : JSValue :=
  match v with
  | JNum n => if is_finite n then (if is_zero n then JNum 0 else JNum n) else JNull
  | JArr items => JArr (map json_normalise items)
  | JObj fields => JObj (map (fun kv => (fst kv, json_normalise (snd kv))) fields)
  | _ => v
  end.

(** *** Sessions as values *)

Definition role_value (r : Role) : JSValue :=
  JStr (match r with user => "user" | assistant => "assistant" | system => "system" end).

Definition mode_value (m : GenerationMode) : JSValue :=
  JStr (match m with
        | mode_text => "text" | mode_image => "image"
        | mode_video => "video" | mode_audio => "audio"
        end).

Definition attachment_value (a : MessageAttachment) : JSValue :=
  JObj [ ("id", JStr (att_id a));
         ("type", JStr (match att_type a with
                        | att_image => "image" | att_video => "video"
                        | att_audio => "audio" | att_file => "file"
                        end));
         ("name", JStr (att_name a));
         ("mimeType", JStr (att_mimeType a));
         ("dataUrl", JStr (att_dataUrl a));
         ("sizeBytes", JNum (Z_to_float (att_sizeBytes a))) ].

(** A key that is there only when the field is defined. *)
Definition optional {A : Type} (key : string) (f : A -> JSValue) (o : option A)
    : list (string * JSValue) :=
  match o with Some x => [(key, f x)] | None => [] end.

Definition message_value (m : ChatMessage) : JSValue :=
  JObj ([ ("id", JStr (msg_id m));
          ("role", role_value (msg_role m));
          ("content", JStr (msg_content m));
          ("timestamp", JNum (Z_to_float (msg_timestamp m)));
          ("mode", mode_value (msg_mode m)) ]
        ++ optional "model" JStr (msg_model m)
        ++ [ ("attachments", JArr (map attachment_value (msg_attachments m))) ]
        ++ optional "tokensUsed" (fun z => JNum (Z_to_float z)) (msg_tokensUsed m)
        ++ optional "pollenSpent" JNum (msg_pollenSpent m)
        ++ optional "isPartial" JBool (msg_isPartial m)
        ++ optional "isError" JBool (msg_isError m)).

Definition session_value (s : ChatSession) : JSValue :=
  JObj [ ("id", JStr (sess_id s));
         ("title", JStr (sess_title s));
         ("messages", JArr (map message_value (sess_messages s)));
         ("model", JStr (sess_model s));
         ("createdAt", JNum (Z_to_float (sess_createdAt s)));
         ("updatedAt", JNum (Z_to_float (sess_updatedAt s)));
         ("totalPollenSpent", JNum (sess_totalPollenSpent s)) ].

(** The [ChatExport] object of [exportJSON]. *)
Definition export_value (exportedAt : string) (sessions : list ChatSession) : JSValue :=
  JObj [ ("version", JStr "1.0");
         ("exportedAt", JStr exportedAt);
         ("sessions", JArr (map session_value sessions)) ].

(** What the importer reads back of a session. *)
Definition read_string (v : option JSValue) : option string :=
  match v with Some (JStr s) => Some s | _ => None end.

Definition imported_id (v : JSValue) : option string := read_string (js_get v "id").

Definition imported_title (v : JSValue) : option string := read_string (js_get v "title").

Definition imported_contents (v : JSValue) : option (list (option string)) :=
  match js_get v "messages" with
  | Some (JArr ms) => Some (map (fun m => read_string (js_get m "content")) ms)
  | _ => None
  end.

Inductive ImportError : Type :=
| InvalidJSON            (* 'Invalid JSON format' *)
| SessionsNotArray       (* 'Invalid export: sessions must be an array' *)
| InvalidSession         (* 'Invalid session: missing id or messages' *)
| Unrecognized           (* 'Unrecognized import format: ...' *)
| NullSession.           (* the TypeError of reading [id] of [null] *)

(** [validateSessions]: the first session that fails stops the loop. *)
Fixpoint validateSessions (sessions : list JSValue) : option ImportError :=
  match sessions with
  | [] => None
  | s :: rest =>
      match s with
      | JNull => Some NullSession
      | _ =>
          if (negb (js_truthy (js_get s "id"))
              || negb (js_truthy (js_get s "messages"))
              || negb (isArray (js_get s "messages")))%bool
          then Some InvalidSession
          else validateSessions rest
      end
  end.

Section Codec.

(** The platform's [JSON.stringify(v, null, 2)] and [JSON.parse];
    [None] is the [SyntaxError]. *)
Variable JSON_stringify : JSValue -> string.
Variable JSON_parse : string -> option JSValue.

(** [exportedAt] is [new Date().toISOString()]. *)
Definition exportJSON (exportedAt : string) (sessions : list ChatSession) : string :=
  JSON_stringify (export_value exportedAt sessions).

Definition importJSON (raw : string) : ImportError + list JSValue :=
  match JSON_parse raw with
  | None => inl InvalidJSON
  | Some parsed =>
      if (is_object parsed && js_in "version" parsed && js_in "sessions" parsed)%bool
      then match js_get parsed "sessions" with
           | Some (JArr sessions) =>
               match validateSessions sessions with
               | Some e => inl e
               | None => inr sessions
               end
           | _ => inl SessionsNotArray
           end
      else match parsed with
           | JArr sessions =>
               match validateSessions sessions with
               | Some e => inl e
               | None => inr sessions
               end
           | _ => inl Unrecognized
           end
  end.

End Codec.

End ExportImport.

(** ** The JSON text format ([JSON.stringify], [JSON.parse])

    The two functions of the language that [exportJSON] and [importJSON]
    call, after their definition in the language's specification:
    [JSON.stringify(value, null, 2)] on the values it is given here
    (objects print their keys in the order of the list), and
    [JSON.parse] (the keys of an object come in the order of the text;
    the importer reads them by name).  Numbers print by
    [Number::toString], the shortest decimal that reads back as the
    number, and read by rounding the decimal to the nearest number, ties
    to even.  Strings hold the code
    units below 256, as everywhere in this file: an escape [\uXXXX] above
    that is outside the model and does not parse. *)

Module JSON.

Import ExportImport.

Local Open Scope string_scope.

Definition dquote : ascii := "034"%char.
Definition backslash : ascii := "092"%char.

(** *** Numbers to text *)

Definition Qltb (a b : Q) : bool := (Qnum a * Zpos (Qden b) <? Qnum b * Zpos (Qden a))%Z.
Definition Qleb (a b : Q) : bool := (Qnum a * Zpos (Qden b) <=? Qnum b * Zpos (Qden a))%Z.

Definition pow10 (t : Z) : Q := Qpower (10 # 1) t.
Definition pow2 (e : Z) : Q := Qpower (2 # 1) e.

(** The least [n] from [n] on with [v < 10^n].  It is called from below
    the decimal logarithm of [v], estimated from its binary one. *)
Fixpoint magnitude (fuel : nat) (n : Z) (v : Q) : Z :=
  match fuel with
  | O => n
  | S fuel => if Qltb v (pow10 n) then n else magnitude fuel (n + 1)%Z v
  end.

(** The decimals [s * 10^t] that read back as [m * 2^e]: those between
    the midpoints to the neighbouring numbers, the midpoints included
    when [m] is even. *)
Definition reads_back (m : positive) (e : Z) (s t : Z) : bool :=
  let c := (inject_Z s * pow10 t)%Q in
  let unit := pow2 (e - 2) in
  let below := if (Zpos m =? 2 ^ 52)%Z && negb (e =? -1074)%Z then 1%Z else 2%Z in
  let lo := (inject_Z (4 * Zpos m - below) * unit)%Q in
  let hi := (inject_Z (4 * Zpos m + 2) * unit)%Q in
  if Z.even (Zpos m) then (Qleb lo c && Qleb c hi)%bool
  else (Qltb lo c && Qltb c hi)%bool.

(** The digits [s] and the exponent [t] of the shortest decimal of [k]
    digits or more that reads back as [v = m * 2^e], where
    [10^(n-1) <= v < 10^n]. *)
Fixpoint shortest (fuel : nat) (k : Z) (m : positive) (e n : Z) : Z * Z :=
  let v := (inject_Z (Zpos m) * pow2 e)%Q in
  let t := (n - k)%Z in
  let down := Qfloor (v / pow10 t)%Q in
  let up := (down + 1)%Z in
  let (up_s, up_t) := if (up =? 10 ^ k)%Z then (10 ^ (k - 1), t + 1)%Z else (up, t) in
  let down_ok := reads_back m e down t in
  let up_ok := reads_back m e up_s up_t in
  match fuel with
  | O => (down, t)
  | S fuel =>
      if (down_ok && up_ok)%bool
      then
        let a := (inject_Z down * pow10 t)%Q in
        let b := (inject_Z up_s * pow10 up_t)%Q in
        if Qltb (v - a)%Q (b - v)%Q then (down, t)
        else if Qltb (b - v)%Q (v - a)%Q then (up_s, up_t)
        else if Z.even down then (down, t) else (up_s, up_t)
      else if down_ok then (down, t)
      else if up_ok then (up_s, up_t)
      else shortest fuel (k + 1)%Z m e n
  end.

Definition digits (z : Z) : string := Pollinations.string_of_Z z.

Fixpoint zeros (n : nat) : string :=
  match n with O => "" | S n => String "0" (zeros n) end.

(** The digits of [s * 10^t], a decimal of [k] digits, after
    [Number::toString]. *)
Definition format (s t : Z) : string :=
  let ds := digits s in
  let k := Z.of_nat (String.length ds) in
  let n := (t + k)%Z in
  if ((-5 <=? n) && (n <=? 21))%Z
  then
    if (k <=? n)%Z then ds ++ zeros (Z.to_nat (n - k))
    else if (0 <? n)%Z
    then str_take (Z.to_nat n) ds ++ "." ++ str_drop (Z.to_nat n) ds
    else "0." ++ zeros (Z.to_nat (- n)) ++ ds
  else
    let c := (n - 1)%Z in
    let exponent := (if (c <? 0)%Z then "-" else "+") ++ digits (Z.abs c) in
    if (k =? 1)%Z then ds ++ "e" ++ exponent
    else str_take 1 ds ++ "." ++ str_drop 1 ds ++ "e" ++ exponent.

(** [Number::toString(x)] *)
Definition number_to_string (x : float) : string :=
  match Prim2SF x with
  | S754_zero _ => "0"
  | S754_nan => "NaN"
  | S754_infinity s => if s then "-Infinity" else "Infinity"
  | S754_finite sign m e =>
      let v := (inject_Z (Zpos m) * pow2 e)%Q in
      let n := magnitude 700 ((e + Z.log2 (Zpos m)) * 30103 / 100000 - 2) v in
      let (s, t) := shortest 17 1 m e n in
      (if sign then "-" else "") ++ format s t
  end.


(** *** Text to numbers *)

(** The least [p] from [p] on with [q < 2^p]. *)
Fixpoint binary_magnitude (fuel : nat) (p : Z) (q : Q) : Z :=
  match fuel with
  | O => p
  | S fuel => if Qltb q (pow2 p) then p else binary_magnitude fuel (p + 1)%Z q
  end.

(** The number nearest to the rational [mantissa * 10^exponent], ties
    to even; beyond the range of the format on either side the result is
    [Infinity] or zero whatever the digits. *)
Definition nearest (negative : bool) (mantissa exponent : Z) : float :=
  let size := (Z.log2 mantissa * 30103 / 100000 + exponent)%Z in
  if (mantissa =? 0)%Z then SF2Prim (S754_zero negative)
  else if (310 <? size)%Z then SF2Prim (S754_infinity negative)
  else if (size <? -330)%Z then SF2Prim (S754_zero negative)
  else
  let q := (inject_Z mantissa * pow10 exponent)%Q in
  let p := binary_magnitude 2200
             (Z.log2 mantissa
              + (if (exponent <? 0)%Z then exponent * 33220 / 10000
                 else exponent * 33219 / 10000) - 2) q in
  let e := Z.max (p - 53) (-1074) in
  let scaled := (q / pow2 e)%Q in
  let down := Qfloor scaled in
  let rest := (scaled - inject_Z down)%Q in
  let m := if Qltb (1 # 2) rest then (down + 1)%Z
           else if Qltb rest (1 # 2) then down
           else if Z.even down then down else (down + 1)%Z in
  let (m, e) := if (m =? 2 ^ 53)%Z then (2 ^ 52, e + 1)%Z else (m, e) in
  match m with
  | Zpos mantissa =>
      if (971 <? e)%Z then SF2Prim (S754_infinity negative)
      else SF2Prim (S754_finite negative mantissa e)
  | _ => SF2Prim (S754_zero negative)
  end.

Definition is_digit (c : ascii) : bool :=
  (Nat.leb 48 (code c) && Nat.leb (code c) 57)%bool.

Definition digit_value (c : ascii) : Z := Z.of_nat (code c - 48).

(** A run of digits: their value continued from [acc], how many they
    are, and the text that follows. *)
Fixpoint read_digits (s : string) (acc : Z) (count : nat) : Z * nat * string :=
  match s with
  | String c rest =>
      if is_digit c then read_digits rest (10 * acc + digit_value c)%Z (S count)
      else (acc, count, s)
  | EmptyString => (acc, count, s)
  end.

(** A number of the grammar: an optional minus sign; a zero, or
    digits that do not begin with a zero; an optional point followed by
    digits; an optional exponent, [e] or [E], a sign, digits. *)
Definition read_number (s : string) : option (float * string) :=
  let (negative, s) :=
    match s with
    | String "-" rest => (true, rest)
    | _ => (false, s)
    end in
  match s with
  | String c after_first =>
      if is_digit c
      then
        let '(int, _, s) :=
          if Ascii.eqb c "0" then (0%Z, 1%nat, after_first) else read_digits s 0 0 in
        let fraction :=
          match s with
          | String "." rest =>
              let '(value, count, s') := read_digits rest int 0 in
              if Nat.eqb count 0 then None else Some (value, count, s')
          | _ => Some (int, 0%nat, s)
          end in
        match fraction with
        | None => None
        | Some (mantissa, scale, s) =>
            let exponent :=
              match s with
              | String c rest =>
                  if (Ascii.eqb c "e" || Ascii.eqb c "E")%bool
                  then
                    let (minus, rest) :=
                      match rest with
                      | String "-" r => (true, r)
                      | String "+" r => (false, r)
                      | _ => (false, rest)
                      end in
                    let '(value, count, s') := read_digits rest 0 0 in
                    if Nat.eqb count 0 then None
                    else Some ((if minus then - value else value)%Z, s')
                  else Some (0%Z, s)
              | EmptyString => Some (0%Z, s)
              end in
            match exponent with
            | None => None
            | Some (exp, s) =>
                Some (nearest negative mantissa (exp - Z.of_nat scale), s)
            end
        end
      else None
  | EmptyString => None
  end.


(** *** Values to text *)

Definition hex_digit (n : nat) : ascii :=
  ascii_of_nat (if Nat.ltb n 10 then 48 + n else 87 + n)%nat.

(** [QuoteJSONString] *)
Fixpoint quote_chars (s : string) : string :=
  match s with
  | EmptyString => ""
  | String c rest =>
      (let n := code c in
       if Nat.eqb n 8 then String backslash "b"
       else if Nat.eqb n 9 then String backslash "t"
       else if Nat.eqb n 10 then String backslash "n"
       else if Nat.eqb n 12 then String backslash "f"
       else if Nat.eqb n 13 then String backslash "r"
       else if Nat.eqb n 34 then String backslash (String dquote "")
       else if Nat.eqb n 92 then String backslash (String backslash "")
       else if Nat.ltb n 32
       then String backslash
              ("u00" ++ String (hex_digit (n / 16)%nat) (String (hex_digit (n mod 16)%nat) ""))
       else String c "")
      ++ quote_chars rest
  end.

Definition quote (s : string) : string :=
  String dquote (quote_chars s ++ String dquote "").

Definition newline : string := String LF "".

(** The items of an array or of an object, one to a line at [indent]. *)
Fixpoint join_lines (indent : string) (items : list string) : string :=
  match items with
  | [] => ""
  | [item] => item
  | item :: rest => item ++ "," ++ newline ++ indent ++ join_lines indent rest
  end.

Definition block (opening closing stepback indent : string) (items : list string)
    : string :=
  match items with
  | [] => opening ++ closing
  | _ => opening ++ newline ++ indent ++ join_lines indent items
         ++ newline ++ stepback ++ closing
  end.

(** [SerializeJSONProperty], with a gap of two spaces. *)
Fixpoint serialize (indent : string) (v : JSValue) : string :=
  match v with
  | JNull => "null"
  | JBool b => if b then "true" else "false"
  | JNum n => if is_finite n then number_to_string n else "null"
  | JStr s => quote s
  | JArr items =>
      block "[" "]" indent ("  " ++ indent) (map (serialize ("  " ++ indent)) items)
  | JObj fields =>
      block "{" "}" indent ("  " ++ indent)
        (map (fun kv => quote (fst kv) ++ ": " ++ serialize ("  " ++ indent) (snd kv))
             fields)
  end.

(** [JSON.stringify(value, null, 2)] *)
Definition stringify (v : JSValue) : string := serialize "" v.

(** *** Text to values *)

(** The white space of the grammar: tab, line feed, carriage return,
    space. *)
Definition is_json_space (c : ascii) : bool :=
  let n := code c in
  (Nat.eqb n 9 || Nat.eqb n 10 || Nat.eqb n 13 || Nat.eqb n 32)%bool.

Fixpoint skip_space (s : string) : string :=
  match s with
  | String c rest => if is_json_space c then skip_space rest else s
  | EmptyString => s
  end.

Definition hex_value (c : ascii) : option nat :=
  let n := code c in
  if (Nat.leb 48 n && Nat.leb n 57)%bool then Some (n - 48)%nat
  else if (Nat.leb 97 n && Nat.leb n 102)%bool then Some (n - 87)%nat
  else if (Nat.leb 65 n && Nat.leb n 70)%bool then Some (n - 55)%nat
  else None.

(** The characters of a string up to its closing quote. *)
Fixpoint read_chars (s : string) : option (string * string) :=
  match s with
  | EmptyString => None
  | String c rest =>
      if Ascii.eqb c dquote then Some ("", rest)
      else if Ascii.eqb c backslash
      then
        match rest with
        | String e rest' =>
            let plain (x : ascii) :=
              match read_chars rest' with
              | Some (text, after) => Some (String x text, after)
              | None => None
              end in
            if Ascii.eqb e dquote then plain dquote
            else if Ascii.eqb e backslash then plain backslash
            else if Ascii.eqb e "/" then plain "/"%char
            else if Ascii.eqb e "b" then plain (ascii_of_nat 8)
            else if Ascii.eqb e "f" then plain (ascii_of_nat 12)
            else if Ascii.eqb e "n" then plain (ascii_of_nat 10)
            else if Ascii.eqb e "r" then plain (ascii_of_nat 13)
            else if Ascii.eqb e "t" then plain (ascii_of_nat 9)
            else if Ascii.eqb e "u"
            then
              match rest' with
              | String h1 (String h2 (String h3 (String h4 rest''))) =>
                  match hex_value h1, hex_value h2, hex_value h3, hex_value h4 with
                  | Some a, Some b, Some c', Some d =>
                      if (Nat.eqb a 0 && Nat.eqb b 0)%bool
                      then match read_chars rest'' with
                           | Some (text, after) =>
                               Some (String (ascii_of_nat (16 * c' + d)%nat) text, after)
                           | None => None
                           end
                      else None
                  | _, _, _, _ => None
                  end
              | _ => None
              end
            else None
        | EmptyString => None
        end
      else if Nat.ltb (code c) 32 then None
      else match read_chars rest with
           | Some (text, after) => Some (String c text, after)
           | None => None
           end
  end.

(** [CreateDataProperty]: a key that is there takes the new value. *)
Fixpoint set_field (key : string) (v : JSValue) (fields : list (string * JSValue))
    : list (string * JSValue) :=
  match fields with
  | [] => [(key, v)]
  | (k, old) :: rest =>
      if (k =? key)%string then (k, v) :: rest else (k, old) :: set_field key v rest
  end.

(** A value of the grammar and the text that follows it; [depth] bounds
    the nesting and the number of items read. *)
Fixpoint read_value (depth : nat) (s : string) : option (JSValue * string) :=
  match depth with
  | O => None
  | S depth =>
      match skip_space s with
      | EmptyString => None
      | String c rest =>
          if Ascii.eqb c dquote
          then match read_chars rest with
               | Some (text, after) => Some (JStr text, after)
               | None => None
               end
          else if Ascii.eqb c "["
          then match skip_space rest with
               | String "]" after => Some (JArr [], after)
               | _ => read_items depth rest []
               end
          else if Ascii.eqb c "{"
          then match skip_space rest with
               | String "}" after => Some (JObj [], after)
               | _ => read_fields depth rest []
               end
          else if startsWith "null" (String c rest) then Some (JNull, str_drop 4 (String c rest))
          else if startsWith "true" (String c rest)
          then Some (JBool true, str_drop 4 (String c rest))
          else if startsWith "false" (String c rest)
          then Some (JBool false, str_drop 5 (String c rest))
          else match read_number (String c rest) with
               | Some (n, after) => Some (JNum n, after)
               | None => None
               end
      end
  end

with read_items (depth : nat) (s : string) (seen : list JSValue)
    : option (JSValue * string) :=
  match depth with
  | O => None
  | S depth =>
      match read_value depth s with
      | Some (v, after) =>
          match skip_space after with
          | String "," more => read_items depth more (seen ++ [v])%list
          | String "]" more => Some (JArr (seen ++ [v])%list, more)
          | _ => None
          end
      | None => None
      end
  end

with read_fields (depth : nat) (s : string) (seen : list (string * JSValue))
    : option (JSValue * string) :=
  match depth with
  | O => None
  | S depth =>
      match skip_space s with
      | String c rest =>
          if Ascii.eqb c dquote
          then match read_chars rest with
               | Some (key, after) =>
                   match skip_space after with
                   | String ":" more =>
                       match read_value depth more with
                       | Some (v, after') =>
                           match skip_space after' with
                           | String "," more' =>
                               read_fields depth more' (set_field key v seen)
                           | String "}" more' =>
                               Some (JObj (set_field key v seen), more')
                           | _ => None
                           end
                       | None => None
                       end
                   | _ => None
                   end
               | None => None
               end
          else None
      | EmptyString => None
      end
  end.

(** [JSON.parse(text)]: one value, and white space around it.  The
    text bounds what reading it calls for. *)
Definition parse (text : string) : option JSValue :=
  match read_value (2 * String.length text + 2)%nat text with
  | Some (v, after) =>
      match skip_space after with
      | EmptyString => Some v
      | _ => None
      end
  | None => None
  end.

End JSON.

(** ** The composer's send gate ([components/Composer.tsx]) *)

Module Composer.

(** The composer's own state, and the properties the page passes. *)
Record State : Type := mkState {
  text : string;
  effectiveMode : GenerationMode;
  attachments : list MessageAttachment;
  isOverLimit : bool       (* tokenInfo.isOverLimit *)
}.

Record Props : Type := mkProps {
  disabled : bool;
  isStreaming : bool
}.

(** What an event of the composer calls on the page. *)
Inductive Call : Type :=
| NoCall
| OnSend (text : string) (mode : GenerationMode) (attachments : list MessageAttachment)
| OnCancel.

Definition handleSend (c : State) : Call :=
  let trimmed := trim (text c) in
  if (negb (nonempty trimmed) && Nat.eqb (List.length (attachments c)) 0)%bool
  then NoCall
  else if isOverLimit c then NoCall
  else OnSend trimmed (effectiveMode c) (attachments c).

Definition handleKeyDown (props : Props) (c : State) (key : string) (shiftKey : bool)
    : Call :=
  if ((key =? "Enter")%string && negb shiftKey)%bool
  then if (negb (disabled props) && negb (isStreaming props))%bool
       then handleSend c
       else NoCall
  else NoCall.

(** A click on the button at the right of the input: while streaming
    it is the stop button; otherwise the send button, which is inert
    when disabled. *)
Definition clickAction (props : Props) (c : State) : Call :=
  if isStreaming props then OnCancel
  else if (disabled props
           || (negb (nonempty (trim (text c)))
               && Nat.eqb (List.length (attachments c)) 0))%bool
       then NoCall
       else handleSend c.

End Composer.

(** ** The orchestrator ([components/ChatPage.tsx]) *)

Module ChatPage.

Import Pollinations.

Record PollinationsModel : Type := mkModel {
  model_name : string;
  model_type : GenerationMode;
  model_pricing : option PollenMath.Pricing
}.

Record AppSettings : Type := mkSettings {
  autoFetchUsage : bool;
  autoReadBalance : bool;
  systemPrompt : string
}.

(** The calls of [notifyError]. *)
Inductive Notice : Type :=
| InsufficientPollen (cost balance : float)
| ErrorNotice (message : string).

(** The state of the page: the session store, the component's state
    cells and its [abortRef]; what it has asked of its collaborators
    ([notices], [postGenerationRuns]); and how many times it has read
    the clock and drawn an identifier. *)
Record Page : Type := mkPage {
  sessions : list ChatSession;
  activeSessionId : option string;
  selectedModel : option PollinationsModel;
  isStreaming : bool;
  balance : option float;
  settings : AppSettings;
  abortRef : bool;
  notices : list Notice;
  postGenerationRuns : nat;
  ticks : nat;
  uuids : nat
}.

Definition set_sessions (ss : list ChatSession) (p : Page) : Page :=
  mkPage ss (activeSessionId p) (selectedModel p) (isStreaming p) (balance p)
         (settings p) (abortRef p) (notices p) (postGenerationRuns p) (ticks p) (uuids p).

Definition setActiveSessionId (i : option string) (p : Page) : Page :=
  mkPage (sessions p) i (selectedModel p) (isStreaming p) (balance p)
         (settings p) (abortRef p) (notices p) (postGenerationRuns p) (ticks p) (uuids p).

Definition setIsStreaming (b : bool) (p : Page) : Page :=
  mkPage (sessions p) (activeSessionId p) (selectedModel p) b (balance p)
         (settings p) (abortRef p) (notices p) (postGenerationRuns p) (ticks p) (uuids p).

Definition set_abortRef (b : bool) (p : Page) : Page :=
  mkPage (sessions p) (activeSessionId p) (selectedModel p) (isStreaming p) (balance p)
         (settings p) b (notices p) (postGenerationRuns p) (ticks p) (uuids p).

Definition notifyError (n : Notice) (p : Page) : Page :=
  mkPage (sessions p) (activeSessionId p) (selectedModel p) (isStreaming p) (balance p)
         (settings p) (abortRef p) (notices p ++ [n]) (postGenerationRuns p) (ticks p)
         (uuids p).

Definition postGenerationTasks (p : Page) : Page :=
  mkPage (sessions p) (activeSessionId p) (selectedModel p) (isStreaming p) (balance p)
         (settings p) (abortRef p) (notices p) (S (postGenerationRuns p)) (ticks p)
         (uuids p).

Definition tick (p : Page) : Page :=
  mkPage (sessions p) (activeSessionId p) (selectedModel p) (isStreaming p) (balance p)
         (settings p) (abortRef p) (notices p) (postGenerationRuns p) (S (ticks p))
         (uuids p).

Definition next_uuid (p : Page) : Page :=
  mkPage (sessions p) (activeSessionId p) (selectedModel p) (isStreaming p) (balance p)
         (settings p) (abortRef p) (notices p) (postGenerationRuns p) (ticks p)
         (S (uuids p)).

(** The request a send is waiting on. *)
Inductive Pending : Type :=
| AwaitImage (sessionId msgId modelName : string)
| AwaitVideo (sessionId msgId modelName : string)
| AwaitStream (sessionId assistantId modelName : string).

(** The outcome of [generateImage] or [generateVideo]: the blob, with
    the URL made for it, or the error thrown. *)
Inductive MediaResult : Type :=
| MediaBlob (url : string) (size : Z)
| MediaFails (e : JSError).

(** What the network answers to each kind of request. *)
Record Network : Type := mkNetwork {
  net_image : MediaResult;
  net_video : MediaResult;
  net_stream : FetchResult
}.

(** The arguments of a call of [handleSend]. *)
Record SendCall : Type := mkSendCall {
  call_text : string;
  call_mode : GenerationMode;
  call_attachments : list MessageAttachment
}.

Definition cancelled_marker : string :=
  String LF (String LF "*[Generation cancelled]*").

Definition handleError_message (err : JSError) : string :=
  match err with
  | PollinationsError _ status _ =>
      if (status =? 401)%Z then "Your session has expired. Please sign in again."
      else if (status =? 402)%Z then "Insufficient pollen balance. Please top up your account."
      else if (status =? 403)%Z then "This model requires a higher tier. Try a different model."
      else if (status =? 429)%Z then "Too many requests. Please wait a moment and try again."
      else if (status =? 0)%Z then "Unable to connect. Please check your internet connection."
      else "Something went wrong. Please try again."
  | OtherError _ _ => "An unexpected error occurred. Please try again."
  end.

Definition handleError (err : JSError) (p : Page) : Page :=
  notifyError (ErrorNotice (handleError_message err)) p.

Section Orchestrator.

(** [Date.now()] at its n-th reading, and [uuid()] at its n-th call. *)
Variable clock : nat -> Z.
Variable uuid : nat -> string.

(** [extractFriendlyError(err, modelName, mode)]: the text written
    into a message whose generation failed; no property below depends
    on what the text is. *)
Variable extractFriendlyError : JSError -> string -> string -> string.

(** [JSON.parse] of a frame's payload, as in [Pollinations]. *)
Variable JSON_parse : string -> option StreamDelta.

Definition now (p : Page) : Z * Page := (clock (ticks p), tick p).

Definition fresh (p : Page) : string * Page := (uuid (uuids p), next_uuid p).

Definition addMessage (sessionId : string) (message : ChatMessage) (p : Page) : Page :=
  let (t, p) := now p in
  set_sessions (Store.addMessage sessionId message t (sessions p)) p.

Definition updateMessage (sessionId messageId : string) (update : MessageUpdate)
    (p : Page) : Page :=
  let (t, p) := now p in
  set_sessions (Store.updateMessage sessionId messageId update t (sessions p)) p.

Definition deleteMessagesFrom (sessionId messageId : string) (p : Page) : Page :=
  let (t, p) := now p in
  set_sessions (Store.deleteMessagesFrom sessionId messageId t (sessions p)) p.

Definition deleteMessage (sessionId messageId : string) (p : Page) : Page :=
  let (t, p) := now p in
  set_sessions (Store.deleteMessage sessionId messageId t (sessions p)) p.

Definition createSession (model : string) (p : Page) : string * Page :=
  let (i, p) := fresh p in
  let (created, p) := now p in
  let (updated, p) := now p in
  let session := mkSession i "New Chat" [] model created updated 0%float in
  (i, setActiveSessionId (Some i) (set_sessions (session :: sessions p) p)).

(** The pollen gate of [handleSend]: the notice it raises, if any. *)
Definition pollen_gate (model : PollinationsModel) (text : string) (p : Page)
    : option Notice :=
  if autoReadBalance (settings p)
  then match balance p with
       | Some b =>
           let cost :=
             PollenMath.computePollenCost (model_pricing model)
               (ExportImport.Z_to_float (Tokenizer.estimateTokens text)) 0%float in
           if PollenMath.hasSufficientPollen b cost then None
           else Some (InsufficientPollen cost b)
       | None => None
       end
  else None.

Definition resolve_mode (modelType mode : GenerationMode) : GenerationMode :=
  match modelType with
  | mode_image => mode_image
  | mode_video => mode_video
  | mode_text => mode_text
  | mode_audio => mode
  end.

Definition placeholder (i : string) (mode : GenerationMode) (modelName : string)
    (t : Z) : ChatMessage :=
  mkMessage i assistant "" mode [] t (Some modelName) None None (Some true) None.

(** [handleSend] up to the request it awaits. *)
Definition handleSend_start (call : SendCall) (p : Page) : Page * option Pending :=
  match selectedModel p with
  | None => (p, None)
  | Some model =>
      if (negb (nonempty (trim (call_text call)))
          && Nat.eqb (List.length (call_attachments call)) 0)%bool
      then (p, None)
      else
        match pollen_gate model (call_text call) p with
        | Some notice => (notifyError notice p, None)
        | None =>
            let (sessionId, p) :=
              match activeSessionId p with
              | Some i => (i, p)
              | None => createSession (model_name model) p
              end in
            let (userId, p) := fresh p in
            let (t, p) := now p in
            let userMsg :=
              mkMessage userId user (call_text call) (call_mode call)
                        (call_attachments call) t (Some (model_name model))
                        None None None None in
            let p := addMessage sessionId userMsg p in
            match resolve_mode (model_type model) (call_mode call) with
            | mode_image =>
                let p := setIsStreaming true p in
                let (i, p) := fresh p in
                let (t, p) := now p in
                let p := addMessage sessionId
                           (placeholder i mode_image (model_name model) t) p in
                (p, Some (AwaitImage sessionId i (model_name model)))
            | mode_video =>
                let p := setIsStreaming true p in
                let (i, p) := fresh p in
                let (t, p) := now p in
                let p := addMessage sessionId
                           (placeholder i mode_video (model_name model) t) p in
                (p, Some (AwaitVideo sessionId i (model_name model)))
            | _ =>
                let p := set_abortRef true (setIsStreaming true p) in
                let (i, p) := fresh p in
                let (t, p) := now p in
                let p := addMessage sessionId
                           (placeholder i mode_text (model_name model) t) p in
                (p, Some (AwaitStream sessionId i (model_name model)))
            end
        end
  end.

Definition chunk_update (accum : string) : MessageUpdate :=
  mkUpdate None None (Some accum) None None None None
           (Some (Tokenizer.estimateTokens accum)) None (Some true) None.

Definition done_update (accum : string) (usage : option Usage) : MessageUpdate :=
  mkUpdate None None (Some accum) None None None None
           (Some (match usage with
                  | Some u => completion_tokens u
                  | None => Tokenizer.estimateTokens accum
                  end))
           None (Some false) None.

Definition cancelled_update (accum : string) : MessageUpdate :=
  mkUpdate None None (Some (accum ++ cancelled_marker)%string) None None None None
           None None (Some false) None.

Definition failed_update (friendlyMsg : string) : MessageUpdate :=
  mkUpdate None None (Some friendlyMsg) None None None None None None
           (Some false) (Some true).

Definition generated_update (content : string) (a : MessageAttachment) : MessageUpdate :=
  mkUpdate None None (Some content) None (Some [a]) None None None None
           (Some false) None.

(** The two callbacks [handleSend] hands to [streamGeneration], run on
    the calls the client makes; [accum] is the closure's variable. *)
Fixpoint run_callbacks (sessionId assistantId : string) (evs : list StreamEvent)
    (accum : string) (p : Page) : string * Page :=
  match evs with
  | [] => (accum, p)
  | OnChunk chunk :: rest =>
      let accum := (accum ++ chunk)%string in
      run_callbacks sessionId assistantId rest accum
        (updateMessage sessionId assistantId (chunk_update accum) p)
  | OnDone usage _ :: rest =>
      run_callbacks sessionId assistantId rest accum
        (updateMessage sessionId assistantId (done_update accum usage) p)
  end.

(** The [try] / [catch] / [finally] around [streamGeneration]. *)
Definition stream_complete (sessionId assistantId modelName : string)
    (result : list StreamEvent * option JSError) (p : Page) : Page :=
  let (accum, p) := run_callbacks sessionId assistantId (fst result) "" p in
  let p :=
    match snd result with
    | None => p
    | Some err =>
        if (error_name err =? "AbortError")%string
        then updateMessage sessionId assistantId (cancelled_update accum) p
        else
          let p := handleError err p in
          if negb (nonempty accum)
          then updateMessage sessionId assistantId
                 (failed_update (extractFriendlyError err modelName "text")) p
          else p
    end in
  postGenerationTasks (set_abortRef false (setIsStreaming false p)).

Definition media_complete (kind : AttachmentType) (success name mime mode : string)
    (sessionId msgId modelName : string) (r : MediaResult) (p : Page) : Page :=
  let p :=
    match r with
    | MediaBlob url size =>
        let (i, p) := fresh p in
        updateMessage sessionId msgId
          (generated_update success (mkAttachment i kind name mime url size)) p
    | MediaFails err =>
        let friendlyMsg := extractFriendlyError err modelName mode in
        let p := handleError err p in
        updateMessage sessionId msgId (failed_update friendlyMsg) p
    end in
  postGenerationTasks (setIsStreaming false p).

Definition handleSend_finish (pending : Pending) (net : Network) (p : Page) : Page :=
  match pending with
  | AwaitImage sessionId msgId modelName =>
      media_complete att_image "Image generated successfully." "generated.png"
        "image/png" "image" sessionId msgId modelName (net_image net) p
  | AwaitVideo sessionId msgId modelName =>
      media_complete att_video "Video generated successfully." "generated.mp4"
        "video/mp4" "video" sessionId msgId modelName (net_video net) p
  | AwaitStream sessionId assistantId modelName =>
      stream_complete sessionId assistantId modelName
        (streamGeneration JSON_parse (net_stream net)) p
  end.

(** [handleSend], run to its end against the answers of the network. *)
Definition handleSend (call : SendCall) (net : Network) (p : Page) : Page :=
  match handleSend_start call p with
  | (p, Some pending) => handleSend_finish pending net p
  | (p, None) => p
  end.

(** [!activeSessionId] is false *)
Definition truthy_id (i : option string) : option string := truthy_string i.

(** [handleRegenerate] up to its call of [handleSend]: the page after
    the truncation, and the call it makes, if any. *)
Definition handleRegenerate (assistantMessageId : string) (p : Page)
    : Page * option SendCall :=
  match truthy_id (activeSessionId p),
        Store.activeSession (sessions p) (activeSessionId p) with
  | Some sessionId, Some session =>
      if isStreaming p then (p, None)
      else
        match findIndex (fun m => (msg_id m =? assistantMessageId)%string)
                        (sess_messages session) with
        | Some (S i) =>
            match nth_error (sess_messages session) i with
            | Some userMsg =>
                if negb (role_eqb (msg_role userMsg) user) then (p, None)
                else (deleteMessagesFrom sessionId assistantMessageId p,
                      Some (mkSendCall (msg_content userMsg) (msg_mode userMsg)
                                       (msg_attachments userMsg)))
            | None => (p, None)
            end
        | _ => (p, None)
        end
  | _, _ => (p, None)
  end.


(** A handler and the [handleSend] it goes on to call. *)
Definition then_send (r : Page * option SendCall) (net : Network) : Page :=
  match r with
  | (p, Some call) => handleSend call net p
  | (p, None) => p
  end.








End Orchestrator.

End ChatPage.

(** ** Statements used by the theorems *)

(** A mutation keyed by [sessionId] keeps the sessions of the
    collection, in number, identity and order, and leaves every session
    with another id as it was. *)
Definition preserves_others (sessionId : string) (before after : list ChatSession)
    : Prop :=
  map sess_id after = map sess_id before /\
  forall i s, nth_error before i = Some s -> sess_id s <> sessionId ->
              nth_error after i = Some s.

(** Sample data: one session holding the log A, B, C, D. *)
Definition sample_message (i : string) (r : Role) (content : string) : ChatMessage :=
  mkMessage i r content mode_text [] 1700000000000 (Some "openai")
            None None None None.

Definition sample_session : ChatSession :=
  mkSession "s1" "first" [ sample_message "A" user "hi";
                           sample_message "B" assistant "hello";
                           sample_message "C" user "more";
                           sample_message "D" assistant "sure" ]
            "openai" 1700000000000 1700000000000 0%float.

Definition other_session : ChatSession :=
  mkSession "s2" "second" [ sample_message "A" user "untouched" ]
            "openai" 1700000000000 1700000000000 0%float.

Definition sample_store : list ChatSession := [ other_session; sample_session ].

(** The text received over the reads of a body. *)
Fixpoint received (reads : list string) : string :=
  match reads with
  | [] => ""
  | value :: rest => (value ++ received rest)%string
  end.

(** Sample frames, in place of [JSON.parse], for the payloads [c:text]
    (a content delta), [t:name] (a tier label) and [u:] (a usage
    object); any other payload is malformed. *)
Definition sample_usage : Pollinations.Usage := Pollinations.mkUsage 12 5 17.

Definition sample_parse (payload : string) : option Pollinations.StreamDelta :=
  if startsWith "c:" payload
  then Some (Pollinations.mkDelta None None (Some (str_drop 2 payload)))
  else if startsWith "t:" payload
  then Some (Pollinations.mkDelta None (Some (str_drop 2 payload)) None)
  else if startsWith "u:" payload
  then Some (Pollinations.mkDelta (Some sample_usage) None None)
  else None.

Definition nl : string := String LF "".

(** A body in three reads that cut the lines anywhere: two deltas
    around a malformed frame, a usage frame, and the marker. *)
Definition sample_reads : list string :=
  [ ("data: c:Hel" ++ nl ++ "data: {oops")%string;
    (nl ++ "data: c:lo" ++ nl ++ "data: u:" ++ nl ++ "da")%string;
    ("ta: [DONE]" ++ nl ++ "data: c:late" ++ nl)%string ].

Definition sample_response (reads : list string) : Pollinations.Response :=
  Pollinations.mkResponse true 200 (Some "text/event-stream") None None
    (Some (Pollinations.mkBody reads Pollinations.EndOfStream)).

(** A response that yields a readable body of [reads], ended by the
    transport: the status is a success, the content type is not a plain
    JSON one, and the body is there. *)
Definition readable (res : Pollinations.Response) (reads : list string) : Prop :=
  Pollinations.res_ok res = true /\
  (includes "application/json" (or_else (Pollinations.res_contentType res) "")
   && negb (includes "stream" (or_else (Pollinations.res_contentType res) "")))%bool
  = false /\
  Pollinations.res_body res = Some (Pollinations.mkBody reads Pollinations.EndOfStream).

(** The message at position [j] of the session at position [i]. *)
Definition message_at (ss : list ChatSession) (i j : nat) : option ChatMessage :=
  match nth_error ss i with
  | Some s => nth_error (sess_messages s) j
  | None => None
  end.

(** The store holds, at position [i], a session with id [sessionId]
    whose log holds, at position [j], a message with id [messageId]. *)
Definition holds_message (ss : list ChatSession) (sessionId messageId : string)
    (i j : nat) : Prop :=
  exists s m, nth_error ss i = Some s /\ sess_id s = sessionId /\
              nth_error (sess_messages s) j = Some m /\ msg_id m = messageId.

(** Sample page: the session [user: hi, assistant: hello] is active,
    a text model is selected, and no balance has been read. *)
Definition sample_clock (n : nat) : Z := 1700000000000 + Z.of_nat n.

Definition sample_uuid (n : nat) : string :=
  ("uuid-" ++ Pollinations.string_of_Z (Z.of_nat n))%string.

Definition sample_friendly (e : Pollinations.JSError) (modelName mode : string)
    : string := ("generation failed: " ++ modelName)%string.

Definition hi_session : ChatSession :=
  mkSession "s1" "hi" [ sample_message "u1" user "hi";
                        sample_message "a1" assistant "hello" ]
            "openai" 1700000000000 1700000000000 0%float.

Definition sample_page : ChatPage.Page :=
  ChatPage.mkPage [ hi_session ] (Some "s1")
    (Some (ChatPage.mkModel "openai" mode_text None)) false None
    (ChatPage.mkSettings true true "") false [] 0 0 0.

(** A send of "again" on the sample page, up to its request: the page
    with that generation in flight. *)
Definition again : ChatPage.SendCall := ChatPage.mkSendCall "again" mode_text [].

Definition in_flight_page : ChatPage.Page :=
  fst (ChatPage.handleSend_start sample_clock sample_uuid again sample_page).

(** The identifiers and the contents of the logs of a store. *)
Definition logs (ss : list ChatSession) : list (list (string * Role * string)) :=
  map (fun s => map (fun m => (msg_id m, msg_role m, msg_content m)) (sess_messages s)) ss.

(** A stream that delivers one delta and then loses the connection. *)
Definition broken_stream : Pollinations.FetchResult :=
  Pollinations.FetchResolves
    (Pollinations.mkResponse true 200 (Some "text/event-stream") None None
       (Some (Pollinations.mkBody [ ("data: c:Hel" ++ nl)%string ]
                (Pollinations.ReadRejects
                   (Pollinations.OtherError "TypeError" "network error"))))).

Definition the_network (stream : Pollinations.FetchResult) : ChatPage.Network :=
  ChatPage.mkNetwork
    (ChatPage.MediaFails (Pollinations.OtherError "TypeError" "no image"))
    (ChatPage.MediaFails (Pollinations.OtherError "TypeError" "no video"))
    stream.

(** A session the importer accepts: it is not [null], its [id] is
    truthy and its [messages] is an array. *)
Definition session_ok (v : ExportImport.JSValue) : bool :=
  match v with
  | ExportImport.JNull => false
  | _ => (ExportImport.js_truthy (ExportImport.js_get v "id")
          && ExportImport.isArray (ExportImport.js_get v "messages"))%bool
  end.

(** What is read back of a list of imported sessions: ids, titles,
    and the contents of the messages in order. *)
Definition same_sessions (imported : list ExportImport.JSValue) (ss : list ChatSession) : Prop :=
  map ExportImport.imported_id imported = map (fun s => Some (sess_id s)) ss /\
  map ExportImport.imported_title imported = map (fun s => Some (sess_title s)) ss /\
  map ExportImport.imported_contents imported =
    map (fun s => Some (map (fun m => Some (msg_content m)) (sess_messages s))) ss.

Definition export_time : string := "2026-01-01T00:00:00.000Z".

(** The sessions of the test suite: "Chat 1" with two messages and
    "Chat 2" with one; the second message holds a quotation and a line
    feed, and the first session has spent some pollen. *)
Definition quoted_reply : string :=
  ("Hi there! " ++ String JSON.dquote ("ok" ++ String JSON.dquote (String LF "bye")))%string.

Definition chat_1 : ChatSession :=
  mkSession "session-1" "Chat 1"
    [ sample_message "msg-1" user "Hello"; sample_message "msg-2" assistant quoted_reply ]
    "openai" 1700000000000 1700000000001 PollenMath.MIN_POLLEN_PER_PROMPT.

Definition chat_2 : ChatSession :=
  mkSession "session-2" "Chat 2" [ sample_message "msg-3" user "How are you?" ]
    "openai" 1700000000000 1700000000000 0%float.

(** The text of the test suite whose [sessions] is the string [nope],
    with no [version]. *)
Definition sessions_nope : string :=
  ("{" ++ String JSON.dquote ("sessions" ++ String JSON.dquote (": "
   ++ String JSON.dquote ("nope" ++ String JSON.dquote "}"))))%string.

(** Sample pricings: no field at all, and the fields of the test
    suite's cases. *)
Definition no_pricing : PollenMath.Pricing :=
  PollenMath.mkPricing None None None None None None None None.

Definition text_pricing (input output : float) : PollenMath.Pricing :=
  PollenMath.mkPricing (Some input) None (Some output) None None None None None.

Definition image_pricing (input image : float) : PollenMath.Pricing :=
  PollenMath.mkPricing (Some input) None None (Some image) None None None None.

(** The code units of a string. *)
Definition units (s : string) : list N := map N_of_ascii (list_ascii_of_string s).

(** *** What the specification counts

    The words of a text are its maximal runs of code units that are not
    white space: there is one for each code unit that is not white space
    and that follows white space or begins the text.  The special
    characters are the code units that are neither in [a-zA-Z0-9] nor
    white space. *)
Fixpoint word_starts (after_space : bool) (text : list N) : nat :=
  match text with
  | [] => 0
  | c :: t =>
      (if (after_space && negb (Tokenizer16.is_white_space c))%bool then 1 else 0)
      + word_starts (Tokenizer16.is_white_space c) t
  end.

Definition word_count (text : list N) : nat := word_starts true text.

Definition special_count (text : list N) : nat :=
  List.length
    (filter (fun c => (negb (Tokenizer16.is_alphanumeric c) && negb (Tokenizer16.is_white_space c))%bool)
            text).

(** A text laid out as words and the white space between them: white
    space, then each word followed by its white space. *)
Fixpoint laid_out (lead : list N) (pieces : list (list N * list N)) : list N :=
  match pieces with
  | [] => lead
  | (word, sep) :: rest => lead ++ word ++ laid_out sep rest
  end.

(** The layout is proper: words are not empty and hold no white space;
    the white space between two words is not empty. *)
Fixpoint proper_layout (pieces : list (list N * list N)) : Prop :=
  match pieces with
  | [] => True
  | (word, sep) :: rest =>
      word <> [] /\ forallb (fun c => negb (Tokenizer16.is_white_space c)) word = true /\
      forallb Tokenizer16.is_white_space sep = true /\
      (rest <> [] -> sep <> []) /\ proper_layout rest
  end.

(** Sample texts: ten words of one letter; [x,] TAB [y;] LF [z.]; and
    two words of two ideographs around an ideographic space. *)
Definition ten_words : string := "a b c d e f g h i j".

Definition punctuated : list N := [120; 44; 9; 121; 59; 10; 122; 46]%N.

Definition ideographs : list N := [20320; 22909; 12288; 19990; 30028]%N.



(** A second log for the sample session, in which the identifier "B"
    occurs twice. *)
Definition repeated_session : ChatSession :=
  mkSession "s1" "first" [ sample_message "A" user "hi";
                           sample_message "B" assistant "hello";
                           sample_message "C" user "more";
                           sample_message "B" assistant "again" ]
            "openai" 1700000000000 1700000000000 0%float.

(** The update that carries a content only. *)
Definition content_update (newContent : string) : MessageUpdate :=
  mkUpdate None None (Some newContent) None None None None None None None None.

(** A context of three messages under a system prompt. *)
Definition sample_context : list (string * string) :=
  [ ("system", "Be brief."); ("user", "hi"); ("assistant", "hello");
    ("user", "What is the capital of France?") ].

(** The number of words of a text, read from the left: [inword] tells
    that the piece being read is not empty. *)
Fixpoint count_words (text : string) (inword : bool) : nat :=
  match text with
  | EmptyString => if inword then 1 else 0
  | String c t =>
      if is_space c then ((if inword then 1 else 0) + count_words t false)%nat
      else count_words t true
  end.

(** The sample page with a balance read, and the balance-reading
    setting on. *)
Definition page_with_balance (b : float) : ChatPage.Page :=
  ChatPage.mkPage [ hi_session ] (Some "s1")
    (Some (ChatPage.mkModel "openai" mode_text None)) false (Some b)
    (ChatPage.mkSettings true true "") false [] 0 0 0.

(** A response that yields a body of [reads] with the given end: as
    [readable], whatever the end. *)
Definition streams (res : Pollinations.Response) (reads : list string)
    (ending : Pollinations.ReadEnd) : Prop :=
  Pollinations.res_ok res = true /\
  (includes "application/json" (or_else (Pollinations.res_contentType res) "")
   && negb (includes "stream" (or_else (Pollinations.res_contentType res) "")))%bool
  = false /\
  Pollinations.res_body res = Some (Pollinations.mkBody reads ending).

(** The sample response, with the end of its body chosen. *)
Definition sample_stream (reads : list string) (ending : Pollinations.ReadEnd)
    : Pollinations.Response :=
  Pollinations.mkResponse true 200 (Some "text/event-stream") None None
    (Some (Pollinations.mkBody reads ending)).

Definition lost_connection : Pollinations.JSError :=
  Pollinations.OtherError "TypeError" "network error".

(** The input of a send is blank: no text but white space, and no
    attachment. *)
Definition blank_call (call : ChatPage.SendCall) : bool :=
  (negb (nonempty (trim (ChatPage.call_text call)))
   && Nat.eqb (List.length (ChatPage.call_attachments call)) 0)%bool.


(** * Proofs *)

(** ** The session store *)

Module StoreFacts.

Import Store.

Lemma findIndex_first {A : Type} (p : A -> bool) (pre : list A) (m : A) (post : list A) :
  p m = true -> (forall x, In x pre -> p x = false) ->
  findIndex p (pre ++ m :: post) = Some (List.length pre).
Proof.
  intros Hm. induction pre as [|x pre IH]; intros Hpre; simpl.
  - now rewrite Hm.
  - rewrite (Hpre x (or_introl eq_refl)).
    rewrite IH; [reflexivity|]. intros y Hy. apply Hpre. now right.
Qed.

Lemma findIndex_none {A : Type} (p : A -> bool) (l : list A) :
  (forall x, In x l -> p x = false) -> findIndex p l = None.
Proof.
  induction l as [|x l IH]; intros H; simpl; [reflexivity|].
  rewrite (H x (or_introl eq_refl)). rewrite IH; [reflexivity|].
  intros y Hy. apply H. now right.
Qed.

(** [findIndex] returns the first match: the entries before it do not
    match, and the entry at it does. *)
Lemma findIndex_some {A : Type} (p : A -> bool) (l : list A) (i : nat) :
  findIndex p l = Some i ->
  exists pre m post, l = pre ++ m :: post /\ List.length pre = i /\ p m = true /\
                     forall x, In x pre -> p x = false.
Proof.
  revert i. induction l as [|x l IH]; intros i H; simpl in H; [discriminate|].
  destruct (p x) eqn:Hx.
  - injection H as <-. exists [], x, l. repeat split; auto. intros y [].
  - destruct (findIndex p l) as [j|] eqn:Hj; [|discriminate].
    injection H as <-. destruct (IH j eq_refl) as (pre & m & post & -> & Hl & Hm & Hpre).
    exists (x :: pre), m, post. repeat split; simpl; auto.
    intros y [<-|Hy]; auto.
Qed.

Lemma firstn_prefix {A : Type} (pre : list A) (rest : list A) :
  firstn (List.length pre) (pre ++ rest) = pre.
Proof.
  induction pre as [|x pre IH]; simpl; [now destruct rest|]. now rewrite IH.
Qed.

Lemma id_neq_eqb (a b : string) : a <> b -> (a =? b)%string = false.
Proof. intros H. now apply String.eqb_neq. Qed.

Lemma on_session_ids sessionId f ss :
  (forall s, sess_id (f s) = sess_id s) ->
  map sess_id (on_session sessionId f ss) = map sess_id ss.
Proof.
  intros Hf. unfold on_session. rewrite map_map. apply map_ext.
  intros s. destruct (negb _); [reflexivity|apply Hf].
Qed.

Lemma on_session_nth sessionId f ss i s :
  nth_error ss i = Some s ->
  nth_error (on_session sessionId f ss) i =
  Some (if (sess_id s =? sessionId)%string then f s else s).
Proof.
  intros H. unfold on_session. rewrite nth_error_map, H. simpl.
  now destruct (sess_id s =? sessionId)%string.
Qed.

Lemma on_session_preserves_others sessionId f ss :
  (forall s, sess_id (f s) = sess_id s) ->
  preserves_others sessionId ss (on_session sessionId f ss).
Proof.
  intros Hf. split; [now apply on_session_ids|].
  intros i s Hi Hne. rewrite (on_session_nth _ _ _ _ _ Hi).
  now rewrite (id_neq_eqb _ _ Hne).
Qed.

Lemma truncate_session_id messageId now s :
  sess_id (truncate_session messageId now s) = sess_id s.
Proof. unfold truncate_session. now destruct (findIndex _ _). Qed.

Lemma truncate_session_found messageId now s pre m post :
  sess_messages s = pre ++ m :: post -> msg_id m = messageId ->
  (forall x, In x pre -> msg_id x <> messageId) ->
  truncate_session messageId now s =
  set_messages s pre now (sess_title s).
Proof.
  intros Hs Hm Hpre. unfold truncate_session. rewrite Hs.
  rewrite findIndex_first.
  - now rewrite firstn_prefix.
  - now apply String.eqb_eq.
  - intros x Hx. apply id_neq_eqb. now apply Hpre.
Qed.

Lemma truncate_session_missing messageId now s :
  (forall m, In m (sess_messages s) -> msg_id m <> messageId) ->
  truncate_session messageId now s = s.
Proof.
  intros H. unfold truncate_session. rewrite findIndex_none; [reflexivity|].
  intros x Hx. apply id_neq_eqb. now apply H.
Qed.

(** With identifiers unique in the log, the entries before a match do
    not match. *)
Lemma unique_ids_first (pre : list ChatMessage) m post :
  NoDup (map msg_id (pre ++ m :: post)) ->
  forall x, In x pre -> msg_id x <> msg_id m.
Proof.
  intros Hnd x Hx Heq. rewrite map_app in Hnd. simpl in Hnd.
  apply NoDup_remove_2 in Hnd. apply Hnd. apply in_or_app. left.
  rewrite <- Heq. now apply in_map.
Qed.

(** C6. [deleteMessagesFrom] (the store's truncate-from): in the session
    the call names, when [messageId] matches an entry of the log (the
    first one that carries it, the only one when identifiers are unique
    in the log), the log becomes exactly the entries before it, in their
    order; when no entry matches, the session is unchanged. *)
Theorem deleteMessagesFrom_truncates :
  forall (sessionId messageId : string) (now : Z) (ss : list ChatSession)
         (k : nat) (s : ChatSession),
    nth_error ss k = Some s -> sess_id s = sessionId ->
    exists s',
      nth_error (deleteMessagesFrom sessionId messageId now ss) k = Some s' /\
      (forall pre m post,
          sess_messages s = pre ++ m :: post -> msg_id m = messageId ->
          (forall x, In x pre -> msg_id x <> messageId) ->
          sess_messages s' = pre) /\
      (NoDup (map msg_id (sess_messages s)) ->
       forall pre m post,
          sess_messages s = pre ++ m :: post -> msg_id m = messageId ->
          sess_messages s' = pre) /\
      ((forall m, In m (sess_messages s) -> msg_id m <> messageId) -> s' = s).
Proof.
  intros sessionId messageId now ss k s Hk Hid.
  exists (truncate_session messageId now s).
  assert (Hfirst : forall pre m post,
             sess_messages s = pre ++ m :: post -> msg_id m = messageId ->
             (forall x, In x pre -> msg_id x <> messageId) ->
             sess_messages (truncate_session messageId now s) = pre).
  { intros pre m post Hs Hm Hpre.
    now rewrite (truncate_session_found _ _ _ _ _ _ Hs Hm Hpre). }
  split; [|split; [exact Hfirst|split]].
  - unfold deleteMessagesFrom. rewrite (on_session_nth _ _ _ _ _ Hk).
    subst sessionId. now rewrite String.eqb_refl.
  - intros Hnd pre m post Hs Hm. apply (Hfirst pre m post Hs Hm).
    rewrite Hs in Hnd. subst messageId. now apply unique_ids_first with (post := post).
  - apply truncate_session_missing.
Qed.

(** The log A, B, C, D truncated from C is A, B. *)
Lemma deleteMessagesFrom_truncates_witness :
  exists s',
    nth_error (deleteMessagesFrom "s1" "C" 1700000000001 sample_store) 1 = Some s' /\
    map msg_id (sess_messages s') = ["A"; "B"].
Proof.
  destruct (deleteMessagesFrom_truncates "s1" "C" 1700000000001 sample_store 1
              sample_session eq_refl eq_refl) as (s' & Hs' & Hfirst & _ & _).
  exists s'. split; [exact Hs'|].
  rewrite (Hfirst [sample_message "A" user "hi"; sample_message "B" assistant "hello"]
                  (sample_message "C" user "more")
                  [sample_message "D" assistant "sure"] eq_refl eq_refl).
  - reflexivity.
  - intros x [<-|[<-|[]]]; discriminate.
Defined.

Lemma mutations_frame_deleteMessagesFrom (sessionId messageId : string) (now : Z)
    (ss : list ChatSession) :
  preserves_others sessionId ss (deleteMessagesFrom sessionId messageId now ss).
Proof. apply on_session_preserves_others. apply truncate_session_id. Qed.

(** C10. [addMessage], [updateMessage], [deleteMessage] and
    [deleteMessagesFrom] leave every session whose id differs from the
    given [sessionId] unchanged in every field, and keep the collection's
    sessions: none is added, none removed. *)
Theorem mutations_preserve_other_sessions :
  forall (sessionId messageId : string) (message : ChatMessage)
         (update : MessageUpdate) (now : Z) (ss : list ChatSession),
    preserves_others sessionId ss (addMessage sessionId message now ss) /\
    preserves_others sessionId ss (updateMessage sessionId messageId update now ss) /\
    preserves_others sessionId ss (deleteMessage sessionId messageId now ss) /\
    preserves_others sessionId ss (deleteMessagesFrom sessionId messageId now ss).
Proof.
  intros. repeat split;
    try (apply on_session_ids; intros; try apply truncate_session_id; reflexivity);
    intros i s Hi Hne;
    match goal with
    | |- nth_error (?op) i = _ =>
        unfold addMessage, updateMessage, deleteMessage, deleteMessagesFrom;
        rewrite (on_session_nth _ _ _ _ _ Hi); now rewrite (id_neq_eqb _ _ Hne)
    end.
Qed.

End StoreFacts.

(** ** The tokenizer *)

Module TokenizerFacts.

Import Tokenizer.

Local Open Scope Z_scope.

(** The ceiling of a fraction is the least integer not below it. *)
Lemma Qceiling_fraction (n : Z) (d : positive) :
  n <= Qceiling (n # d) * Z.pos d < n + Z.pos d.
Proof.
  unfold Qceiling, Qfloor, Qopp. cbn [Qnum Qden].
  pose proof (Z.div_mod (- n) (Z.pos d) ltac:(lia)) as H.
  pose proof (Z.mod_pos_bound (- n) (Z.pos d) ltac:(lia)) as B.
  nia.
Qed.

Lemma estimate_fraction (text : string) :
  estimate text =
  Qceiling ((13 * Z.of_nat (List.length (words text))
             + 5 * Z.of_nat (specialChars text)) # 10).
Proof.
  unfold estimate, wordTokens. apply Qceiling_comp.
  unfold Qeq, Qplus, Qmult, inject_Z. cbn [Qnum Qden]. lia.
Qed.

Lemma charEstimate_fraction (text : string) :
  charEstimate text = Qceiling (Z.of_nat (String.length text) # 4).
Proof.
  unfold charEstimate. apply Qceiling_comp.
  unfold Qeq, Qdiv, Qmult, Qinv, inject_Z. cbn [Qnum Qden]. lia.
Qed.

Lemma nonempty_iff (text : string) : nonempty text = true <-> text <> "".
Proof. destruct text; simpl; split; congruence. Qed.

End TokenizerFacts.

(** ** The tokenizer on code units *)

Module Tokenizer16Facts.

Import Tokenizer16.

Lemma nonempty_snoc (cur : list N) (c : N) : has_units (cur ++ [c]) = true.
Proof. now destruct cur. Qed.

(** The pieces that are not empty, counted by their first code units. *)
Lemma split_ws_starts (text cur : list N) (in_sep : bool) :
  (in_sep = true -> cur = []) ->
  List.length (filter has_units (split_ws text cur in_sep)) =
  ((if has_units cur then 1 else 0) + word_starts (negb (has_units cur)) text)%nat.
Proof.
  revert cur in_sep. induction text as [|c t IH]; intros cur in_sep Hsep.
  - cbn. destruct (has_units cur); reflexivity.
  - cbn [split_ws word_starts]. destruct (is_white_space c) eqn:Hc.
    + rewrite Bool.andb_false_r. destruct in_sep.
      * rewrite (Hsep eq_refl). cbn [has_units negb]. rewrite IH by auto. reflexivity.
      * cbn [filter]. destruct (has_units cur); cbn [List.length negb];
          rewrite IH by auto; reflexivity.
    + rewrite IH by discriminate. rewrite nonempty_snoc. cbn [negb].
      destruct (has_units cur); cbn [negb andb]; lia.
Qed.

Lemma words_count (text : list N) : List.length (words text) = word_count text.
Proof. unfold words, word_count. now rewrite split_ws_starts. Qed.

Lemma specialChars_count (text : list N) : specialChars text = special_count text.
Proof.
  unfold special_count. induction text as [|c t IH]; [reflexivity|].
  cbn [specialChars filter]. rewrite IH.
  destruct (is_alphanumeric c), (is_white_space c); reflexivity.
Qed.

(** *** Texts laid out as words and white space *)

Lemma split_ws_spaces (sp cur : list N) (in_sep : bool) :
  forallb is_white_space sp = true -> (in_sep = true -> cur = []) ->
  filter has_units (split_ws sp cur in_sep) = filter has_units [cur].
Proof.
  revert cur in_sep. induction sp as [|c sp IH]; intros cur in_sep Hsp Hsep;
    [reflexivity|].
  cbn [forallb] in Hsp. apply Bool.andb_true_iff in Hsp. destruct Hsp as [Hc Hsp].
  cbn [split_ws]. rewrite Hc. destruct in_sep.
  - rewrite (Hsep eq_refl). now rewrite IH.
  - cbn [filter]. rewrite IH by auto. cbn [filter has_units].
    now destruct (has_units cur).
Qed.

Lemma split_ws_after_spaces (sp rest cur : list N) (in_sep : bool) :
  forallb is_white_space sp = true -> sp <> [] -> (in_sep = true -> cur = []) ->
  filter has_units (split_ws (sp ++ rest) cur in_sep) =
  filter has_units [cur] ++ filter has_units (split_ws rest [] true).
Proof.
  revert cur in_sep. induction sp as [|c sp IH]; intros cur in_sep Hsp Hne Hsep;
    [congruence|].
  cbn [forallb] in Hsp. apply Bool.andb_true_iff in Hsp. destruct Hsp as [Hc Hsp].
  cbn [app split_ws]. rewrite Hc.
  assert (Hrest : filter has_units (split_ws (sp ++ rest) [] true) =
                  filter has_units (split_ws rest [] true)).
  { destruct sp as [|c' sp']; [reflexivity|].
    rewrite IH by (auto; discriminate). reflexivity. }
  destruct in_sep.
  - rewrite (Hsep eq_refl). now rewrite Hrest.
  - cbn [filter]. rewrite Hrest. cbn [filter has_units].
    now destruct (has_units cur).
Qed.

Lemma split_ws_word (w rest cur : list N) (in_sep : bool) :
  forallb (fun c => negb (is_white_space c)) w = true -> w <> [] ->
  split_ws (w ++ rest) cur in_sep = split_ws rest (cur ++ w) false.
Proof.
  revert cur in_sep. induction w as [|c w IH]; intros cur in_sep Hw Hne; [congruence|].
  cbn [forallb] in Hw. apply Bool.andb_true_iff in Hw. destruct Hw as [Hc Hw].
  apply Bool.negb_true_iff in Hc. cbn [app split_ws]. rewrite Hc.
  destruct w as [|c' w'].
  - reflexivity.
  - rewrite IH by (auto; discriminate). now rewrite <- app_assoc.
Qed.

Lemma split_ws_laid_out (pieces : list (list N * list N)) :
  forall (lead cur : list N) (in_sep : bool),
    proper_layout pieces -> forallb is_white_space lead = true ->
    (in_sep = true -> cur = []) ->
    (cur <> [] -> pieces <> [] -> lead <> []) ->
    filter has_units (split_ws (laid_out lead pieces) cur in_sep) =
    filter has_units [cur] ++ map fst pieces.
Proof.
  induction pieces as [|[w sep] rest IH]; intros lead cur in_sep Hp Hlead Hsep Hcur.
  - cbn [laid_out map]. rewrite app_nil_r. now apply split_ws_spaces.
  - cbn [proper_layout] in Hp. destruct Hp as (Hw & Hnw & Hs & Hrs & Hrest).
    cbn [laid_out map fst].
    assert (Hword : forall b,
               filter has_units (split_ws (w ++ laid_out sep rest) [] b) =
               w :: map fst rest).
    { intros b. rewrite split_ws_word by assumption. cbn [app].
      rewrite IH; auto; try discriminate.
      cbn [filter]. destruct w; [congruence|reflexivity]. }
    destruct lead as [|c lead].
    + assert (cur = []) as ->.
      { destruct cur; [reflexivity|]. exfalso.
        now apply (Hcur ltac:(discriminate) ltac:(discriminate)). }
      cbn [app filter has_units]. apply Hword.
    + rewrite split_ws_after_spaces by (auto; discriminate).
      now rewrite Hword.
Qed.

Lemma words_laid_out (lead : list N) (pieces : list (list N * list N)) :
  proper_layout pieces -> forallb is_white_space lead = true ->
  words (laid_out lead pieces) = map fst pieces.
Proof.
  intros Hp Hlead. unfold words.
  apply (split_ws_laid_out pieces lead [] false Hp Hlead); [discriminate|congruence].
Qed.

(** Every text is laid out so. *)
Lemma layout_exists (text : list N) :
  exists lead pieces,
    text = laid_out lead pieces /\ forallb is_white_space lead = true /\
    proper_layout pieces.
Proof.
  induction text as [|c t (lead & pieces & -> & Hlead & Hp)].
  - exists [], []. repeat split.
  - destruct (is_white_space c) eqn:Hc.
    + exists (c :: lead), pieces. split; [|split; [|exact Hp]].
      * destruct pieces as [|[w sep] rest]; reflexivity.
      * cbn [forallb]. now rewrite Hc.
    + assert (Hone : forallb (fun x => negb (is_white_space x)) [c] = true)
        by (cbn; now rewrite Hc).
      destruct lead as [|l lead].
      * destruct pieces as [|[w sep] rest].
        -- exists [], [([c], [])]. split; [reflexivity|]. split; [reflexivity|].
           cbn [proper_layout]. repeat split; auto; congruence.
        -- exists [], ((c :: w, sep) :: rest). cbn [proper_layout] in *.
           destruct Hp as (Hw & Hnw & Hs & Hrs & Hrest).
           split; [reflexivity|]. split; [reflexivity|].
           repeat split; auto; try discriminate.
           cbn [forallb]. now rewrite Hc.
      * exists [], (([c], l :: lead) :: pieces).
        split; [reflexivity|]. split; [reflexivity|].
        cbn [proper_layout]. repeat split; auto; discriminate.
Qed.

(** *** The strings with code units below 256 *)

Lemma is_space_units (c : ascii) : is_white_space (N_of_ascii c) = is_space c.
Proof. destruct c as [[] [] [] [] [] [] [] []]; reflexivity. Qed.

Lemma is_alnum_units (c : ascii) : is_alphanumeric (N_of_ascii c) = is_alnum c.
Proof. destruct c as [[] [] [] [] [] [] [] []]; reflexivity. Qed.

Lemma units_snoc (cur : string) (c : ascii) :
  units (cur ++ String c "") = units cur ++ [N_of_ascii c].
Proof.
  unfold units. induction cur as [|x cur IH]; [reflexivity|].
  cbn [append list_ascii_of_string map app]. now rewrite IH.
Qed.

Lemma nonempty_units (s : string) : has_units (units s) = nonempty s.
Proof. now destruct s. Qed.

Lemma split_ws_units (s cur : string) (in_sep : bool) :
  map units (Tokenizer.split_ws s cur in_sep) = split_ws (units s) (units cur) in_sep.
Proof.
  revert cur in_sep. induction s as [|c s IH]; intros cur in_sep; [reflexivity|].
  cbn [Tokenizer.split_ws]. change (units (String c s)) with (N_of_ascii c :: units s).
  cbn [split_ws]. rewrite is_space_units. destruct (is_space c).
  - destruct in_sep; cbn [map]; now rewrite IH.
  - now rewrite IH, units_snoc.
Qed.

Lemma words_units (s : string) :
  List.length (Tokenizer.words s) = List.length (words (units s)).
Proof.
  unfold Tokenizer.words, words.
  change (@nil N) with (units ""). rewrite <- split_ws_units.
  induction (Tokenizer.split_ws s "" false) as [|w l IH]; [reflexivity|].
  cbn [filter map]. rewrite nonempty_units.
  destruct (nonempty w); cbn [List.length]; now rewrite IH.
Qed.

Lemma specialChars_units (s : string) :
  Tokenizer.specialChars s = specialChars (units s).
Proof.
  induction s as [|c s IH]; [reflexivity|].
  cbn [Tokenizer.specialChars]. change (units (String c s)) with (N_of_ascii c :: units s).
  cbn [specialChars]. now rewrite is_space_units, is_alnum_units, IH.
Qed.

Lemma length_units (s : string) : List.length (units s) = String.length s.
Proof.
  unfold units. rewrite length_map. induction s as [|c s IH]; [reflexivity|].
  cbn. now rewrite IH.
Qed.

Lemma estimateTokens_units (s : string) :
  Tokenizer.estimateTokens s = estimateTokens (units s).
Proof.
  unfold Tokenizer.estimateTokens, estimateTokens.
  rewrite nonempty_units.
  unfold Tokenizer.estimate, estimate, Tokenizer.wordTokens, wordTokens,
    Tokenizer.charEstimate, charEstimate.
  now rewrite words_units, specialChars_units, length_units.
Qed.

Local Open Scope Z_scope.

Lemma estimate_fraction16 (text : list N) :
  estimate text =
  Qceiling ((13 * Z.of_nat (word_count text) + 5 * Z.of_nat (special_count text)) # 10).
Proof.
  unfold estimate, wordTokens. rewrite words_count, specialChars_count.
  apply Qceiling_comp.
  unfold Qeq, Qplus, Qmult, inject_Z. cbn [Qnum Qden]. lia.
Qed.

Lemma charEstimate_fraction16 (text : list N) :
  charEstimate text = Qceiling (Z.of_nat (List.length text) # 4).
Proof.
  unfold charEstimate. apply Qceiling_comp.
  unfold Qeq, Qdiv, Qmult, Qinv, inject_Z. cbn [Qnum Qden]. lia.
Qed.

Lemma is_alnum_class (c : N) :
  is_alphanumeric c = true <->
  (48 <= c <= 57 \/ 65 <= c <= 90 \/ 97 <= c <= 122)%N.
Proof.
  unfold is_alphanumeric.
  rewrite !Bool.orb_true_iff, !Bool.andb_true_iff, !N.leb_le. tauto.
Qed.

Lemma is_space_class (c : N) :
  is_white_space c = true <->
  (9 <= c <= 13 \/ c = 32 \/ c = 160 \/ c = 5760 \/ 8192 <= c <= 8202 \/
   c = 8232 \/ c = 8233 \/ c = 8239 \/ c = 8287 \/ c = 12288 \/ c = 65279)%N.
Proof.
  unfold is_white_space.
  rewrite !Bool.orb_true_iff, !Bool.andb_true_iff, !N.leb_le, !N.eqb_eq. tauto.
Qed.

(** C8.  [estimateTokens] is 0 on the empty string.  On a non-empty
    text it is the greater of the word-weighted estimate and of the
    character estimate, floored at 1: the word-weighted estimate is the
    least integer not below [1.3 * words + 0.5 * specials], the
    character estimate the least integer not below [length / 4], so the
    result is at least 1 and at least each of the two.  Here [words] is
    the number of maximal runs of code units that are not white space,
    and [specials] the number of code units that are neither in
    [a-zA-Z0-9] nor white space: what the code counts by [split],
    [filter] and [match] are these numbers; on a text laid out as words
    and the white space between them the words found are those words;
    and every text has such a layout.  White space is the class [\s] of
    the language.  A text is a sequence of 16-bit code units; on the
    strings of code units below 256, [Tokenizer.estimateTokens] is the
    same function.  The result depends on the text alone: the code reads
    nothing else. *)
Theorem estimateTokens_bounds :
  estimateTokens [] = 0 /\
  (forall text : list N, text <> [] ->
     let w := Z.of_nat (word_count text) in
     let sp := Z.of_nat (special_count text) in
     let len := Z.of_nat (List.length text) in
     exists wordEstimate charEstimate : Z,
       13 * w + 5 * sp <= 10 * wordEstimate < 13 * w + 5 * sp + 10 /\
       len <= 4 * charEstimate < len + 4 /\
       estimateTokens text = Z.max (Z.max wordEstimate charEstimate) 1 /\
       1 <= estimateTokens text /\
       charEstimate <= estimateTokens text /\
       wordEstimate <= estimateTokens text) /\
  (forall text : list N,
     List.length (words text) = word_count text /\
     specialChars text = special_count text) /\
  (forall (lead : list N) (pieces : list (list N * list N)),
     proper_layout pieces -> forallb is_white_space lead = true ->
     words (laid_out lead pieces) = map fst pieces /\
     word_count (laid_out lead pieces) = List.length pieces) /\
  (forall text : list N,
     exists lead pieces, text = laid_out lead pieces /\
                         forallb is_white_space lead = true /\ proper_layout pieces) /\
  (forall c : N,
     (is_white_space c = true <->
      (9 <= c <= 13 \/ c = 32 \/ c = 160 \/ c = 5760 \/ 8192 <= c <= 8202 \/
       c = 8232 \/ c = 8233 \/ c = 8239 \/ c = 8287 \/ c = 12288 \/ c = 65279)%N) /\
     (is_alphanumeric c = true <->
      (48 <= c <= 57 \/ 65 <= c <= 90 \/ 97 <= c <= 122)%N)) /\
  (forall s : string, Tokenizer.estimateTokens s = estimateTokens (units s)).
Proof.
  split; [reflexivity|]. split; [|split; [|split; [|split; [|split]]]].
  - intros text Hne w sp len.
    exists (estimate text), (charEstimate text).
    assert (Hdef : estimateTokens text = Z.max (Z.max (estimate text) (charEstimate text)) 1).
    { unfold estimateTokens. destruct text; [congruence|reflexivity]. }
    split; [|split; [|split; [exact Hdef|]]].
    + rewrite estimate_fraction16. fold w sp.
      pose proof (TokenizerFacts.Qceiling_fraction (13 * w + 5 * sp) 10). lia.
    + rewrite charEstimate_fraction16. fold len.
      pose proof (TokenizerFacts.Qceiling_fraction len 4). lia.
    + rewrite Hdef. lia.
  - intros text. split; [apply words_count|apply specialChars_count].
  - intros lead pieces Hp Hlead.
    pose proof (words_laid_out lead pieces Hp Hlead) as Hw.
    split; [exact Hw|]. now rewrite <- words_count, Hw, length_map.
  - apply layout_exists.
  - intros c. split; [apply is_space_class|apply is_alnum_class].
  - apply estimateTokens_units.
Qed.

(** Ten words of one letter: [ceil(10 * 1.3) = 13] tokens, where the
    nineteen characters alone give [ceil(19 / 4) = 5].  Three words with
    three special characters between a tab and a line feed:
    [ceil(3.9 + 1.5) = 6].  Two words of ideographs: [ceil(2.6 + 2) = 5]. *)
Lemma estimateTokens_bounds_witness :
  Tokenizer.estimateTokens ten_words = 13 /\
  estimateTokens punctuated = 6 /\
  estimateTokens ideographs = 5.
Proof.
  destruct estimateTokens_bounds as (_ & H & _ & _ & _ & _ & Hunits).
  split; [|split].
  - rewrite Hunits.
    destruct (H (units ten_words) ltac:(discriminate)) as (e & c & He & Hc & Heq & _).
    replace (word_count (units ten_words)) with 10%nat in He by (vm_compute; reflexivity).
    replace (special_count (units ten_words)) with 0%nat in He
      by (vm_compute; reflexivity).
    replace (List.length (units ten_words)) with 19%nat in Hc
      by (vm_compute; reflexivity).
    lia.
  - destruct (H punctuated ltac:(discriminate)) as (e & c & He & Hc & Heq & _).
    replace (word_count punctuated) with 3%nat in He by (vm_compute; reflexivity).
    replace (special_count punctuated) with 3%nat in He by (vm_compute; reflexivity).
    replace (List.length punctuated) with 8%nat in Hc by (vm_compute; reflexivity).
    lia.
  - destruct (H ideographs ltac:(discriminate)) as (e & c & He & Hc & Heq & _).
    replace (word_count ideographs) with 2%nat in He by (vm_compute; reflexivity).
    replace (special_count ideographs) with 4%nat in He by (vm_compute; reflexivity).
    replace (List.length ideographs) with 5%nat in Hc by (vm_compute; reflexivity).
    lia.
Defined.

End Tokenizer16Facts.

(** ** Pollen math *)

Module PollenMathFacts.

Import PollenMath PollenSpec.

#[local] Set Warnings "-inexact-float".
Local Open Scope float_scope.

(** The condition [if (rate)] of the code holds exactly of the rates
    that apply. *)
Lemma truthy_applies (rate : option float) : truthy rate = applies rate.
Proof.
  destruct rate as [r|]; [|reflexivity].
  unfold truthy, applies, is_zero, is_nan, zero.
  destruct (r =? 0); [reflexivity|]. cbn [orb]. now destruct (r =? r).
Qed.

(** [Math.max(cost, MIN_POLLEN_PER_PROMPT)] is the greater of the two. *)
Lemma Math_max_at_least (cost : float) :
  Math_max cost MIN_POLLEN_PER_PROMPT = at_least 0.00004 cost.
Proof.
  unfold Math_max, at_least, is_nan.
  change (MIN_POLLEN_PER_PROMPT =? MIN_POLLEN_PER_PROMPT) with true.
  change (is_pos_zero MIN_POLLEN_PER_PROMPT) with false.
  destruct (cost =? cost); reflexivity.
Qed.

Lemma computePollenCost_is_spec_cost (p : Pricing) (inputTokens outputTokens : float) :
  computePollenCost (Some p) inputTokens outputTokens =
  spec_cost p inputTokens outputTokens.
Proof.
  unfold computePollenCost. rewrite Math_max_at_least. rewrite !truthy_applies.
  unfold spec_cost, outputCost, first_applicable, inputCost, plus_rate.
  destruct (applies (promptTextTokens p)), (applies (promptAudioTokens p));
    destruct (applies (completionTextTokens p)); try reflexivity;
    destruct (applies (completionImageTokens p)); try reflexivity;
    destruct (applies (completionVideoSeconds p)); try reflexivity;
    destruct (applies (completionVideoTokens p)); try reflexivity;
    destruct (applies (completionAudioTokens p)); try reflexivity;
    destruct (applies (completionAudioSeconds p)); reflexivity.
Qed.

Lemma at_least_not_below (cost : float) : (at_least 0.00004 cost <? 0.00004) = false.
Proof.
  unfold at_least. destruct (cost =? cost); [|reflexivity].
  destruct (cost <? 0.00004) eqn:E; [reflexivity|exact E].
Qed.

(** In the order of the format, what is a number and is not below
    [m] is at or above it. *)
Lemma SFcompare_total (c m : spec_float) :
  SFeqb c c = true -> SFltb c m = false -> SFeqb m m = true -> SFleb m c = true.
Proof.
  unfold SFeqb, SFltb, SFleb.
  destruct c as [sc|sc| |sc mc ec], m as [sm|sm| |sm mm em];
    cbn [SFcompare]; try discriminate; try reflexivity;
    repeat match goal with s : bool |- _ => destruct s end;
    try discriminate; try reflexivity;
    change PosDef.Pos.compare_cont with Pos.compare_cont;
    intros _; rewrite (Z.compare_antisym ec em);
    destruct (Z.compare_spec ec em); cbn [CompOpp]; try discriminate; try reflexivity;
    change (Pos.compare_cont Eq mc mm) with (Pos.compare mc mm);
    change (Pos.compare_cont Eq mm mc) with (Pos.compare mm mc);
    rewrite (Pos.compare_antisym mc mm);
    destruct (Pos.compare mc mm); cbn [CompOpp]; try discriminate; try reflexivity.
Qed.

Lemma not_below_at_least (cost : float) :
  (cost =? cost) = true -> (cost <? 0.00004) = false -> (0.00004 <=? cost) = true.
Proof.
  intros H Hlt.
  rewrite eqb_spec in H. rewrite ltb_spec in Hlt. rewrite leb_spec.
  apply SFcompare_total; auto.
Qed.

Lemma computePollenCost_not_below (pricing : option Pricing)
    (inputTokens outputTokens : float) :
  (computePollenCost pricing inputTokens outputTokens <? 0.00004) = false.
Proof.
  destruct pricing as [p|]; [|reflexivity].
  rewrite computePollenCost_is_spec_cost. apply at_least_not_below.
Qed.

(** C7. [MIN_POLLEN_PER_PROMPT] is [0.00004], which is [1 / 25000], and
    [computePollenCost] returns exactly that when there is no pricing.
    Otherwise it returns the greater of the minimum and of the input
    cost plus the output cost: the input cost is the text input rate
    times the input tokens plus the audio input rate times the input
    tokens, each term when its rate applies; the output cost is that of
    the first output field that applies, in the order text per token,
    image (flat), video per second (times 5), video per token, audio per
    token, audio per second (times 10).  A rate applies when the field
    is there and is a number other than zero, which is what [if (rate)]
    tests: a text rate of zero leaves the image price to be charged.
    The result is never below [0.00004]: the comparison
    [result < 0.00004] is false for every input, and [0.00004 <= result]
    is true whenever the result is a number.  On the cases of the test suite and on one case for each
    output field the cost is the number computed by hand: rates [0.001]
    and [0.002] at 500 and 200 tokens cost [0.5 + 0.4], rates [1] and
    [2] cost [900], an image at [0.05] after 100 input tokens at [0.001]
    costs [0.1 + 0.05] whatever the output tokens, rates of zero cost the
    minimum, and a field is charged only when no field before it
    applies. *)
Theorem computePollenCost_spec :
  MIN_POLLEN_PER_PROMPT = 0.00004 /\
  1 / 25000 = 0.00004 /\
  (forall inputTokens outputTokens : float,
      computePollenCost None inputTokens outputTokens = 0.00004) /\
  (forall (p : Pricing) (inputTokens outputTokens : float),
      computePollenCost (Some p) inputTokens outputTokens =
      at_least 0.00004
        (match outputCost p outputTokens with
         | Some outputCost => inputCost p inputTokens + outputCost
         | None => inputCost p inputTokens
         end)) /\
  (forall (pricing : option Pricing) (inputTokens outputTokens : float),
      (computePollenCost pricing inputTokens outputTokens <? 0.00004) = false) /\
  (forall (pricing : option Pricing) (inputTokens outputTokens : float),
      (computePollenCost pricing inputTokens outputTokens
       =? computePollenCost pricing inputTokens outputTokens) = true ->
      (0.00004 <=? computePollenCost pricing inputTokens outputTokens) = true) /\
  computePollenCost (Some (text_pricing 0.001 0.002)) 500 200 = 0.5 + 0.4 /\
  computePollenCost (Some (text_pricing 1 2)) 500 200 = 900 /\
  computePollenCost (Some (image_pricing 0.001 0.05)) 100 1 = 0.1 + 0.05 /\
  computePollenCost (Some (image_pricing 0.001 0.05)) 100 500 = 0.1 + 0.05 /\
  computePollenCost (Some (text_pricing 0 0)) 10 5 = 0.00004 /\
  computePollenCost (Some no_pricing) 100 500 = 0.00004 /\
  computePollenCost
    (Some (mkPricing (Some 1) (Some 2) None None None None None None)) 100 500 = 300 /\
  computePollenCost
    (Some (mkPricing None None (Some 2) (Some 3) (Some 4) (Some 5) (Some 6) (Some 7)))
    100 50 = 100 /\
  computePollenCost
    (Some (mkPricing None None (Some 0) (Some 3) (Some 4) (Some 5) (Some 6) (Some 7)))
    100 50 = 3 /\
  computePollenCost
    (Some (mkPricing None None None None (Some 4) (Some 5) (Some 6) (Some 7)))
    100 50 = 20 /\
  computePollenCost
    (Some (mkPricing None None None None None (Some 5) (Some 6) (Some 7)))
    100 50 = 250 /\
  computePollenCost
    (Some (mkPricing None None None None None None (Some 6) (Some 7)))
    100 50 = 350 /\
  computePollenCost
    (Some (mkPricing None None None None None None (Some 6) None))
    100 50 = 60.
Proof.
  split; [reflexivity|]. split; [reflexivity|]. split; [reflexivity|].
  split; [|split; [|split]].
  - intros. apply computePollenCost_is_spec_cost.
  - apply computePollenCost_not_below.
  - intros pricing inputTokens outputTokens H.
    apply not_below_at_least; [exact H|apply computePollenCost_not_below].
  - repeat split; reflexivity.
Qed.

(** The case of the test suite: the cost at 500 and 200 tokens is a
    number, so it is at or above the minimum. *)
Lemma computePollenCost_spec_witness :
  (0.00004 <=? computePollenCost (Some (text_pricing 0.001 0.002)) 500 200) = true.
Proof.
  destruct computePollenCost_spec as (_ & _ & _ & _ & _ & H & _).
  apply H. reflexivity.
Defined.

End PollenMathFacts.

(** ** The generation client *)

Module PollinationsFacts.

Import Pollinations.

Lemma split_nl_nonempty (s : string) : split_nl s <> [].
Proof.
  destruct s as [|c t]; simpl; [discriminate|].
  destruct (Ascii.eqb c LF); [discriminate|].
  unfold cons_first. destruct (split_nl t); discriminate.
Qed.

Lemma last_cons_first c pieces d :
  pieces <> [] ->
  last (cons_first c pieces) d =
  match pieces with [h] => String c h | _ => last pieces d end.
Proof. destruct pieces as [|h [|h' r]]; intros H; [congruence|reflexivity|reflexivity]. Qed.

Lemma removelast_cons_first c pieces :
  removelast (cons_first c pieces) =
  match pieces with
  | [] => []
  | [h] => []
  | h :: r => String c h :: removelast r
  end.
Proof. destruct pieces as [|h [|h' r]]; reflexivity. Qed.

(** Splitting a text cut in two: the whole lines of the first part,
    then the split of its unfinished line continued by the second. *)
Lemma split_nl_app (s1 s2 : string) :
  split_nl (s1 ++ s2) =
  removelast (split_nl s1) ++ split_nl (last (split_nl s1) "" ++ s2).
Proof.
  induction s1 as [|c t IH]; [reflexivity|].
  cbn [append split_nl]. destruct (Ascii.eqb c LF) eqn:E.
  - rewrite IH. pose proof (split_nl_nonempty t) as Hne.
    destruct (split_nl t) as [|h r]; [congruence|]. reflexivity.
  - rewrite IH. pose proof (split_nl_nonempty t) as Hne.
    destruct (split_nl t) as [|h [|h' r]]; [congruence| |].
    + cbn [removelast last app cons_first append split_nl]. now rewrite E.
    + reflexivity.
Qed.

Lemma split_nl_last_whole (s : string) :
  split_nl (last (split_nl s) "") = [last (split_nl s) ""].
Proof.
  induction s as [|c t IH]; [reflexivity|].
  cbn [split_nl]. pose proof (split_nl_nonempty t) as Hne.
  destruct (Ascii.eqb c LF) eqn:E.
  - destruct (split_nl t) as [|h r]; [congruence|]. exact IH.
  - destruct (split_nl t) as [|h [|h' r]]; [congruence| |exact IH].
    cbn [cons_first last] in *. cbn [split_nl]. rewrite E, IH. reflexivity.
Qed.

Lemma complete_lines_app (s1 s2 : string) :
  complete_lines (s1 ++ s2) =
  complete_lines s1 ++ complete_lines (last (split_nl s1) "" ++ s2).
Proof.
  unfold complete_lines. rewrite split_nl_app.
  apply removelast_app, split_nl_nonempty.
Qed.

Section StreamFacts.

Variable JSON_parse : string -> option StreamDelta.

Local Abbreviation process_lines := (process_lines JSON_parse).
Local Abbreviation read_loop := (read_loop JSON_parse).
Local Abbreviation frames := (frames JSON_parse).
Local Abbreviation frame_of_line := (frame_of_line JSON_parse).

(** A blank line or a comment is neither the marker nor a frame. *)
Lemma skipped_line (trimmed : string) :
  (negb (nonempty trimmed) || (trimmed =? ":")%string)%bool = true ->
  (trimmed =? "data: [DONE]")%string = false /\ startsWith "data: " trimmed = false.
Proof.
  intros H. apply Bool.orb_true_iff in H. destruct H as [H|H].
  - destruct trimmed; [split; reflexivity|discriminate].
  - apply String.eqb_eq in H. subst. split; reflexivity.
Qed.

Lemma observe_cons (st : Last) (f : StreamDelta) (fs : list StreamDelta) :
  observe st (f :: fs) =
  observe (mkLast (or_keep (delta_usage f) (lastUsage st))
                  (or_keep (truthy_string (delta_user_tier f)) (lastTier st))) fs.
Proof. reflexivity. Qed.

(** The loop over the lines of one read, in closed form. *)
Lemma process_lines_closed (lines : list string) (st : Last) :
  process_lines lines st =
  let fs := frames (before_done lines) in
  let st' := observe st fs in
  if has_done lines
  then (map OnChunk (deltas fs) ++ [OnDone (lastUsage st') (lastTier st')], None)
  else (map OnChunk (deltas fs), Some st').
Proof.
  revert st. induction lines as [|line rest IH]; intros st; [reflexivity|].
  cbn [Pollinations.process_lines before_done has_done existsb].
  fold (has_done rest). unfold is_done_line.
  destruct (negb (nonempty (trim line)) || (trim line =? ":")%string)%bool eqn:Hskip.
  - destruct (skipped_line _ Hskip) as [Hd Hp]. rewrite Hd.
    cbn [Pollinations.frames orb]. unfold Pollinations.frame_of_line. rewrite Hp.
    apply IH.
  - destruct (trim line =? "data: [DONE]")%string eqn:Hd; [reflexivity|].
    cbn [Pollinations.frames orb]. unfold Pollinations.frame_of_line.
    destruct (startsWith "data: " (trim line)); [|apply IH].
    destruct (JSON_parse (str_drop 6 (trim line))) as [json|]; [|apply IH].
    cbn [deltas]. rewrite observe_cons.
    destruct (truthy_string (delta_content json)) as [delta|]; rewrite IH; cbv zeta;
      destruct (has_done rest); reflexivity.
Qed.

Lemma before_done_app (l1 l2 : list string) :
  before_done (l1 ++ l2) =
  if has_done l1 then before_done l1 else l1 ++ before_done l2.
Proof.
  induction l1 as [|x l1 IH]; [reflexivity|].
  cbn [app before_done has_done existsb]. fold (has_done l1).
  destruct (is_done_line x); [reflexivity|]. cbn [orb]. rewrite IH.
  now destruct (has_done l1).
Qed.

Lemma before_done_clean (l : list string) :
  has_done l = false -> before_done l = l.
Proof.
  induction l as [|x l IH]; [reflexivity|].
  cbn [has_done existsb before_done]. fold (has_done l).
  destruct (is_done_line x); [discriminate|]. cbn [orb]. intros H. now rewrite IH.
Qed.

Lemma frames_app (l1 l2 : list string) :
  frames (l1 ++ l2) = frames l1 ++ frames l2.
Proof.
  induction l1 as [|x l1 IH]; [reflexivity|].
  cbn [app Pollinations.frames]. destruct (frame_of_line x); now rewrite IH.
Qed.

Lemma deltas_app (f1 f2 : list StreamDelta) :
  deltas (f1 ++ f2) = deltas f1 ++ deltas f2.
Proof.
  induction f1 as [|x f1 IH]; [reflexivity|].
  cbn [app deltas]. destruct (truthy_string (delta_content x)); now rewrite IH.
Qed.

Lemma observe_app (st : Last) (f1 f2 : list StreamDelta) :
  observe st (f1 ++ f2) = observe (observe st f1) f2.
Proof. unfold observe. apply fold_left_app. Qed.

(** The loop over the reads, in closed form, for a buffer that holds
    no line feed: the callbacks are those of the whole lines received,
    up to the marker, and one [onDone]. *)
Lemma read_loop_closed (reads : list string) (buffer : string) (st : Last) :
  split_nl buffer = [buffer] ->
  read_loop reads EndOfStream buffer st =
  let fs := frames (before_done (complete_lines (buffer ++ received reads))) in
  let st' := observe st fs in
  (map OnChunk (deltas fs) ++ [OnDone (lastUsage st') (lastTier st')], None).
Proof.
  revert buffer st. induction reads as [|value rest IH]; intros buffer st Hbuf.
  - cbn [Pollinations.read_loop received]. unfold complete_lines.
    replace (buffer ++ "")%string with buffer.
    + rewrite Hbuf. reflexivity.
    + clear. induction buffer as [|c b IHb]; [reflexivity|]. simpl. now rewrite <- IHb.
  - cbn [Pollinations.read_loop received].
    replace (buffer ++ value ++ received rest)%string
      with ((buffer ++ value) ++ received rest)%string.
    2:{ clear. induction buffer as [|c b IHb]; [reflexivity|]. simpl. now rewrite IHb. }
    rewrite complete_lines_app. fold (complete_lines (buffer ++ value)).
    set (lines := complete_lines (buffer ++ value)).
    set (buffer' := last (split_nl (buffer ++ value)) "").
    rewrite process_lines_closed. cbv zeta.
    rewrite before_done_app.
    destruct (has_done lines) eqn:Hdone; [reflexivity|].
    rewrite IH by apply split_nl_last_whole. cbv zeta.
    rewrite (before_done_clean _ Hdone).
    rewrite frames_app, deltas_app, observe_app, map_app, app_assoc.
    reflexivity.
Qed.

Lemma malformed_line_skipped (l1 l2 : list string) (bad : string) :
  is_done_line bad = false -> frame_of_line bad = None ->
  frames (before_done (l1 ++ bad :: l2)) = frames (before_done (l1 ++ l2)).
Proof.
  intros Hd Hf. rewrite !before_done_app.
  destruct (has_done l1); [reflexivity|].
  rewrite !frames_app. cbn [before_done Pollinations.frames]. rewrite Hd.
  cbn [Pollinations.frames]. now rewrite Hf.
Qed.

Lemma count_done_chunks (ds : list string) (u : option Usage) (t : option string) :
  count_done (map OnChunk ds ++ [OnDone u t]) = 1%nat.
Proof.
  unfold count_done. rewrite filter_app, length_app.
  replace (filter _ (map OnChunk ds)) with (@nil StreamEvent).
  - reflexivity.
  - induction ds as [|d ds IH]; [reflexivity|exact IH].
Qed.

Lemma streamGeneration_readable (res : Response) (reads : list string) :
  readable res reads ->
  streamGeneration JSON_parse (FetchResolves res) =
  let fs := frames (before_done (complete_lines (received reads))) in
  let seen := observe (mkLast None None) fs in
  (map OnChunk (deltas fs) ++ [OnDone (lastUsage seen) (lastTier seen)], None).
Proof.
  intros (Hok & Hct & Hbody). unfold streamGeneration.
  rewrite Hok. cbn [negb]. rewrite Hct, Hbody. cbn [body_reads body_end].
  now rewrite read_loop_closed.
Qed.

End StreamFacts.

(** C1. On a response that yields a readable body, [streamGeneration]
    calls [onDone] exactly once, as its last callback, and returns
    without an error.  What it calls back is read off the whole lines
    received, however the reads cut them: the non-empty deltas of the
    frames before the first line that trims to [data: [DONE]], in order,
    then [onDone] with the last usage object and the last tier label of
    those frames; nothing after the marker is read, and without a marker
    every whole line is.  A [data: ] line whose payload does not parse
    (and that is not the marker) changes nothing: the callbacks are
    those of the same body without that line. *)
Theorem streamGeneration_onDone_once :
  forall (JSON_parse : string -> option StreamDelta) (res : Response)
         (reads : list string),
    readable res reads ->
    let fs := frames JSON_parse (before_done (complete_lines (received reads))) in
    let seen := observe (mkLast None None) fs in
    streamGeneration JSON_parse (FetchResolves res) =
      (map OnChunk (deltas fs) ++ [OnDone (lastUsage seen) (lastTier seen)], None) /\
    count_done (fst (streamGeneration JSON_parse (FetchResolves res))) = 1%nat /\
    (forall (res' : Response) (reads' l1 l2 : list string) (bad : string),
        readable res' reads' ->
        complete_lines (received reads) = l1 ++ bad :: l2 ->
        complete_lines (received reads') = l1 ++ l2 ->
        startsWith "data: " (trim bad) = true ->
        is_done_line bad = false ->
        JSON_parse (str_drop 6 (trim bad)) = None ->
        streamGeneration JSON_parse (FetchResolves res) =
        streamGeneration JSON_parse (FetchResolves res')).
Proof.
  intros JSON_parse res reads Hres fs seen.
  pose proof (streamGeneration_readable JSON_parse res reads Hres) as Hrun.
  cbv zeta in Hrun. fold fs seen in Hrun. rewrite Hrun.
  split; [reflexivity|]. split; [apply count_done_chunks|].
  intros res' reads' l1 l2 bad Hres' Hl Hl' Hprefix Hdone Hparse.
  rewrite (streamGeneration_readable JSON_parse res' reads' Hres'). cbv zeta.
  subst seen fs. rewrite Hl, Hl'.
  rewrite (malformed_line_skipped JSON_parse l1 l2 bad Hdone); [reflexivity|].
  unfold frame_of_line. now rewrite Hprefix.
Qed.

(** Three reads that cut the lines anywhere, with a malformed frame
    between two deltas and a delta after the marker: the callbacks are
    the two deltas and one [onDone] with the usage seen. *)
Lemma streamGeneration_onDone_once_witness :
  streamGeneration sample_parse (FetchResolves (sample_response sample_reads)) =
    ([OnChunk "Hel"; OnChunk "lo"; OnDone (Some sample_usage) None], None) /\
  count_done (fst (streamGeneration sample_parse
                     (FetchResolves (sample_response sample_reads)))) = 1%nat.
Proof.
  assert (H : readable (sample_response sample_reads) sample_reads)
    by (repeat split; reflexivity).
  destruct (streamGeneration_onDone_once sample_parse _ _ H) as (Hrun & Hcount & _).
  split; [exact Hrun|exact Hcount].
Defined.

End PollinationsFacts.

(** ** The orchestrator *)

Module ChatPageFacts.

Import Pollinations ChatPage.

Lemma merge_message_id (m : ChatMessage) (u : MessageUpdate) :
  upd_id u = None -> msg_id (merge_message m u) = msg_id m.
Proof. intros H. unfold merge_message. cbn [msg_id]. now rewrite H. Qed.

(** An update reaches the message it names and keeps it in place. *)
Lemma updateMessage_at (ss : list ChatSession) (sessionId messageId : string)
    (u : MessageUpdate) (t : Z) (i j : nat) (s : ChatSession) (m : ChatMessage) :
  nth_error ss i = Some s -> sess_id s = sessionId ->
  nth_error (sess_messages s) j = Some m -> msg_id m = messageId ->
  exists s',
    nth_error (Store.updateMessage sessionId messageId u t ss) i = Some s' /\
    sess_id s' = sessionId /\
    nth_error (sess_messages s') j = Some (merge_message m u).
Proof.
  intros Hs Hid Hm Hmid. unfold Store.updateMessage.
  rewrite (StoreFacts.on_session_nth _ _ _ _ _ Hs).
  subst sessionId. rewrite String.eqb_refl.
  eexists. split; [reflexivity|]. split; [reflexivity|].
  cbn [sess_messages Store.set_messages]. rewrite nth_error_map, Hm. cbn [option_map].
  subst messageId. now rewrite String.eqb_refl.
Qed.

Lemma snoc_cases {A : Type} (l : list A) :
  l = [] \/ exists l' a, l = l' ++ [a].
Proof.
  induction l as [|x l [->|(l' & a & ->)]]; [now left| |].
  - right. now exists [], x.
  - right. now exists (x :: l'), a.
Qed.

Section Reconciler.

Variable clock : nat -> Z.
Variables sessionId assistantId : string.
Variables i j : nat.

Local Abbreviation run := (run_callbacks clock sessionId assistantId).
Local Abbreviation holds p := (holds_message (sessions p) sessionId assistantId i j).

Lemma updateMessage_page (u : MessageUpdate) (p : Page) :
  upd_id u = None -> holds p ->
  holds (updateMessage clock sessionId assistantId u p) /\
  exists m m', message_at (sessions p) i j = Some m /\
               message_at (sessions (updateMessage clock sessionId assistantId u p)) i j
               = Some m' /\ m' = merge_message m u.
Proof.
  intros Hu (s & m & Hs & Hid & Hm & Hmid).
  destruct (updateMessage_at (sessions p) sessionId assistantId u (clock (ticks p))
              i j s m Hs Hid Hm Hmid) as (s' & Hs' & Hid' & Hm').
  unfold updateMessage, now. cbn [sessions set_sessions tick]. split.
  - exists s', (merge_message m u). repeat split; auto.
    rewrite merge_message_id; auto.
  - exists m, (merge_message m u). unfold message_at. rewrite Hs, Hs'. auto.
Qed.

Lemma run_app (e1 e2 : list StreamEvent) (accum : string) (p : Page) :
  run (e1 ++ e2) accum p = let (a1, p1) := run e1 accum p in run e2 a1 p1.
Proof.
  revert accum p. induction e1 as [|e e1 IH]; intros accum p; [reflexivity|].
  destruct e; cbn [app run_callbacks]; apply IH.
Qed.

Lemma append_assoc (a b c : string) : ((a ++ b) ++ c = a ++ b ++ c)%string.
Proof. induction a as [|x a IH]; [reflexivity|]. simpl. now rewrite IH. Qed.

Lemma append_nil_r (a : string) : (a ++ "")%string = a.
Proof. induction a as [|x a IH]; [reflexivity|]. simpl. now rewrite IH. Qed.

Lemma received_app (a b : list string) :
  received (a ++ b) = (received a ++ received b)%string.
Proof.
  induction a as [|x a IH]; [reflexivity|].
  cbn [app received]. now rewrite IH, append_assoc.
Qed.

(** After a non-empty run of chunks, the message holds what was
    accumulated, its token estimate, and the partial flag; its error
    flag is as it was. *)
Lemma run_chunks (ds : list string) (d : string) (accum : string) (p : Page) :
  holds p ->
  let r := run (map OnChunk (ds ++ [d])) accum p in
  let total := (accum ++ received (ds ++ [d]))%string in
  fst r = total /\ holds (snd r) /\
  exists m, message_at (sessions (snd r)) i j = Some m /\
            msg_content m = total /\
            msg_tokensUsed m = Some (Tokenizer.estimateTokens total) /\
            msg_isPartial m = Some true /\
            forall m0, message_at (sessions p) i j = Some m0 ->
                       msg_isError m = msg_isError m0.
Proof.
  revert accum p. induction ds as [|d0 ds IH]; intros accum p Hp; cbv zeta.
  - cbn [app map run_callbacks received fst snd]. rewrite append_nil_r.
    destruct (updateMessage_page (chunk_update (accum ++ d)) p eq_refl Hp)
      as (Hp' & m & m' & Hm & Hm' & ->).
    split; [reflexivity|]. split; [exact Hp'|].
    exists (merge_message m (chunk_update (accum ++ d))).
    split; [exact Hm'|]. repeat split.
    intros m0 Hm0. rewrite Hm in Hm0. now injection Hm0 as <-.
  - cbn [app map run_callbacks received].
    destruct (updateMessage_page (chunk_update (accum ++ d0)) p eq_refl Hp)
      as (Hp' & m & m' & Hm & Hm' & ->).
    specialize (IH (accum ++ d0)%string _ Hp'). cbv zeta in IH.
    rewrite append_assoc in IH.
    destruct IH as (H1 & H2 & mf & Hmf & Hc & Ht & Hpart & Herr).
    split; [exact H1|]. split; [exact H2|]. exists mf. repeat split; auto.
    intros m0 Hm0. rewrite (Herr _ Hm'). rewrite Hm in Hm0. now injection Hm0 as <-.
Qed.

Lemma run_no_chunks (accum : string) (p : Page) :
  run (map OnChunk []) accum p = (accum, p).
Proof. reflexivity. Qed.

Lemma run_chunks_accum (ds : list string) (accum : string) (p : Page) :
  holds p ->
  fst (run (map OnChunk ds) accum p) = (accum ++ received ds)%string /\
  holds (snd (run (map OnChunk ds) accum p)).
Proof.
  intros Hp. destruct (snoc_cases ds) as [->|(ds' & d & ->)].
  - cbn [map run_callbacks fst snd received]. now rewrite append_nil_r.
  - destruct (run_chunks ds' d accum p Hp) as (H1 & H2 & _). split; assumption.
Qed.

End Reconciler.

(** C2. The deltas delivered to [onChunk], then [onDone]: the
    placeholder ends with the deltas concatenated in their order of
    arrival, nothing between them, with [isPartial] false and the
    server's completion tokens when it reported them (the estimate
    otherwise); and each [onChunk] on the way wrote the text accumulated
    so far, with [tokensUsed = estimateTokens(accum)] and [isPartial]
    true. *)
Theorem chunks_then_done_finalize :
  forall (clock : nat -> Z)
         (extractFriendlyError : JSError -> string -> string -> string)
         (sessionId assistantId modelName : string) (i j : nat)
         (ds : list string) (usage : option Usage) (tier : option string) (p : Page),
    holds_message (sessions p) sessionId assistantId i j ->
    (let p' := stream_complete clock extractFriendlyError sessionId assistantId
                 modelName (map OnChunk ds ++ [OnDone usage tier], None) p in
     exists m,
       message_at (sessions p') i j = Some m /\
       msg_id m = assistantId /\
       msg_content m = received ds /\
       msg_isPartial m = Some false /\
       msg_tokensUsed m =
         Some (match usage with
               | Some u => completion_tokens u
               | None => Tokenizer.estimateTokens (received ds)
               end) /\
       isStreaming p' = false) /\
    (forall (pre : list string) (d : string) (post : list string),
        ds = pre ++ d :: post ->
        let r := run_callbacks clock sessionId assistantId
                   (map OnChunk (pre ++ [d])) "" p in
        fst r = received (pre ++ [d]) /\
        exists m,
          message_at (sessions (snd r)) i j = Some m /\
          msg_content m = received (pre ++ [d]) /\
          msg_tokensUsed m = Some (Tokenizer.estimateTokens (received (pre ++ [d]))) /\
          msg_isPartial m = Some true).
Proof.
  intros clock friendly sessionId assistantId modelName i j ds usage tier p Hp.
  split.
  - cbv zeta. unfold stream_complete. cbn [fst snd]. rewrite run_app.
    destruct (run_chunks_accum clock sessionId assistantId i j ds "" p Hp) as (Ha & Hp1).
    destruct (run_callbacks clock sessionId assistantId (map OnChunk ds) "" p)
      as [a1 p1] eqn:Hrun.
    cbn [fst snd] in Ha, Hp1. cbn [append] in Ha. subst a1.
    cbn [run_callbacks].
    destruct (updateMessage_page clock sessionId assistantId i j
                (done_update (received ds) usage) p1 eq_refl Hp1)
      as ((s' & m' & Hs' & Hid' & Hm' & Hmid') & m & mm & Hm & Hmm & ->).
    exists (merge_message m (done_update (received ds) usage)).
    cbn [sessions postGenerationTasks set_abortRef setIsStreaming isStreaming].
    split; [exact Hmm|]. split.
    + unfold message_at in Hmm. rewrite Hs' in Hmm. rewrite Hm' in Hmm.
      injection Hmm as <-. exact Hmid'.
    + repeat split.
  - intros pre d post _. cbv zeta.
    destruct (run_chunks clock sessionId assistantId i j pre d "" p Hp)
      as (H1 & _ & m & Hm & Hc & Ht & Hpart & _).
    cbn [append] in *. split; [exact H1|]. exists m. auto.
Qed.

(** The deltas "Hel" and "lo", then completion, on the placeholder of
    the page in flight: the message ends as "Hello", not partial. *)
Lemma chunks_then_done_finalize_witness :
  exists m,
    message_at
      (sessions (stream_complete sample_clock sample_friendly "s1" "uuid-1" "openai"
                   (map OnChunk ["Hel"; "lo"] ++ [OnDone None None], None)
                   in_flight_page)) 0 3 = Some m /\
    msg_content m = "Hello" /\ msg_isPartial m = Some false.
Proof.
  assert (H : holds_message (sessions in_flight_page) "s1" "uuid-1" 0 3).
  { eexists. eexists. repeat split; reflexivity. }
  destruct (chunks_then_done_finalize sample_clock sample_friendly "s1" "uuid-1"
              "openai" 0 3 ["Hel"; "lo"] None None in_flight_page H)
    as ((m & Hm & _ & Hc & Hp & _) & _).
  exists m. split; [exact Hm|]. split; [exact Hc|exact Hp].
Defined.

(** What the code does when the stream fails, by an error that is not
    a cancellation, after text was accumulated: it notifies, and writes
    nothing to the message, which keeps its text, its error flag, and
    the [isPartial: true] of the last chunk. *)
Lemma stream_error_after_chunks :
  forall (clock : nat -> Z)
         (extractFriendlyError : JSError -> string -> string -> string)
         (sessionId assistantId modelName : string) (i j : nat)
         (ds : list string) (d : string) (err : JSError) (p : Page) (m0 : ChatMessage),
    holds_message (sessions p) sessionId assistantId i j ->
    message_at (sessions p) i j = Some m0 ->
    error_name err <> "AbortError" ->
    received (ds ++ [d]) <> "" ->
    let p' := stream_complete clock extractFriendlyError sessionId assistantId
                modelName (map OnChunk (ds ++ [d]), Some err) p in
    exists m,
      message_at (sessions p') i j = Some m /\
      msg_content m = received (ds ++ [d]) /\
      msg_isError m = msg_isError m0 /\
      msg_isPartial m = Some true.
Proof.
  intros clock friendly sessionId assistantId modelName i j ds d err p m0
         Hp Hm0 Hname Htext. cbv zeta. unfold stream_complete. cbn [fst snd].
  destruct (run_chunks clock sessionId assistantId i j ds d "" p Hp)
    as (Ha & _ & m & Hm & Hc & _ & Hpart & Herr).
  destruct (run_callbacks clock sessionId assistantId (map OnChunk (ds ++ [d])) "" p)
    as [accum p1] eqn:Hrun.
  cbn [fst snd append] in *. subst accum.
  apply String.eqb_neq in Hname. rewrite Hname.
  apply TokenizerFacts.nonempty_iff in Htext. rewrite Htext. cbn [negb].
  exists m. cbn [sessions postGenerationTasks set_abortRef setIsStreaming handleError notifyError].
  repeat split; auto.
Qed.

(** C3, on the code.  A send whose stream delivers "Hel" and then
    loses the connection: the partial text is kept and no error flag is
    set, but [isPartial] is still true when [handleSend] is over. *)
Theorem stream_error_leaves_partial_flag :
  let p' := handleSend sample_clock sample_uuid sample_friendly sample_parse
              again (the_network broken_stream) sample_page in
  exists m,
    message_at (sessions p') 0 3 = Some m /\
    msg_id m = "uuid-1" /\
    msg_content m = "Hel" /\
    msg_isError m = None /\
    msg_isPartial m = Some true /\
    isStreaming p' = false.
Proof. cbv zeta. eexists. repeat split; reflexivity. Qed.

(** The sibling paths clear the flag: a cancellation after "Hel", and
    a failure before any text. *)
Lemma stream_cancelled_clears_partial_flag :
  let p' := stream_complete sample_clock sample_friendly "s1" "uuid-1" "openai"
              ([OnChunk "Hel"], Some (OtherError "AbortError" "aborted"))
              in_flight_page in
  exists m,
    message_at (sessions p') 0 3 = Some m /\
    msg_content m = ("Hel" ++ cancelled_marker)%string /\
    msg_isError m = None /\
    msg_isPartial m = Some false.
Proof. cbv zeta. eexists. repeat split; reflexivity. Qed.

Lemma stream_error_without_text_clears_partial_flag :
  let p' := stream_complete sample_clock sample_friendly "s1" "uuid-1" "openai"
              ([], Some (OtherError "TypeError" "network error")) in_flight_page in
  exists m,
    message_at (sessions p') 0 3 = Some m /\
    msg_isError m = Some true /\
    msg_isPartial m = Some false.
Proof. cbv zeta. eexists. repeat split; reflexivity. Qed.

(** *** Sends while a generation is in flight *)






(** *** Regenerate *)

Lemma find_on_session (sessionId : string) (f : ChatSession -> ChatSession)
    (ss : list ChatSession) :
  (forall s, sess_id (f s) = sess_id s) ->
  find (fun s => (sess_id s =? sessionId)%string) (Store.on_session sessionId f ss) =
  option_map f (find (fun s => (sess_id s =? sessionId)%string) ss).
Proof.
  intros Hf. induction ss as [|s ss IH]; [reflexivity|].
  cbn [Store.on_session map find]. fold (Store.on_session sessionId f ss).
  destruct (sess_id s =? sessionId)%string eqn:E; cbn [negb].
  - now rewrite Hf, E.
  - now rewrite E, IH.
Qed.

Lemma findIndex_second (mid : string) (pre : list ChatMessage) (u a : ChatMessage)
    (post : list ChatMessage) :
  msg_id a = mid -> (forall x, In x (pre ++ [u]) -> msg_id x <> mid) ->
  findIndex (fun m => (msg_id m =? mid)%string) (pre ++ u :: a :: post) =
    Some (S (List.length pre)) /\
  nth_error (pre ++ u :: a :: post) (List.length pre) = Some u.
Proof.
  intros Ha Hpre. split.
  - replace (pre ++ u :: a :: post) with ((pre ++ [u]) ++ a :: post)
      by (now rewrite <- app_assoc).
    rewrite StoreFacts.findIndex_first.
    + now rewrite length_app, Nat.add_1_r.
    + now apply String.eqb_eq.
    + intros x Hx. apply StoreFacts.id_neq_eqb. now apply Hpre.
  - rewrite nth_error_app2 by lia. now rewrite Nat.sub_diag.
Qed.

(** C5, as stated, fails while a generation is in flight: the message
    "a1" is in the active session, after a user message, and regenerate
    leaves the page as it is and sends nothing. *)
Lemma regenerate_in_flight_is_noop :
  isStreaming in_flight_page = true /\
  Store.activeSession (sessions in_flight_page) (activeSessionId in_flight_page)
    = nth_error (sessions in_flight_page) 0 /\
  logs (sessions in_flight_page) =
    [[ ("u1", user, "hi"); ("a1", assistant, "hello");
       ("uuid-0", user, "again"); ("uuid-1", assistant, "") ]] /\
  handleRegenerate sample_clock "a1" in_flight_page = (in_flight_page, None).
Proof. repeat split; reflexivity. Qed.

(** C5, amended.  [handleRegenerate] leaves the page unchanged and
    sends nothing when there is no active session, when a generation is
    in flight, when the message is not in the active session, when it is
    its first entry, or when the entry before it is not a user message.
    Otherwise (an active session with a non-empty id, no generation in
    flight, the message found after a user message) it truncates the
    store from that message on, so that the active session's log is what
    preceded the message, every other session being as it was, and calls
    [handleSend] with the content, mode and attachments of the user
    message before it. *)
Theorem handleRegenerate_spec :
  forall (clock : nat -> Z) (mid : string) (p : Page),
    (Store.activeSession (sessions p) (activeSessionId p) = None ->
     handleRegenerate clock mid p = (p, None)) /\
    (isStreaming p = true -> handleRegenerate clock mid p = (p, None)) /\
    (forall s,
        Store.activeSession (sessions p) (activeSessionId p) = Some s ->
        (forall m, In m (sess_messages s) -> msg_id m <> mid) ->
        handleRegenerate clock mid p = (p, None)) /\
    (forall s a post,
        Store.activeSession (sessions p) (activeSessionId p) = Some s ->
        sess_messages s = a :: post -> msg_id a = mid ->
        handleRegenerate clock mid p = (p, None)) /\
    (forall s pre u a post,
        Store.activeSession (sessions p) (activeSessionId p) = Some s ->
        sess_messages s = pre ++ u :: a :: post -> msg_id a = mid ->
        (forall x, In x (pre ++ [u]) -> msg_id x <> mid) ->
        msg_role u <> user ->
        handleRegenerate clock mid p = (p, None)) /\
    (forall sid s pre u a post,
        activeSessionId p = Some sid -> sid <> "" ->
        isStreaming p = false ->
        Store.activeSession (sessions p) (activeSessionId p) = Some s ->
        sess_messages s = pre ++ u :: a :: post -> msg_id a = mid ->
        (forall x, In x (pre ++ [u]) -> msg_id x <> mid) ->
        msg_role u = user ->
        let p' := deleteMessagesFrom clock sid mid p in
        handleRegenerate clock mid p =
          (p', Some (mkSendCall (msg_content u) (msg_mode u) (msg_attachments u))) /\
        (exists s', Store.activeSession (sessions p') (activeSessionId p') = Some s' /\
                    sess_messages s' = pre ++ [u]) /\
        preserves_others sid (sessions p) (sessions p') /\
        (forall net friendly uuid parse,
            then_send clock uuid friendly parse (handleRegenerate clock mid p) net =
            handleSend clock uuid friendly parse
              (mkSendCall (msg_content u) (msg_mode u) (msg_attachments u)) net p')).
Proof.
  intros clock mid p.
  split; [|split; [|split; [|split; [|split]]]].
  - intros H. unfold handleRegenerate. rewrite H.
    now destruct (truthy_id (activeSessionId p)).
  - intros H. unfold handleRegenerate. rewrite H.
    destruct (truthy_id (activeSessionId p)); [|reflexivity].
    now destruct (Store.activeSession (sessions p) (activeSessionId p)).
  - intros s H Hnone. unfold handleRegenerate. rewrite H.
    destruct (truthy_id (activeSessionId p)); [|reflexivity].
    destruct (isStreaming p); [reflexivity|].
    rewrite StoreFacts.findIndex_none; [reflexivity|].
    intros x Hx. apply StoreFacts.id_neq_eqb. now apply Hnone.
  - intros s a post H Hs Ha. unfold handleRegenerate. rewrite H.
    destruct (truthy_id (activeSessionId p)); [|reflexivity].
    destruct (isStreaming p); [reflexivity|].
    rewrite Hs. cbn [findIndex]. apply String.eqb_eq in Ha. now rewrite Ha.
  - intros s pre u a post H Hs Ha Hpre Hrole. unfold handleRegenerate. rewrite H.
    destruct (truthy_id (activeSessionId p)); [|reflexivity].
    destruct (isStreaming p); [reflexivity|].
    destruct (findIndex_second mid pre u a post Ha Hpre) as (Hi & Hn).
    rewrite Hs, Hi, Hn.
    destruct (msg_role u); try reflexivity. congruence.
  - intros sid s pre u a post Hsid Hne Hstream Hact Hs Ha Hpre Hrole p'.
    assert (Hrun : handleRegenerate clock mid p =
                   (p', Some (mkSendCall (msg_content u) (msg_mode u)
                                         (msg_attachments u)))).
    { unfold handleRegenerate. rewrite Hact, Hsid, Hstream.
      unfold truthy_id, truthy_string.
      apply TokenizerFacts.nonempty_iff in Hne. rewrite Hne.
      destruct (findIndex_second mid pre u a post Ha Hpre) as (Hi & Hn).
      rewrite Hs, Hi, Hn, Hrole. reflexivity. }
    split; [exact Hrun|]. split; [|split].
    + subst p'. unfold deleteMessagesFrom, now.
      cbn [sessions activeSessionId set_sessions tick].
      rewrite Hsid in *. cbn [Store.activeSession] in *.
      unfold Store.deleteMessagesFrom.
      rewrite find_on_session by (intros; apply StoreFacts.truncate_session_id).
      rewrite Hact. cbn [option_map]. eexists. split; [reflexivity|].
      rewrite (StoreFacts.truncate_session_found mid _ s (pre ++ [u]) a post);
        [reflexivity| |exact Ha|exact Hpre].
      now rewrite <- app_assoc.
    + subst p'. unfold deleteMessagesFrom, now. cbn [sessions set_sessions tick].
      apply StoreFacts.mutations_frame_deleteMessagesFrom.
    + intros net friendly uuid parse. rewrite Hrun. reflexivity.
Qed.

(** The log [user: hi, assistant: hello]: regenerating the assistant
    message leaves [user: hi] and sends "hi" again. *)
Lemma handleRegenerate_spec_witness :
  handleRegenerate sample_clock "a1" sample_page =
    (deleteMessagesFrom sample_clock "s1" "a1" sample_page,
     Some (mkSendCall "hi" mode_text [])) /\
  logs (sessions (deleteMessagesFrom sample_clock "s1" "a1" sample_page)) =
    [[ ("u1", user, "hi") ]].
Proof.
  destruct (handleRegenerate_spec sample_clock "a1" sample_page)
    as (_ & _ & _ & _ & _ & H).
  destruct (H "s1" hi_session [] (sample_message "u1" user "hi")
              (sample_message "a1" assistant "hello") []
              eq_refl ltac:(discriminate) eq_refl eq_refl eq_refl eq_refl)
    as (Hrun & _).
  - intros x [<-|[]]. discriminate.
  - reflexivity.
  - split; [exact Hrun|reflexivity].
Defined.

End ChatPageFacts.

(** ** Export and import ([lib/exportImport.ts]) *)

Module ExportImportFacts.

Import ExportImport.

(** [validateSessions] accepts a list exactly when every entry is a
    session with a truthy [id] and an array of [messages]. *)
Lemma validateSessions_accepts (items : list JSValue) :
  validateSessions items = None <-> forallb session_ok items = true.
Proof.
  induction items as [|v items IH]; [now split|].
  cbn [validateSessions forallb]. unfold session_ok at 1.
  destruct v; try (split; discriminate).
  all: destruct (js_truthy (js_get _ "id")); cbn [negb orb andb];
       try (split; discriminate).
  all: destruct (js_get _ "messages") as [[]|];
       cbn [isArray js_truthy negb orb andb]; try (split; discriminate); try exact IH.
  all: try (destruct b; split; discriminate).
  all: try (destruct (negb _); split; discriminate).
Qed.

Lemma validateSessions_rejects (items : list JSValue) :
  forallb session_ok items = false -> exists e, validateSessions items = Some e.
Proof.
  intros H. destruct (validateSessions items) as [e|] eqn:E; [now exists e|].
  apply validateSessions_accepts in E. congruence.
Qed.

(** What comes back of an exported session. *)
Lemma exported_session_ok (s : ChatSession) :
  sess_id s <> "" -> session_ok (json_normalise (session_value s)) = true.
Proof.
  intros H. apply TokenizerFacts.nonempty_iff in H.
  cbn. now rewrite H.
Qed.

Lemma exported_session_reads (s : ChatSession) :
  imported_id (json_normalise (session_value s)) = Some (sess_id s) /\
  imported_title (json_normalise (session_value s)) = Some (sess_title s) /\
  imported_contents (json_normalise (session_value s)) =
    Some (map (fun m => Some (msg_content m)) (sess_messages s)).
Proof.
  repeat split. unfold imported_contents. cbn.
  rewrite !map_map. reflexivity.
Qed.

(** The sessions of an export, read back. *)
Lemma exported_sessions (ss : list ChatSession) :
  Forall (fun s => sess_id s <> "") ss ->
  validateSessions (map json_normalise (map session_value ss)) = None /\
  same_sessions (map json_normalise (map session_value ss)) ss.
Proof.
  intros H. split.
  - apply validateSessions_accepts. rewrite map_map.
    apply forallb_forall. intros v Hv. apply in_map_iff in Hv.
    destruct Hv as (s & <- & Hs). apply exported_session_ok.
    rewrite Forall_forall in H. now apply H.
  - unfold same_sessions. rewrite !map_map. repeat split;
      apply map_ext; intros s; apply exported_session_reads.
Qed.

Section CodecFacts.

Variable JSON_stringify : JSValue -> string.
Variable JSON_parse : string -> option JSValue.

Lemma importJSON_array (raw : string) (items : list JSValue) :
  JSON_parse raw = Some (JArr items) ->
  importJSON JSON_parse raw =
    match validateSessions items with Some e => inl e | None => inr items end.
Proof. intros H. unfold importJSON. now rewrite H. Qed.

Lemma importJSON_wrapper (raw : string) (fields : list (string * JSValue))
    (version sessions : JSValue) :
  JSON_parse raw = Some (JObj fields) ->
  assoc "version" fields = Some version ->
  assoc "sessions" fields = Some sessions ->
  importJSON JSON_parse raw =
    match sessions with
    | JArr items =>
        match validateSessions items with Some e => inl e | None => inr items end
    | _ => inl SessionsNotArray
    end.
Proof.
  intros H Hv Hs. unfold importJSON. rewrite H.
  unfold js_in, js_get, is_object. rewrite Hv, Hs. cbn [andb].
  now destruct sessions.
Qed.

Lemma importJSON_no_version (raw : string) (fields : list (string * JSValue)) :
  JSON_parse raw = Some (JObj fields) ->
  assoc "version" fields = None ->
  importJSON JSON_parse raw = inl Unrecognized.
Proof.
  intros H Hv. unfold importJSON. rewrite H.
  unfold js_in, js_get, is_object. now rewrite Hv.
Qed.

End CodecFacts.

(** C9.  Export, then import.  For every list of sessions whose ids
    are not empty, as the ids the program makes are, and a codec that
    reads back what it prints of their export, [importJSON] of
    [exportJSON] succeeds and yields as many sessions, equal to the
    originals in id, in title and in the contents of the messages, in
    order.  [importJSON] accepts a bare array of sessions as it accepts
    the wrapper.  It throws on an object whose [sessions] is not an
    array, with a [version] (sessions must be an array) or without
    (unrecognized format); on an array or a wrapper holding a session
    without a truthy [id] or without an array of [messages]; and on a
    text that is not JSON. *)
Theorem importJSON_exportJSON_round_trip :
  forall (JSON_stringify : JSValue -> string) (JSON_parse : string -> option JSValue),
    (forall exportedAt ss,
        JSON_parse (JSON_stringify (export_value exportedAt ss)) =
          Some (json_normalise (export_value exportedAt ss)) ->
        Forall (fun s => sess_id s <> "") ss ->
        exists imported,
          importJSON JSON_parse (exportJSON JSON_stringify exportedAt ss) = inr imported /\
          List.length imported = List.length ss /\
          same_sessions imported ss) /\
    (forall raw items,
        JSON_parse raw = Some (JArr items) ->
        forallb session_ok items = true ->
        importJSON JSON_parse raw = inr items) /\
    (forall raw fields version items,
        JSON_parse raw = Some (JObj fields) ->
        assoc "version" fields = Some version ->
        assoc "sessions" fields = Some (JArr items) ->
        forallb session_ok items = true ->
        importJSON JSON_parse raw = inr items) /\
    (forall raw fields sessions,
        JSON_parse raw = Some (JObj fields) ->
        assoc "sessions" fields = Some sessions ->
        isArray (Some sessions) = false ->
        importJSON JSON_parse raw =
          inl (match assoc "version" fields with
               | Some _ => SessionsNotArray
               | None => Unrecognized
               end)) /\
    (forall raw items,
        JSON_parse raw = Some (JArr items) ->
        forallb session_ok items = false ->
        exists e, importJSON JSON_parse raw = inl e) /\
    (forall raw fields version items,
        JSON_parse raw = Some (JObj fields) ->
        assoc "version" fields = Some version ->
        assoc "sessions" fields = Some (JArr items) ->
        forallb session_ok items = false ->
        exists e, importJSON JSON_parse raw = inl e) /\
    (forall raw, JSON_parse raw = None -> importJSON JSON_parse raw = inl InvalidJSON).
Proof.
  intros JSON_stringify JSON_parse.
  split; [|split; [|split; [|split; [|split; [|split]]]]].
  - intros exportedAt ss Hcodec Hids.
    destruct (exported_sessions ss Hids) as (Hv & Hsame).
    exists (map json_normalise (map session_value ss)).
    split; [|split; [now rewrite !length_map|exact Hsame]].
    unfold exportJSON.
    rewrite (importJSON_wrapper JSON_parse _ _ (JStr "1.0")
               (JArr (map json_normalise (map session_value ss))) Hcodec);
      [now rewrite Hv|reflexivity|reflexivity].
  - intros raw items H Hok. rewrite (importJSON_array _ _ _ H).
    apply validateSessions_accepts in Hok. now rewrite Hok.
  - intros raw fields version items H Hv Hs Hok.
    rewrite (importJSON_wrapper _ _ _ _ _ H Hv Hs).
    apply validateSessions_accepts in Hok. now rewrite Hok.
  - intros raw fields sessions H Hs Harr.
    destruct (assoc "version" fields) as [version|] eqn:Hv.
    + rewrite (importJSON_wrapper _ _ _ _ _ H Hv Hs).
      destruct sessions; try reflexivity. discriminate.
    + now apply importJSON_no_version with (fields := fields).
  - intros raw items H Hbad. rewrite (importJSON_array _ _ _ H).
    destruct (validateSessions_rejects items Hbad) as (e & ->). now exists e.
  - intros raw fields version items H Hv Hs Hbad.
    rewrite (importJSON_wrapper _ _ _ _ _ H Hv Hs).
    destruct (validateSessions_rejects items Hbad) as (e & ->). now exists e.
  - intros raw H. unfold importJSON. now rewrite H.
Qed.

(** The sessions of the test suite, through [JSON.stringify] and
    [JSON.parse]: the import of the export yields both sessions, with
    their ids, titles and message contents.  The text
    [{"sessions": "nope"}] is refused, and so is a text that is not
    JSON. *)
Lemma importJSON_exportJSON_round_trip_witness :
  (exists imported,
      importJSON JSON.parse (exportJSON JSON.stringify export_time [chat_1; chat_2])
        = inr imported /\
      map imported_title imported = [Some "Chat 1"; Some "Chat 2"] /\
      map imported_contents imported =
        [ Some [Some "Hello"; Some quoted_reply]; Some [Some "How are you?"] ]) /\
  importJSON JSON.parse sessions_nope = inl Unrecognized /\
  importJSON JSON.parse "not json" = inl InvalidJSON.
Proof.
  destruct (importJSON_exportJSON_round_trip JSON.stringify JSON.parse)
    as (Hround & _ & _ & Hnope & _ & _ & Hbad).
  split; [|split].
  - destruct (Hround export_time [chat_1; chat_2]) as (imported & Himp & _ & Hsame).
    + vm_compute. reflexivity.
    + repeat constructor; discriminate.
    + exists imported. split; [exact Himp|].
      destruct Hsame as (_ & Ht & Hc). split; [exact Ht|exact Hc].
  - apply (Hnope sessions_nope [("sessions", JStr "nope")] (JStr "nope"));
      [vm_compute; reflexivity|reflexivity|reflexivity].
  - apply Hbad. vm_compute. reflexivity.
Defined.

End ExportImportFacts.

(** ** The session store: the other operations *)

Module StoreLaws.

Import Store.

Lemma str_take_length (n : nat) (s : string) :
  String.length (str_take n s) = Nat.min n (String.length s).
Proof.
  revert s. induction n as [|n IH]; intros [|c t]; simpl; auto.
Qed.

Lemma str_take_all (n : nat) (s : string) :
  (String.length s <= n)%nat -> str_take n s = s.
Proof.
  revert s. induction n as [|n IH]; intros [|c t] H; simpl in *; auto; try lia.
  f_equal. apply IH. lia.
Qed.

Lemma append_length (a b : string) :
  String.length (a ++ b) = (String.length a + String.length b)%nat.
Proof. induction a as [|c a IH]; simpl; auto. Qed.

Lemma str_take_prefix (n : nat) (s : string) :
  String.prefix (str_take n s) s = true.
Proof.
  revert s. induction n as [|n IH]; intros [|c t]; simpl; auto.
  rewrite IH. destruct (Ascii.ascii_dec c c); congruence.
Qed.

(** X1.  The title [addMessage] gives a session on its first user
    message: the content itself when it has at most 50 code units,
    otherwise its first 50 code units followed by three dots, 53 code
    units in all; in both cases it begins with the first 50 code units
    of the content. *)
Theorem auto_title_shape :
  forall content : string,
    (String.length (auto_title content) <= 53)%nat /\
    String.prefix (str_take 50 content) (auto_title content) = true /\
    String.prefix (str_take 50 content) content = true /\
    ((String.length content <= 50)%nat -> auto_title content = content) /\
    ((50 < String.length content)%nat ->
       auto_title content = (str_take 50 content ++ "...")%string /\
       String.length (auto_title content) = 53%nat).
Proof.
  intros content. unfold auto_title.
  destruct (Nat.ltb 50 (String.length content)) eqn:E.
  - apply Nat.ltb_lt in E. rewrite append_length, str_take_length.
    cbn [String.length]. repeat split; try lia.
    + clear. generalize (str_take 50 content). intros s.
      induction s as [|c s IH]; [reflexivity|]. simpl.
      rewrite IH. destruct (Ascii.ascii_dec c c); congruence.
    + apply str_take_prefix.
  - apply Nat.ltb_ge in E. rewrite (str_take_all 50 content E).
    replace (content ++ "")%string with content
      by (clear; induction content as [|c s IH]; simpl; congruence).
    repeat split; try lia.
    + clear. induction content as [|c s IH]; [reflexivity|]. simpl.
      rewrite IH. destruct (Ascii.ascii_dec c c); congruence.
    + clear. induction content as [|c s IH]; [reflexivity|]. simpl.
      rewrite IH. destruct (Ascii.ascii_dec c c); congruence.
Qed.

(** "A title" is kept as it is; it is derived by the rule. *)
Lemma auto_title_shape_witness : auto_title "A title" = "A title".
Proof.
  destruct (auto_title_shape "A title") as (_ & _ & _ & H & _).
  apply H. simpl. lia.
Defined.

(** The session of a store that a call names: [on_session] applies
    the step to it, where it is. *)
Lemma on_session_at (sessionId : string) (f : ChatSession -> ChatSession)
    (ss : list ChatSession) (k : nat) (s : ChatSession) :
  nth_error ss k = Some s -> sess_id s = sessionId ->
  nth_error (on_session sessionId f ss) k = Some (f s).
Proof.
  intros Hk Hid. rewrite (StoreFacts.on_session_nth _ _ _ _ _ Hk).
  subst sessionId. now rewrite String.eqb_refl.
Qed.

(** X2.  [addMessage] on a session of the store: the message is
    appended at the end of the log, which is otherwise kept in order;
    the session keeps its id, model, creation time and pollen total, its
    update time becomes the current time, and its title changes only
    when the log was empty and the message is a user message, to the
    title derived from the content. *)
Theorem addMessage_appends :
  forall (sessionId : string) (message : ChatMessage) (now : Z)
         (ss : list ChatSession) (k : nat) (s : ChatSession),
    nth_error ss k = Some s -> sess_id s = sessionId ->
    exists s',
      nth_error (addMessage sessionId message now ss) k = Some s' /\
      sess_messages s' = sess_messages s ++ [message] /\
      sess_id s' = sess_id s /\ sess_model s' = sess_model s /\
      sess_createdAt s' = sess_createdAt s /\ sess_updatedAt s' = now /\
      sess_totalPollenSpent s' = sess_totalPollenSpent s /\
      sess_title s' =
        match sess_messages s, msg_role message with
        | [], user => auto_title (msg_content message)
        | _, _ => sess_title s
        end.
Proof.
  intros sessionId message now ss k s Hk Hid.
  eexists. split; [unfold addMessage; apply (on_session_at _ _ _ _ _ Hk Hid)|].
  cbn [set_messages sess_messages sess_id sess_model sess_createdAt sess_updatedAt
       sess_totalPollenSpent sess_title].
  repeat split.
  destruct (sess_messages s) as [|m ms]; [|reflexivity].
  now destruct (msg_role message).
Qed.

(** A fifth message on the log A, B, C, D. *)
Lemma addMessage_appends_witness :
  exists s',
    nth_error (addMessage "s1" (sample_message "E" user "then") 1700000000001
                 sample_store) 1 = Some s' /\
    map msg_id (sess_messages s') = ["A"; "B"; "C"; "D"; "E"] /\
    sess_title s' = "first".
Proof.
  destruct (addMessage_appends "s1" (sample_message "E" user "then") 1700000000001
              sample_store 1 sample_session eq_refl eq_refl)
    as (s' & Hs' & Hm & _ & _ & _ & _ & _ & Ht).
  exists s'. split; [exact Hs'|]. rewrite Hm, Ht. split; reflexivity.
Defined.




(** X4.  [updateMessage] keeps the shape of the log: its length and
    the title; an entry with another id stays where it is and as it is;
    an entry with the id becomes its merge with the update, where it is;
    the ids are kept when the update carries no id; and the log is
    unchanged when no entry has the id. *)
Theorem updateMessage_keeps_shape :
  forall (sessionId messageId : string) (update : MessageUpdate) (now : Z)
         (ss : list ChatSession) (k : nat) (s : ChatSession),
    nth_error ss k = Some s -> sess_id s = sessionId ->
    exists s',
      nth_error (updateMessage sessionId messageId update now ss) k = Some s' /\
      sess_title s' = sess_title s /\
      List.length (sess_messages s') = List.length (sess_messages s) /\
      (forall j m, nth_error (sess_messages s) j = Some m -> msg_id m <> messageId ->
                   nth_error (sess_messages s') j = Some m) /\
      (forall j m, nth_error (sess_messages s) j = Some m -> msg_id m = messageId ->
                   nth_error (sess_messages s') j = Some (merge_message m update)) /\
      (upd_id update = None ->
       map msg_id (sess_messages s') = map msg_id (sess_messages s)) /\
      ((forall m, In m (sess_messages s) -> msg_id m <> messageId) ->
       sess_messages s' = sess_messages s).
Proof.
  intros sessionId messageId update now ss k s Hk Hid.
  eexists. split; [unfold updateMessage; apply (on_session_at _ _ _ _ _ Hk Hid)|].
  cbn [set_messages sess_messages sess_title].
  split; [reflexivity|]. split; [apply length_map|]. split; [|split; [|split]].
  - intros j m Hj Hne. rewrite nth_error_map, Hj. cbn [option_map].
    now rewrite (StoreFacts.id_neq_eqb _ _ Hne).
  - intros j m Hj He. rewrite nth_error_map, Hj. cbn [option_map].
    apply String.eqb_eq in He. now rewrite He.
  - intros Hnoid. rewrite map_map. apply map_ext. intros m.
    destruct (msg_id m =? messageId)%string; [|reflexivity].
    unfold merge_message. cbn [msg_id]. now rewrite Hnoid.
  - intros Hnone. rewrite <- (map_id (sess_messages s)) at 2.
    apply map_ext_in. intros m Hm.
    now rewrite (StoreFacts.id_neq_eqb _ _ (Hnone m Hm)).
Qed.

(** In a log where "B" occurs twice, an update of "B" rewrites both
    entries and moves none. *)
Lemma updateMessage_keeps_shape_witness :
  exists s',
    nth_error (updateMessage "s1" "B" (content_update "new") 1700000000001
                 [repeated_session]) 0 = Some s' /\
    map msg_id (sess_messages s') = ["A"; "B"; "C"; "B"] /\
    map msg_content (sess_messages s') = ["hi"; "new"; "more"; "new"].
Proof.
  destruct (updateMessage_keeps_shape "s1" "B" (content_update "new") 1700000000001
              [repeated_session] 0 repeated_session eq_refl eq_refl)
    as (s' & Hs' & _ & _ & _ & _ & Hids & _).
  exists s'. split; [exact Hs'|]. split.
  - now rewrite (Hids eq_refl).
  - cbn in Hs'. injection Hs' as <-. reflexivity.
Defined.

(** [replaceMessageContent] is the [updateMessage] of a content. *)
Lemma replaceMessageContent_is_content_update :
  forall (sessionId messageId newContent : string) (now : Z) (ss : list ChatSession),
    replaceMessageContent sessionId messageId newContent now ss =
    updateMessage sessionId messageId (content_update newContent) now ss.
Proof.
  intros. unfold replaceMessageContent, updateMessage, on_session.
  apply map_ext. intros s. destruct (negb _); reflexivity.
Qed.

(** X5.  [renameSession] and [updateSessionPollen] touch no log:
    every session keeps its messages; the pollen update keeps the titles
    and the renaming keeps the pollen totals; the sessions with another
    id are left as they are, in place; and after [renameSession] every
    session with the id has the new title. *)
Theorem metadata_updates_keep_logs :
  forall (sessionId title : string) (pollenDelta : float) (now : Z)
         (ss : list ChatSession),
    map sess_messages (renameSession sessionId title now ss) = map sess_messages ss /\
    map sess_messages (updateSessionPollen sessionId pollenDelta now ss)
      = map sess_messages ss /\
    map sess_title (updateSessionPollen sessionId pollenDelta now ss)
      = map sess_title ss /\
    map sess_totalPollenSpent (renameSession sessionId title now ss)
      = map sess_totalPollenSpent ss /\
    preserves_others sessionId ss (renameSession sessionId title now ss) /\
    preserves_others sessionId ss (updateSessionPollen sessionId pollenDelta now ss) /\
    (forall s', In s' (renameSession sessionId title now ss) ->
                sess_id s' = sessionId -> sess_title s' = title).
Proof.
  intros sessionId title pollenDelta now ss.
  assert (Hmap : forall (B : Type) (g : ChatSession -> B) (f : ChatSession -> ChatSession),
             (forall s, g (f s) = g s) ->
             map g (on_session sessionId f ss) = map g ss).
  { intros B g f Hg. unfold on_session. rewrite map_map. apply map_ext.
    intros s. destruct (negb _); [reflexivity|apply Hg]. }
  unfold renameSession, updateSessionPollen.
  split; [now apply Hmap|]. split; [now apply Hmap|]. split; [now apply Hmap|].
  split; [now apply Hmap|].
  split; [now apply StoreFacts.on_session_preserves_others|].
  split; [now apply StoreFacts.on_session_preserves_others|].
  intros s' Hin Hid. unfold on_session in Hin. apply in_map_iff in Hin.
  destruct Hin as (s & <- & _). destruct (sess_id s =? sessionId)%string eqn:E;
    cbn [negb] in *; [reflexivity|].
  apply String.eqb_neq in E. contradiction.
Qed.

End StoreLaws.

(** ** The token budget: [estimateMessagesTokens], [truncateMessages]
    and the token meter *)

Module TokenBudget.

Import Tokenizer.

Local Open Scope Z_scope.

Lemma estimateTokens_nonneg (text : string) : 0 <= estimateTokens text.
Proof. unfold estimateTokens. destruct (negb (nonempty text)); lia. Qed.

Lemma estimateTokens_positive (text : string) :
  text <> "" -> 1 <= estimateTokens text.
Proof.
  intros H. apply TokenizerFacts.nonempty_iff in H.
  unfold estimateTokens. rewrite H. cbn [negb]. lia.
Qed.

Lemma fold_tokens_shift (messages : list (string * string)) (a : Z) :
  fold_left (fun total msg => total + 4 + estimateTokens (snd msg)) messages a =
  a + fold_left (fun total msg => total + 4 + estimateTokens (snd msg)) messages 0.
Proof.
  revert a. induction messages as [|m l IH]; intros a; cbn [fold_left]; [lia|].
  rewrite IH. rewrite (IH (0 + 4 + _)). lia.
Qed.

Lemma estimateMessagesTokens_cons (m : string * string) (l : list (string * string)) :
  estimateMessagesTokens (m :: l) =
  4 + estimateTokens (snd m) + estimateMessagesTokens l.
Proof.
  unfold estimateMessagesTokens. cbn [fold_left]. rewrite fold_tokens_shift. lia.
Qed.

Lemma estimateMessagesTokens_app (a b : list (string * string)) :
  estimateMessagesTokens (a ++ b) =
  estimateMessagesTokens a + estimateMessagesTokens b - 2.
Proof.
  induction a as [|m a IH];
    [change (estimateMessagesTokens []) with 2%Z; cbn [app]; lia|].
  cbn [app]. rewrite !estimateMessagesTokens_cons, IH. lia.
Qed.

Lemma estimateMessagesTokens_floor (l : list (string * string)) :
  2 + 4 * Z.of_nat (List.length l) <= estimateMessagesTokens l.
Proof.
  induction l as [|m l IH];
    [change (estimateMessagesTokens []) with 2%Z; cbn [List.length]; lia|].
  rewrite estimateMessagesTokens_cons. cbn [List.length].
  pose proof (estimateTokens_nonneg (snd m)). lia.
Qed.

(** X6.  [estimateMessagesTokens]: an empty context counts 2 tokens;
    each message adds 4 tokens and the estimate of its content, whatever
    its role; the estimate of two contexts joined is the sum of their
    estimates less 2; a context of n messages counts at least 2 + 4n
    tokens; and a context never counts less than a prefix of it. *)
Theorem estimateMessagesTokens_additive :
  estimateMessagesTokens [] = 2 /\
  (forall m l, estimateMessagesTokens (m :: l) =
               4 + estimateTokens (snd m) + estimateMessagesTokens l) /\
  (forall a b, estimateMessagesTokens (a ++ b) =
               estimateMessagesTokens a + estimateMessagesTokens b - 2) /\
  (forall l, 2 + 4 * Z.of_nat (List.length l) <= estimateMessagesTokens l) /\
  (forall a b, estimateMessagesTokens a <= estimateMessagesTokens (a ++ b)).
Proof.
  split; [reflexivity|]. split; [apply estimateMessagesTokens_cons|].
  split; [apply estimateMessagesTokens_app|].
  split; [apply estimateMessagesTokens_floor|].
  intros a b. rewrite estimateMessagesTokens_app.
  pose proof (estimateMessagesTokens_floor b). lia.
Qed.

(** *** The estimate of a text that grows *)

Lemma nonempty_append_one (cur : string) (c : ascii) : nonempty (cur ++ String c "") = true.
Proof. now destruct cur. Qed.

Lemma split_ws_count (text cur : string) (in_sep : bool) :
  (in_sep = true -> cur = "") ->
  List.length (filter nonempty (split_ws text cur in_sep)) =
  count_words text (nonempty cur).
Proof.
  revert cur in_sep. induction text as [|c t IH]; intros cur in_sep Hsep.
  - cbn. now destruct (nonempty cur).
  - cbn [split_ws count_words]. destruct (is_space c).
    + destruct in_sep.
      * rewrite (Hsep eq_refl). cbn [nonempty]. now rewrite IH.
      * cbn [filter]. destruct (nonempty cur); cbn [List.length]; now rewrite IH.
    + rewrite IH by discriminate. now rewrite nonempty_append_one.
Qed.

Lemma words_count_words (text : string) :
  List.length (words text) = count_words text false.
Proof. unfold words. now rewrite split_ws_count. Qed.

Lemma count_words_started (text : string) : (1 <= count_words text true)%nat.
Proof.
  induction text as [|c t IH]; cbn [count_words]; [lia|].
  destruct (is_space c); lia.
Qed.

Lemma count_words_app (a b : string) (inword : bool) :
  (count_words a inword <= count_words (a ++ b) inword)%nat.
Proof.
  revert inword. induction a as [|c t IH]; intros inword.
  - cbn [append count_words]. destruct inword; [apply count_words_started|lia].
  - cbn [append count_words]. destruct (is_space c).
    + specialize (IH false). lia.
    + apply IH.
Qed.

Lemma specialChars_app (a b : string) :
  specialChars (a ++ b) = (specialChars a + specialChars b)%nat.
Proof.
  induction a as [|c t IH]; [reflexivity|]. cbn [append specialChars]. rewrite IH. lia.
Qed.

Lemma length_append (a b : string) :
  String.length (a ++ b) = (String.length a + String.length b)%nat.
Proof. induction a as [|c t IH]; [reflexivity|]. cbn. now rewrite IH. Qed.

(** X7.  What is appended to a text never lowers its estimate: the
    text with more text after it has at least as many words, exactly the
    special characters of both, and so a word-weighted estimate, a
    character estimate and an [estimateTokens] at least as great. *)
Theorem estimateTokens_grows_with_text :
  forall a b : string,
    (List.length (words a) <= List.length (words (a ++ b)))%nat /\
    specialChars (a ++ b) = (specialChars a + specialChars b)%nat /\
    estimate a <= estimate (a ++ b) /\
    charEstimate a <= charEstimate (a ++ b) /\
    estimateTokens a <= estimateTokens (a ++ b).
Proof.
  intros a b.
  assert (Hw : (List.length (words a) <= List.length (words (a ++ b)))%nat)
    by (rewrite !words_count_words; apply count_words_app).
  assert (He : estimate a <= estimate (a ++ b)).
  { rewrite !TokenizerFacts.estimate_fraction, specialChars_app.
    pose proof (TokenizerFacts.Qceiling_fraction
                  (13 * Z.of_nat (List.length (words a))
                   + 5 * Z.of_nat (specialChars a)) 10).
    pose proof (TokenizerFacts.Qceiling_fraction
                  (13 * Z.of_nat (List.length (words (a ++ b)))
                   + 5 * Z.of_nat (specialChars a + specialChars b)) 10).
    lia. }
  assert (Hc : charEstimate a <= charEstimate (a ++ b)).
  { rewrite !TokenizerFacts.charEstimate_fraction, length_append.
    pose proof (TokenizerFacts.Qceiling_fraction (Z.of_nat (String.length a)) 4).
    pose proof (TokenizerFacts.Qceiling_fraction
                  (Z.of_nat (String.length a + String.length b)) 4).
    lia. }
  split; [exact Hw|]. split; [apply specialChars_app|].
  split; [exact He|]. split; [exact Hc|].
  unfold estimateTokens. destruct a as [|c t].
  - cbn [nonempty negb append]. destruct (negb (nonempty b)); lia.
  - cbn [nonempty negb append] in *. lia.
Qed.

(** *** [truncateMessages] *)

Local Open Scope nat_scope.

Lemma splice1_head {A : Type} (m : A) (rest : list A) : splice1 0 (m :: rest) = rest.
Proof. reflexivity. Qed.

Lemma splice1_second {A : Type} (m x : A) (rest : list A) :
  splice1 1 (m :: x :: rest) = m :: rest.
Proof. reflexivity. Qed.

(** One turn of the loop, on a list of two messages or more. *)
Lemma removed_one (m x : string * string) (rest : list (string * string)) :
  splice1 (if (fst m =? "system")%string then 1 else 0) (m :: x :: rest) =
  if (fst m =? "system")%string then m :: rest else x :: rest.
Proof. now destruct (fst m =? "system")%string. Qed.

Lemma two_or_more {A : Type} (l : list A) :
  Nat.ltb 1 (List.length l) = true -> exists m x rest, l = m :: x :: rest.
Proof.
  destruct l as [|m [|x rest]]; cbn; try discriminate. intros _. now exists m, x, rest.
Qed.

(** The loop, for a bound that is at least the number of messages: it
    ends because its condition fails. *)
Lemma truncate_loop_exit (maxTokens : Z) (turns : nat)
    (current : list (string * string)) (removed : nat) :
  List.length current <= turns ->
  let r := truncate_loop maxTokens turns current removed in
  List.length (fst r) + snd r = List.length current + removed /\
  ((estimateMessagesTokens (fst r) <= maxTokens)%Z \/ List.length (fst r) <= 1) /\
  (current <> [] -> fst r <> []).
Proof.
  revert current removed. induction turns as [|turns IH]; intros current removed Hlen.
  - cbn. destruct current; cbn in *; [|lia]. repeat split; auto.
  - cbn [truncate_loop].
    destruct ((maxTokens <? estimateMessagesTokens current)%Z
              && Nat.ltb 1 (List.length current))%bool eqn:Hcond.
    + apply Bool.andb_true_iff in Hcond. destruct Hcond as [_ Htwo].
      destruct (two_or_more _ Htwo) as (m & x & rest & ->).
      rewrite removed_one. cbn [List.length] in Hlen.
      destruct (fst m =? "system")%string.
      * destruct (IH (m :: rest) (S removed)) as (H1 & H2 & H3); [cbn; lia|].
        cbv zeta. cbn [List.length] in *. repeat split; [lia|exact H2|].
        intros _. apply H3. discriminate.
      * destruct (IH (x :: rest) (S removed)) as (H1 & H2 & H3); [cbn; lia|].
        cbv zeta. cbn [List.length] in *. repeat split; [lia|exact H2|].
        intros _. apply H3. discriminate.
    + cbn [fst snd]. repeat split; auto.
      apply Bool.andb_false_iff in Hcond. destruct Hcond as [H|H].
      * left. apply Z.ltb_ge in H. exact H.
      * right. apply Nat.ltb_ge in H. exact H.
Qed.

(** A greater bound changes nothing. *)
Lemma truncate_loop_bound (maxTokens : Z) (turns turns' : nat)
    (current : list (string * string)) (removed : nat) :
  List.length current <= turns -> turns <= turns' ->
  truncate_loop maxTokens turns' current removed =
  truncate_loop maxTokens turns current removed.
Proof.
  revert turns' current removed.
  induction turns as [|turns IH]; intros turns' current removed Hlen Hle.
  - destruct current; cbn in Hlen; [|lia]. destruct turns'; [reflexivity|].
    cbn. now rewrite Bool.andb_false_r.
  - destruct turns' as [|turns']; [lia|]. cbn [truncate_loop].
    destruct ((maxTokens <? estimateMessagesTokens current)%Z
              && Nat.ltb 1 (List.length current))%bool eqn:Hcond; [|reflexivity].
    apply Bool.andb_true_iff in Hcond. destruct Hcond as [_ Htwo].
    destruct (two_or_more _ Htwo) as (m & x & rest & ->).
    rewrite removed_one. cbn [List.length] in Hlen.
    destruct (fst m =? "system")%string; apply IH; cbn; lia.
Qed.

(** X8.  What [truncateMessages] returns: the messages kept and the
    number removed add up to the messages given; the messages kept fit
    the limit, or one message is left (or none was given); a context
    that is not empty is never emptied; a context that fits, or that has
    at most one message, is returned as it is with nothing removed; and
    the loop ends within as many turns as there are messages. *)
Theorem truncateMessages_fits_or_single :
  forall (messages : list (string * string)) (maxTokens : Z),
    let r := truncateMessages messages maxTokens in
    List.length (fst r) + snd r = List.length messages /\
    ((estimateMessagesTokens (fst r) <= maxTokens)%Z \/ List.length (fst r) = 1
     \/ messages = []) /\
    (messages <> [] -> fst r <> []) /\
    ((estimateMessagesTokens messages <= maxTokens)%Z -> r = (messages, 0)) /\
    (List.length messages <= 1 -> r = (messages, 0)) /\
    (forall turns, List.length messages <= turns ->
                   truncate_loop maxTokens turns messages 0 = r).
Proof.
  intros messages maxTokens. destruct messages as [|m0 rest0] eqn:Hm.
  - cbn. repeat split; auto. intros [|turns] _; [reflexivity|].
    cbn [truncate_loop List.length]. change (Nat.ltb 1 0) with false.
    now rewrite Bool.andb_false_r.
  - rewrite <- Hm. assert (Hne : messages <> []) by (subst; discriminate).
    assert (Hr : truncateMessages messages maxTokens =
                 truncate_loop maxTokens (List.length messages) messages 0)
      by (subst; reflexivity).
    cbv zeta. rewrite Hr.
    destruct (truncate_loop_exit maxTokens (List.length messages) messages 0 (le_n _))
      as (H1 & H2 & H3).
    split; [lia|]. split; [|split; [exact H3|split; [|split]]].
    + destruct H2 as [H2|H2]; [now left|]. right. left.
      specialize (H3 Hne).
      destruct (fst (truncate_loop maxTokens (List.length messages) messages 0));
        [congruence|cbn in *; lia].
    + intros Hfit. subst messages. cbn [List.length truncate_loop].
      apply Z.ltb_ge in Hfit. now rewrite Hfit.
    + intros Hone. subst messages. cbn [List.length truncate_loop].
      cbn [List.length] in Hone. apply Nat.ltb_ge in Hone. cbn [List.length].
      rewrite Hone. now rewrite Bool.andb_false_r.
    + intros turns Hle. now apply truncate_loop_bound.
Qed.

(** A context that fits is returned as it is. *)
Lemma truncateMessages_fits_or_single_witness :
  truncateMessages sample_context 1000 = (sample_context, 0).
Proof.
  destruct (truncateMessages_fits_or_single sample_context 1000)
    as (_ & _ & _ & H & _).
  apply H. vm_compute. discriminate.
Defined.

Lemma truncate_loop_single (maxTokens : Z) (turns : nat) (m : string * string)
    (removed : nat) :
  truncate_loop maxTokens turns [m] removed = ([m], removed).
Proof.
  destruct turns; [reflexivity|]. cbn [truncate_loop List.length].
  change (Nat.ltb 1 1) with false. now rewrite Bool.andb_false_r.
Qed.

(** With a system prompt at the head, the loop removes the messages
    that follow it, the oldest first. *)
Lemma truncate_loop_system (maxTokens : Z) (turns : nat) (sys : string * string)
    (rest : list (string * string)) (removed : nat) :
  fst sys = "system" ->
  exists k, truncate_loop maxTokens turns (sys :: rest) removed =
            (sys :: skipn k rest, removed + k).
Proof.
  intros Hsys. revert rest removed.
  induction turns as [|turns IH]; intros rest removed.
  - exists 0. cbn. now rewrite Nat.add_0_r.
  - cbn [truncate_loop].
    destruct ((maxTokens <? estimateMessagesTokens (sys :: rest))%Z
              && Nat.ltb 1 (List.length (sys :: rest)))%bool eqn:Hcond.
    + apply Bool.andb_true_iff in Hcond. destruct Hcond as [_ Htwo].
      destruct rest as [|x rest]; [discriminate|].
      rewrite removed_one, Hsys. cbn [String.eqb Ascii.eqb Bool.eqb].
      change ("system" =? "system")%string with true. cbv iota.
      destruct (IH rest (S removed)) as (k & Hk). exists (S k).
      rewrite Hk. cbn [skipn]. f_equal. lia.
    + exists 0. cbn [skipn]. now rewrite Nat.add_0_r.
Qed.

(** Without a system message, the loop removes a prefix. *)
Lemma truncate_loop_plain (maxTokens : Z) (turns : nat)
    (current : list (string * string)) (removed : nat) :
  (forall m, In m current -> fst m <> "system") ->
  exists k, truncate_loop maxTokens turns current removed =
            (skipn k current, removed + k).
Proof.
  revert current removed.
  induction turns as [|turns IH]; intros current removed Hplain.
  - exists 0. cbn. now rewrite Nat.add_0_r.
  - cbn [truncate_loop].
    destruct ((maxTokens <? estimateMessagesTokens current)%Z
              && Nat.ltb 1 (List.length current))%bool eqn:Hcond.
    + apply Bool.andb_true_iff in Hcond. destruct Hcond as [_ Htwo].
      destruct (two_or_more _ Htwo) as (m & x & rest & ->).
      rewrite removed_one.
      rewrite (StoreFacts.id_neq_eqb _ _ (Hplain m (or_introl eq_refl))).
      destruct (IH (x :: rest) (S removed)) as (k & Hk).
      { intros y Hy. apply Hplain. now right. }
      exists (S k). rewrite Hk. cbn [skipn]. f_equal. lia.
    + exists 0. cbn [skipn]. now rewrite Nat.add_0_r.
Qed.

(** While two messages or more are kept, the last one is. *)
Lemma truncate_loop_last (maxTokens : Z) (turns : nat)
    (current : list (string * string)) (removed : nat) (d : string * string) :
  2 <= List.length (fst (truncate_loop maxTokens turns current removed)) ->
  last (fst (truncate_loop maxTokens turns current removed)) d = last current d.
Proof.
  revert current removed.
  induction turns as [|turns IH]; intros current removed; [reflexivity|].
  cbn [truncate_loop].
  destruct ((maxTokens <? estimateMessagesTokens current)%Z
            && Nat.ltb 1 (List.length current))%bool eqn:Hcond; [|reflexivity].
  apply Bool.andb_true_iff in Hcond. destruct Hcond as [_ Htwo].
  destruct (two_or_more _ Htwo) as (m & x & rest & ->).
  rewrite removed_one. destruct (fst m =? "system")%string.
  - destruct rest as [|y rest].
    + rewrite truncate_loop_single. cbn. lia.
    + intros H. now rewrite (IH _ _ H).
  - intros H. now rewrite (IH _ _ H).
Qed.

(** X9.  What [truncateMessages] removes: under a system message at
    the head, the head is kept and the oldest messages after it are
    removed; with no system message at all, the oldest messages are
    removed; when two messages or more are kept the newest message is
    among them; and a system message with one message over the limit
    loses that message. *)
Theorem truncateMessages_drops_oldest :
  forall (messages : list (string * string)) (maxTokens : Z),
    let r := truncateMessages messages maxTokens in
    (forall sys rest, messages = sys :: rest -> fst sys = "system" ->
        fst r = sys :: skipn (snd r) rest) /\
    ((forall m, In m messages -> fst m <> "system") ->
        fst r = skipn (snd r) messages) /\
    (2 <= List.length (fst r) -> forall d, last (fst r) d = last messages d) /\
    (forall sys m, messages = [sys; m] -> fst sys = "system" ->
        (maxTokens < estimateMessagesTokens messages)%Z -> r = ([sys], 1)).
Proof.
  intros messages maxTokens. cbv zeta. split; [|split; [|split]].
  - intros sys rest -> Hsys. unfold truncateMessages.
    destruct (truncate_loop_system maxTokens (List.length (sys :: rest)) sys rest 0 Hsys)
      as (k & ->). reflexivity.
  - intros Hplain. destruct messages as [|m0 rest0]; [reflexivity|].
    unfold truncateMessages.
    destruct (truncate_loop_plain maxTokens (List.length (m0 :: rest0)) (m0 :: rest0) 0
                Hplain) as (k & ->). reflexivity.
  - intros H d. destruct messages as [|m0 rest0]; [reflexivity|].
    unfold truncateMessages in *. now apply truncate_loop_last.
  - intros sys m -> Hsys Hover. unfold truncateMessages.
    change (List.length [sys; m]) with 2. cbn [truncate_loop].
    apply Z.ltb_lt in Hover. rewrite Hover.
    change (Nat.ltb 1 (List.length [sys; m])) with true. cbn [andb].
    rewrite removed_one, Hsys.
    change ("system" =? "system")%string with true. cbv iota.
    exact (truncate_loop_single maxTokens 1 sys 1).
Qed.

(** The sample context under a limit of 25 tokens: the system prompt
    and the newest message are kept, the two older ones removed. *)

Lemma truncateMessages_drops_oldest_witness :
  truncateMessages sample_context 25 =
    ([ ("system", "Be brief."); ("user", "What is the capital of France?") ], 2).
Proof.
  destruct (truncateMessages_drops_oldest sample_context 25) as (H & _).
  specialize (H ("system", "Be brief.")
                [ ("user", "hi"); ("assistant", "hello");
                  ("user", "What is the capital of France?") ] eq_refl eq_refl).
  assert (Hn : snd (truncateMessages sample_context 25) = 2) by (vm_compute; reflexivity).
  rewrite Hn in H. cbn [skipn] in H.
  rewrite (surjective_pairing (truncateMessages sample_context 25)), H, Hn.
  reflexivity.
Defined.

(** *** The token meter *)

Import TokenMeter.

Local Open Scope Z_scope.

Lemma historyTokens_snoc (history : list ChatMessage) (m : ChatMessage) :
  historyTokens (history ++ [m]) =
  historyTokens history + 4 + estimateTokens (msg_content m).
Proof.
  unfold historyTokens. rewrite map_app, estimateMessagesTokens_app.
  cbn [map]. rewrite estimateMessagesTokens_cons. cbn [snd].
  change (estimateMessagesTokens []) with 2. lia.
Qed.

(** X10.  The token meter counts at least six tokens, on an empty
    history with an empty composer; a message at the end of the history
    adds 4 tokens and the estimate of its content; so a limit below six
    is always exceeded; and when the meter is over the limit the
    composer sends nothing: Enter calls nothing, and its button calls
    nothing or cancels. *)
Theorem token_meter_floor :
  forall (history : list ChatMessage) (maxInputTokens : Z)
         (systemPrompt composerText : string),
    6 <= totalInputTokens history systemPrompt composerText /\
    (forall m, totalInputTokens (history ++ [m]) systemPrompt composerText =
               totalInputTokens history systemPrompt composerText
               + 4 + estimateTokens (msg_content m)) /\
    (maxInputTokens < 6 ->
     isOverLimit history maxInputTokens systemPrompt composerText = true) /\
    (isOverLimit history maxInputTokens systemPrompt composerText = true ->
     forall (props : Composer.Props) (mode : GenerationMode)
            (atts : list MessageAttachment) (key : string) (shiftKey : bool),
       let c := Composer.mkState composerText mode atts
                  (isOverLimit history maxInputTokens systemPrompt composerText) in
       Composer.handleKeyDown props c key shiftKey = Composer.NoCall /\
       (Composer.clickAction props c = Composer.NoCall \/
        Composer.clickAction props c = Composer.OnCancel)).
Proof.
  intros history maxInputTokens systemPrompt composerText.
  assert (Hfloor : 6 <= totalInputTokens history systemPrompt composerText).
  { unfold totalInputTokens, historyTokens, systemTokens, composerTokens.
    pose proof (estimateMessagesTokens_floor
                  (map (fun m => (role_name (msg_role m), msg_content m)) history)).
    pose proof (estimateTokens_nonneg systemPrompt).
    pose proof (estimateTokens_nonneg composerText).
    destruct (nonempty systemPrompt); lia. }
  split; [exact Hfloor|]. split; [|split].
  - intros m. unfold totalInputTokens. rewrite historyTokens_snoc. lia.
  - intros Hmax. unfold isOverLimit. apply Z.ltb_lt. lia.
  - intros Hover props mode atts key shiftKey c. subst c. rewrite Hover.
    assert (Hsend : forall t, Composer.handleSend (Composer.mkState t mode atts true)
                              = Composer.NoCall).
    { intros t. unfold Composer.handleSend. cbn [Composer.text Composer.attachments
        Composer.isOverLimit]. now destruct (_ && _)%bool. }
    split.
    + unfold Composer.handleKeyDown. rewrite Hsend. now repeat destruct (_ && _)%bool.
    + unfold Composer.clickAction. rewrite Hsend.
      destruct (Composer.isStreaming props); [now right|left].
      now destruct (_ || _)%bool.
Qed.

(** A model that takes at most five tokens of input: the meter is over
    the limit on an empty page. *)
Lemma token_meter_floor_witness :
  isOverLimit [] 5 "" "" = true.
Proof.
  destruct (token_meter_floor [] 5 "" "") as (_ & _ & H & _).
  apply H. lia.
Defined.

End TokenBudget.

(** ** The pollen gate *)

Module PollenGate.

Import PollenMath ChatPage.

#[local] Set Warnings "-inexact-float".
Local Open Scope float_scope.

(** The order of the comparisons on the values of the format: what is
    not below [m] is not at or below what is below [m]. *)
Lemma SFcompare_above (c m t : spec_float) :
  SFltb c m = false -> SFltb t m = true -> SFleb c t = false.
Proof.
  unfold SFltb, SFleb.
  destruct c as [sc|sc| |sc mc ec], m as [sm|sm| |sm mm em], t as [st|st| |st mt et];
    cbn [SFcompare]; try discriminate; try reflexivity;
    repeat match goal with s : bool |- _ => destruct s end;
    try discriminate; try reflexivity;
    change PosDef.Pos.compare_cont with Pos.compare_cont;
    repeat match goal with
           | |- context [(?a ?= ?b)%Z] => destruct (Z.compare_spec a b)
           end;
    try discriminate; try reflexivity; try lia;
    subst;
    repeat match goal with
           | |- context [Pos.compare_cont Eq ?a ?b] =>
               change (Pos.compare_cont Eq a b) with (Pos.compare a b);
               destruct (Pos.compare_spec a b)
           end;
    cbn [CompOpp]; try discriminate; try reflexivity; try lia.
Qed.

Lemma Math_max_floor (a : float) :
  (Math_max a MIN_POLLEN_PER_PROMPT <? MIN_POLLEN_PER_PROMPT) = false.
Proof.
  unfold Math_max. destruct (is_nan a); [reflexivity|].
  change (is_nan MIN_POLLEN_PER_PROMPT) with false. cbv iota.
  change (is_pos_zero MIN_POLLEN_PER_PROMPT && is_neg_zero a)%bool with false.
  cbv iota. destruct (a <? MIN_POLLEN_PER_PROMPT) eqn:E; [reflexivity|exact E].
Qed.

Lemma computePollenCost_floor (pricing : option Pricing) (inputTokens outputTokens : float) :
  (computePollenCost pricing inputTokens outputTokens <? MIN_POLLEN_PER_PROMPT) = false.
Proof.
  destruct pricing as [p|]; [|reflexivity].
  unfold computePollenCost. cbv zeta. apply Math_max_floor.
Qed.

(** [hasSufficientPollen] refuses every cost when the balance, with
    the tolerance added, is below the minimum cost. *)
Lemma below_minimum_insufficient (b cost : float) :
  (cost <? MIN_POLLEN_PER_PROMPT) = false ->
  (b + EPSILON <? MIN_POLLEN_PER_PROMPT) = true ->
  hasSufficientPollen b cost = false.
Proof.
  unfold hasSufficientPollen. rewrite !ltb_spec, leb_spec. apply SFcompare_above.
Qed.

(** X11.  The pollen gate of [handleSend]: with a model selected, an
    input that is not blank, the reading of the balance switched on and
    a balance that, with the tolerance added, is below the minimum cost
    of a prompt, the send is refused whatever the pricing of the model:
    the cost is not covered, one notice of insufficient pollen is
    raised, nothing is requested, and the sessions and the in-flight
    flag are as they were. *)
Theorem pollen_gate_refuses_below_minimum :
  forall (clock : nat -> Z) (uuid : nat -> string) (call : SendCall) (p : Page)
         (model : PollinationsModel) (b : float),
    selectedModel p = Some model ->
    (nonempty (trim (call_text call)) = true \/ call_attachments call <> []) ->
    autoReadBalance (settings p) = true ->
    balance p = Some b ->
    (b + EPSILON <? MIN_POLLEN_PER_PROMPT) = true ->
    exists cost,
      cost = computePollenCost (model_pricing model)
               (ExportImport.Z_to_float (Tokenizer.estimateTokens (call_text call))) 0 /\
      hasSufficientPollen b cost = false /\
      handleSend_start clock uuid call p =
        (notifyError (InsufficientPollen cost b) p, None) /\
      sessions (fst (handleSend_start clock uuid call p)) = sessions p /\
      isStreaming (fst (handleSend_start clock uuid call p)) = isStreaming p.
Proof.
  intros clock uuid call p model b Hmodel Hinput Hauto Hbal Hlow.
  eexists. split; [reflexivity|].
  pose proof (below_minimum_insufficient b _
                (computePollenCost_floor (model_pricing model)
                   (ExportImport.Z_to_float (Tokenizer.estimateTokens (call_text call))) 0)
                Hlow) as Hins.
  split; [exact Hins|].
  assert (Hrun : handleSend_start clock uuid call p =
                 (notifyError
                    (InsufficientPollen
                       (computePollenCost (model_pricing model)
                          (ExportImport.Z_to_float
                             (Tokenizer.estimateTokens (call_text call))) 0) b) p, None)).
  { unfold handleSend_start. rewrite Hmodel.
    replace (negb (nonempty (trim (call_text call)))
             && Nat.eqb (List.length (call_attachments call)) 0)%bool with false.
    - unfold pollen_gate. rewrite Hauto, Hbal. cbv zeta. now rewrite Hins.
    - destruct Hinput as [H|H]; [now rewrite H|].
      destruct (call_attachments call); [congruence|].
      now rewrite Bool.andb_false_r. }
  split; [exact Hrun|]. rewrite Hrun. split; reflexivity.
Qed.

(** With a balance of zero, the send of "again" on the sample page is
    refused: one notice, and the log as it was. *)
Lemma pollen_gate_refuses_below_minimum_witness :
  exists cost,
    handleSend_start sample_clock sample_uuid again (page_with_balance 0) =
      (notifyError (InsufficientPollen cost 0) (page_with_balance 0), None) /\
    hasSufficientPollen 0 cost = false.
Proof.
  destruct (pollen_gate_refuses_below_minimum sample_clock sample_uuid again
              (page_with_balance 0) (mkModel "openai" mode_text None) 0
              eq_refl (or_introl eq_refl) eq_refl eq_refl eq_refl)
    as (cost & _ & Hins & Hrun & _).
  exists cost. split; [exact Hrun|exact Hins].
Defined.

End PollenGate.

(** ** The generation client: how a stream ends *)

Module StreamOutcome.

Import Pollinations.

Lemma has_done_app (l1 l2 : list string) :
  has_done (l1 ++ l2) = (has_done l1 || has_done l2)%bool.
Proof. apply existsb_app. Qed.

Lemma append_empty (s : string) : (s ++ "")%string = s.
Proof. induction s as [|c s IH]; [reflexivity|]. cbn. now rewrite IH. Qed.

Lemma append_append (a b c : string) : ((a ++ b) ++ c)%string = (a ++ b ++ c)%string.
Proof. induction a as [|x a IH]; [reflexivity|]. cbn. now rewrite IH. Qed.

Lemma received_snoc (reads : list string) (tail : string) :
  received (reads ++ [tail]) = (received reads ++ tail)%string.
Proof.
  induction reads as [|v reads IH]; cbn [app received].
  - now rewrite append_empty.
  - now rewrite IH, append_append.
Qed.

(** A text without a line feed is one unfinished line. *)
Lemma split_nl_one_piece (a b : string) :
  split_nl a = [a] -> split_nl b = [b] -> split_nl (a ++ b) = [(a ++ b)%string].
Proof.
  intros Ha Hb. induction a as [|c a IH]; [exact Hb|].
  cbn [append split_nl] in *. destruct (Ascii.eqb c LF).
  - pose proof (PollinationsFacts.split_nl_nonempty a) as Hne.
    destruct (split_nl a); [congruence|discriminate].
  - pose proof (PollinationsFacts.split_nl_nonempty a) as Hne.
    destruct (split_nl a) as [|h [|h' r]]; [congruence| |discriminate].
    cbn [cons_first] in Ha. injection Ha as ->. now rewrite IH.
Qed.

Lemma complete_lines_unfinished (text tail : string) :
  split_nl tail = [tail] ->
  complete_lines (text ++ tail) = complete_lines text.
Proof.
  intros Htail. rewrite PollinationsFacts.complete_lines_app.
  unfold complete_lines at 2.
  rewrite (split_nl_one_piece _ _ (PollinationsFacts.split_nl_last_whole text) Htail).
  cbn [removelast]. apply app_nil_r.
Qed.

Section Outcome.

Variable JSON_parse : string -> option StreamDelta.

Local Abbreviation frames := (frames JSON_parse).

(** The loop over the reads, whatever the end of the body, for a
    buffer that holds no line feed. *)
Lemma read_loop_outcome (reads : list string) (ending : ReadEnd) (buffer : string)
    (st : Last) :
  split_nl buffer = [buffer] ->
  read_loop JSON_parse reads ending buffer st =
  let lines := complete_lines (buffer ++ received reads) in
  let fs := frames (before_done lines) in
  let st' := observe st fs in
  if has_done lines
  then (map OnChunk (deltas fs) ++ [OnDone (lastUsage st') (lastTier st')], None)
  else match ending with
       | EndOfStream =>
           (map OnChunk (deltas fs) ++ [OnDone (lastUsage st') (lastTier st')], None)
       | ReadRejects e => (map OnChunk (deltas fs), Some e)
       end.
Proof.
  revert buffer st. induction reads as [|value rest IH]; intros buffer st Hbuf.
  - cbn [Pollinations.read_loop received]. rewrite append_empty.
    unfold complete_lines. rewrite Hbuf. cbn. now destruct ending.
  - cbn [Pollinations.read_loop received]. rewrite <- append_append.
    rewrite PollinationsFacts.complete_lines_app.
    fold (complete_lines (buffer ++ value)).
    set (lines := complete_lines (buffer ++ value)).
    set (buffer' := last (split_nl (buffer ++ value)) "").
    rewrite PollinationsFacts.process_lines_closed. cbv zeta.
    rewrite PollinationsFacts.before_done_app, has_done_app.
    destruct (has_done lines) eqn:Hdone; [reflexivity|]. cbn [orb].
    rewrite IH by apply PollinationsFacts.split_nl_last_whole. cbv zeta.
    rewrite (PollinationsFacts.before_done_clean _ Hdone).
    rewrite PollinationsFacts.frames_app, PollinationsFacts.deltas_app,
      PollinationsFacts.observe_app, map_app.
    destruct (has_done (complete_lines (buffer' ++ received rest)));
      [now rewrite app_assoc|].
    destruct ending; [now rewrite app_assoc|reflexivity].
Qed.

Lemma streamGeneration_streams (res : Response) (reads : list string)
    (ending : ReadEnd) :
  streams res reads ending ->
  streamGeneration JSON_parse (FetchResolves res) =
  let lines := complete_lines (received reads) in
  let fs := frames (before_done lines) in
  let seen := observe (mkLast None None) fs in
  if has_done lines
  then (map OnChunk (deltas fs) ++ [OnDone (lastUsage seen) (lastTier seen)], None)
  else match ending with
       | EndOfStream =>
           (map OnChunk (deltas fs) ++ [OnDone (lastUsage seen) (lastTier seen)], None)
       | ReadRejects e => (map OnChunk (deltas fs), Some e)
       end.
Proof.
  intros (Hok & Hct & Hbody). unfold streamGeneration.
  rewrite Hok. cbn [negb]. rewrite Hct, Hbody. cbn [body_reads body_end].
  now rewrite read_loop_outcome.
Qed.

Lemma count_done_only_chunks (ds : list string) :
  count_done (map OnChunk ds) = 0%nat.
Proof. unfold count_done. induction ds as [|d ds IH]; [reflexivity|exact IH]. Qed.

End Outcome.

(** X12.  [streamGeneration], whatever the request yields, either
    returns, having called [onChunk] some number of times and then
    [onDone] once, last; or throws, having called [onChunk] some number
    of times and [onDone] never. *)
Theorem streamGeneration_done_or_error :
  forall (JSON_parse : string -> option StreamDelta) (fetched : FetchResult),
    let r := streamGeneration JSON_parse fetched in
    (exists ds,
        (exists usage tier, r = (map OnChunk ds ++ [OnDone usage tier], None)) \/
        (exists e, r = (map OnChunk ds, Some e))) /\
    count_done (fst r) = match snd r with None => 1%nat | Some _ => 0%nat end.
Proof.
  intros JSON_parse fetched.
  assert (H : exists ds,
             (exists usage tier,
                 streamGeneration JSON_parse fetched =
                 (map OnChunk ds ++ [OnDone usage tier], None)) \/
             (exists e, streamGeneration JSON_parse fetched = (map OnChunk ds, Some e))).
  { destruct fetched as [e|res]; [exists []; right; now exists e|].
    unfold streamGeneration.
    destruct (negb (res_ok res)); [exists []; right; eexists; reflexivity|].
    destruct (_ && _)%bool; [exists []; right; eexists; reflexivity|].
    destruct (res_body res) as [body|]; [|exists []; right; eexists; reflexivity].
    rewrite read_loop_outcome by reflexivity. cbv zeta.
    eexists. destruct (has_done _); [left; eexists; eexists; reflexivity|].
    destruct (body_end body) as [|e];
      [left; eexists; eexists; reflexivity|right; eexists; reflexivity]. }
  cbv zeta. split; [exact H|].
  destruct H as (ds & [(usage & tier & ->)|(e & ->)]); cbn [fst snd].
  - apply PollinationsFacts.count_done_chunks.
  - apply count_done_only_chunks.
Qed.

(** X13.  A body whose reading fails with an error: when the marker
    [[DONE]] was among the whole lines received before the failure, the
    call returns as on a body that ends, and the error is not seen;
    otherwise the deltas of the whole lines received are delivered and
    the error is thrown. *)
Theorem streamGeneration_lost_connection :
  forall (JSON_parse : string -> option StreamDelta) (res : Response)
         (reads : list string) (e : JSError),
    streams res reads (ReadRejects e) ->
    let lines := complete_lines (received reads) in
    let fs := frames JSON_parse (before_done lines) in
    let seen := observe (mkLast None None) fs in
    (has_done lines = true ->
     streamGeneration JSON_parse (FetchResolves res) =
       (map OnChunk (deltas fs) ++ [OnDone (lastUsage seen) (lastTier seen)], None)) /\
    (has_done lines = false ->
     streamGeneration JSON_parse (FetchResolves res) =
       (map OnChunk (deltas (frames JSON_parse lines)), Some e)).
Proof.
  intros JSON_parse res reads e Hres. cbv zeta.
  rewrite (streamGeneration_streams JSON_parse res reads _ Hres). cbv zeta.
  split; intros H; rewrite H; [reflexivity|].
  now rewrite (PollinationsFacts.before_done_clean _ H).
Qed.

(** The connection lost after "Hel": the delta is delivered, then the
    error is thrown.  Lost after the marker: the error is not seen. *)
Lemma streamGeneration_lost_connection_witness :
  streamGeneration sample_parse
    (FetchResolves (sample_stream [ ("data: c:Hel" ++ nl)%string ]
                      (ReadRejects lost_connection))) =
    ([OnChunk "Hel"], Some lost_connection) /\
  streamGeneration sample_parse
    (FetchResolves (sample_stream [ ("data: c:Hel" ++ nl ++ "data: [DONE]" ++ nl)%string ]
                      (ReadRejects lost_connection))) =
    ([OnChunk "Hel"; OnDone None None], None).
Proof.
  split.
  - assert (H : streams (sample_stream [ ("data: c:Hel" ++ nl)%string ]
                           (ReadRejects lost_connection))
                  [ ("data: c:Hel" ++ nl)%string ] (ReadRejects lost_connection))
      by (repeat split; reflexivity).
    destruct (streamGeneration_lost_connection sample_parse _ _ _ H) as (_ & Hlost).
    now rewrite Hlost.
  - assert (H : streams (sample_stream
                           [ ("data: c:Hel" ++ nl ++ "data: [DONE]" ++ nl)%string ]
                           (ReadRejects lost_connection))
                  [ ("data: c:Hel" ++ nl ++ "data: [DONE]" ++ nl)%string ]
                  (ReadRejects lost_connection))
      by (repeat split; reflexivity).
    destruct (streamGeneration_lost_connection sample_parse _ _ _ H) as (Hdone & _).
    now rewrite Hdone.
Defined.

(** X14.  The text after the last line feed is not read: a body with
    a last read that holds no line feed gives what the body without it
    gives, whether it ends or fails; a last frame that no line feed
    ends is lost. *)
Theorem unterminated_last_line_dropped :
  forall (JSON_parse : string -> option StreamDelta) (res res' : Response)
         (reads : list string) (tail : string) (ending : ReadEnd),
    streams res reads ending ->
    streams res' (reads ++ [tail]) ending ->
    split_nl tail = [tail] ->
    streamGeneration JSON_parse (FetchResolves res') =
    streamGeneration JSON_parse (FetchResolves res).
Proof.
  intros JSON_parse res res' reads tail ending Hres Hres' Htail.
  rewrite (streamGeneration_streams JSON_parse res reads _ Hres).
  rewrite (streamGeneration_streams JSON_parse res' _ _ Hres').
  now rewrite received_snoc, (complete_lines_unfinished _ _ Htail).
Qed.

(** A last frame "lo" that no line feed ends is not delivered. *)
Lemma unterminated_last_line_dropped_witness :
  streamGeneration sample_parse
    (FetchResolves (sample_stream [ ("data: c:Hel" ++ nl)%string; "data: c:lo" ]
                      EndOfStream)) =
  streamGeneration sample_parse
    (FetchResolves (sample_stream [ ("data: c:Hel" ++ nl)%string ] EndOfStream)) /\
  streamGeneration sample_parse
    (FetchResolves (sample_stream [ ("data: c:Hel" ++ nl)%string ] EndOfStream)) =
    ([OnChunk "Hel"; OnDone None None], None).
Proof.
  split; [|reflexivity].
  apply (unterminated_last_line_dropped sample_parse _ _
           [ ("data: c:Hel" ++ nl)%string ] "data: c:lo" EndOfStream).
  - repeat split; reflexivity.
  - repeat split; reflexivity.
  - reflexivity.
Defined.

End StreamOutcome.

(** ** The page: sessions and message actions *)

Module PageActions.

Import Pollinations ChatPage.




(** *** What a generation writes to *)

Lemma preserves_others_refl (sid : string) (ss : list ChatSession) :
  preserves_others sid ss ss.
Proof. split; auto. Qed.

Lemma preserves_others_trans (sid : string) (a b c : list ChatSession) :
  preserves_others sid a b -> preserves_others sid b c -> preserves_others sid a c.
Proof.
  intros (H1 & H2) (H3 & H4). split; [congruence|].
  intros i s Hi Hne. apply H4; auto.
Qed.

Section Writes.

Variable clock : nat -> Z.
Variable uuid : nat -> string.
Variable extractFriendlyError : JSError -> string -> string -> string.

Lemma updateMessage_others (sid mid : string) (u : MessageUpdate) (p : Page) :
  preserves_others sid (sessions p) (sessions (updateMessage clock sid mid u p)).
Proof.
  unfold updateMessage, now. cbn [sessions set_sessions tick].
  unfold Store.updateMessage. now apply StoreFacts.on_session_preserves_others.
Qed.

Lemma updateMessage_cells (sid mid : string) (u : MessageUpdate) (p : Page) :
  activeSessionId (updateMessage clock sid mid u p) = activeSessionId p /\
  isStreaming (updateMessage clock sid mid u p) = isStreaming p /\
  notices (updateMessage clock sid mid u p) = notices p /\
  postGenerationRuns (updateMessage clock sid mid u p) = postGenerationRuns p /\
  uuids (updateMessage clock sid mid u p) = uuids p.
Proof. repeat split. Qed.

Lemma run_callbacks_others (sid aid : string) (evs : list StreamEvent)
    (accum : string) (p : Page) :
  let r := run_callbacks clock sid aid evs accum p in
  preserves_others sid (sessions p) (sessions (snd r)) /\
  activeSessionId (snd r) = activeSessionId p /\
  notices (snd r) = notices p /\
  postGenerationRuns (snd r) = postGenerationRuns p /\
  uuids (snd r) = uuids p.
Proof.
  revert accum p. induction evs as [|e evs IH]; intros accum p; cbv zeta.
  - cbn. repeat split; auto.
  - destruct e as [chunk|usage tier]; cbn [run_callbacks];
      match goal with
      | |- context [run_callbacks clock sid aid evs ?a ?q] =>
          destruct (IH a q) as (H1 & H2 & H3 & H4 & H5)
      end;
      (split; [eapply preserves_others_trans; [apply updateMessage_others|exact H1]|]);
      repeat split; assumption.
Qed.

End Writes.

(** X16.  A generation writes to its own session only: from the
    request to the end of [handleSend], whatever the network answers
    (an image, a video, a stream, an error, an abort), the sessions with
    another id are as they were, in place; the active session id is
    kept; the in-flight flag is cleared; and the post-generation tasks
    run once. *)
Theorem generation_writes_its_session_only :
  forall (clock : nat -> Z) (uuid : nat -> string)
         (extractFriendlyError : JSError -> string -> string -> string)
         (pending : Pending) (JSON_parse : string -> option StreamDelta)
         (net : Network) (p : Page),
    let sid := match pending with
               | AwaitImage s _ _ | AwaitVideo s _ _ | AwaitStream s _ _ => s
               end in
    let p' := handleSend_finish clock uuid extractFriendlyError JSON_parse pending net p in
    preserves_others sid (sessions p) (sessions p') /\
    activeSessionId p' = activeSessionId p /\
    isStreaming p' = false /\
    postGenerationRuns p' = S (postGenerationRuns p).
Proof.
  intros clock uuid extractFriendlyError pending JSON_parse net p. cbv zeta.
  destruct pending as [sid mid name|sid mid name|sid aid name]; cbn [handleSend_finish].
  - unfold media_complete. destruct (net_image net) as [url size|err].
    + cbn. split; [|repeat split].
      apply (updateMessage_others clock sid mid _ (next_uuid p)).
    + cbn. split; [|repeat split].
      apply (updateMessage_others clock sid mid _ (handleError err p)).
  - unfold media_complete. destruct (net_video net) as [url size|err].
    + cbn. split; [|repeat split].
      apply (updateMessage_others clock sid mid _ (next_uuid p)).
    + cbn. split; [|repeat split].
      apply (updateMessage_others clock sid mid _ (handleError err p)).
  - unfold stream_complete.
    destruct (run_callbacks_others clock sid aid
                (fst (streamGeneration JSON_parse (net_stream net))) "" p)
      as (H1 & H2 & H3 & H4 & H5).
    destruct (run_callbacks clock sid aid _ "" p) as [accum p1].
    cbn [fst snd] in *.
    destruct (snd (streamGeneration JSON_parse (net_stream net))) as [err|].
    + destruct (error_name err =? "AbortError")%string.
      * cbn. split; [|repeat split; congruence].
        eapply preserves_others_trans; [exact H1|apply updateMessage_others].
      * destruct (negb (nonempty accum)).
        -- cbn. split; [|repeat split; congruence].
           eapply preserves_others_trans; [exact H1|].
           apply (updateMessage_others clock sid aid _ (handleError err p1)).
        -- cbn. split; [exact H1|]. repeat split; congruence.
    + cbn. split; [exact H1|]. repeat split; congruence.
Qed.

(** *** The start of a send *)

(** X17.  A send is refused exactly when no model is selected, or the
    input is blank, or the pollen gate raises a notice; a refused send
    leaves the page as it is, but for that notice: the sessions, the
    active session and the in-flight flag are unchanged, and nothing is
    requested. *)
Theorem handleSend_refused_changes_nothing :
  forall (clock : nat -> Z) (uuid : nat -> string)
         (extractFriendlyError : JSError -> string -> string -> string)
         (JSON_parse : string -> option StreamDelta) (call : SendCall) (p : Page),
    let r := handleSend_start clock uuid call p in
    (snd r = None <->
       selectedModel p = None \/ blank_call call = true \/
       exists model notice, selectedModel p = Some model /\
                            pollen_gate model (call_text call) p = Some notice) /\
    (snd r = None ->
       (fst r = p \/ exists notice, fst r = notifyError notice p) /\
       sessions (fst r) = sessions p /\
       activeSessionId (fst r) = activeSessionId p /\
       isStreaming (fst r) = isStreaming p /\
       forall net, handleSend clock uuid extractFriendlyError JSON_parse call net p
                   = fst r).
Proof.
  intros clock uuid extractFriendlyError JSON_parse call p. cbv zeta.
  assert (Hcases :
            (snd (handleSend_start clock uuid call p) = None /\
             (handleSend_start clock uuid call p = (p, None) \/
              exists notice, handleSend_start clock uuid call p
                             = (notifyError notice p, None)) /\
             (selectedModel p = None \/ blank_call call = true \/
              exists model notice, selectedModel p = Some model /\
                                   pollen_gate model (call_text call) p = Some notice))
            \/
            (snd (handleSend_start clock uuid call p) <> None /\
             exists model, selectedModel p = Some model /\ blank_call call = false /\
                           pollen_gate model (call_text call) p = None)).
  { unfold handleSend_start, blank_call.
    destruct (selectedModel p) as [model|]; [|left; auto].
    destruct (negb (nonempty (trim (call_text call)))
              && Nat.eqb (List.length (call_attachments call)) 0)%bool;
      [left; auto|].
    destruct (pollen_gate model (call_text call) p) as [notice|] eqn:Hgate.
    - left. split; [reflexivity|]. split; [right; now exists notice|].
      right. right. now exists model, notice.
    - right. split; [|now exists model].
      destruct (activeSessionId p) as [sid|];
        destruct (resolve_mode (model_type model) (call_mode call)); discriminate. }
  destruct Hcases as [(Hnone & Hrun & Hwhy)|(Hsome & model & Hm & Hb & Hg)].
  - split; [split; auto|]. intros _.
    assert (Hsend : forall net,
               handleSend clock uuid extractFriendlyError JSON_parse call net p =
               fst (handleSend_start clock uuid call p)).
    { intros net. unfold handleSend.
      destruct (handleSend_start clock uuid call p) as [q [pending|]];
        [discriminate|reflexivity]. }
    destruct Hrun as [Hrun|(notice & Hrun)]; rewrite Hrun in *; cbn [fst snd] in *.
    + repeat split; auto.
    + split; [right; now exists notice|]. repeat split; auto.
  - split; [|intros H; contradiction]. split; [intros H; contradiction|].
    intros [H|[H|(model' & notice & H1 & H2)]]; congruence.
Qed.

(** A blank input on the sample page: nothing changes. *)
Lemma handleSend_refused_changes_nothing_witness :
  handleSend sample_clock sample_uuid sample_friendly sample_parse
    (mkSendCall "   " mode_text []) (the_network broken_stream) sample_page
  = sample_page.
Proof.
  destruct (handleSend_refused_changes_nothing sample_clock sample_uuid sample_friendly
              sample_parse (mkSendCall "   " mode_text []) sample_page) as (Hiff & Hnone).
  assert (H : snd (handleSend_start sample_clock sample_uuid
                     (mkSendCall "   " mode_text []) sample_page) = None)
    by (apply Hiff; right; left; reflexivity).
  destruct (Hnone H) as (_ & _ & _ & _ & Hsend).
  rewrite Hsend. reflexivity.
Defined.




End PageActions.

(** ** What an import accepts *)

Module ImportSound.

Import ExportImport.

Lemma session_ok_reads (v : JSValue) :
  session_ok v = true ->
  v <> JNull /\ js_truthy (js_get v "id") = true /\
  exists messages, js_get v "messages" = Some (JArr messages).
Proof.
  intros H. split; [intros ->; discriminate|].
  assert (H' : (js_truthy (js_get v "id") && isArray (js_get v "messages"))%bool = true)
    by (destruct v; try exact H; discriminate).
  apply Bool.andb_true_iff in H'. destruct H' as (Hid & Harr). split; [exact Hid|].
  destruct (js_get v "messages") as [[]|]; try discriminate. now eexists.
Qed.

(** X19.  [importJSON] returns only what it has validated: when it
    returns sessions, the text parsed to an array, which is what is
    returned, or to an object with a [version] key whose [sessions] is
    the array returned; and every session returned is not [null], has a
    truthy [id] and has an array for [messages].  Nothing is returned of
    an input with one session that fails. *)
Theorem importJSON_accepts_valid_only :
  forall (JSON_parse : string -> option JSValue) (raw : string)
         (items : list JSValue),
    importJSON JSON_parse raw = inr items ->
    (exists parsed,
        JSON_parse raw = Some parsed /\
        (parsed = JArr items \/
         exists fields version,
           parsed = JObj fields /\ assoc "version" fields = Some version /\
           assoc "sessions" fields = Some (JArr items))) /\
    forall v, In v items ->
      v <> JNull /\ js_truthy (js_get v "id") = true /\
      exists messages, js_get v "messages" = Some (JArr messages).
Proof.
  intros JSON_parse raw items H. unfold importJSON in H.
  destruct (JSON_parse raw) as [parsed|] eqn:Hparse; [|discriminate].
  assert (Hvalid : forall l, match validateSessions l with
                             | Some e => inl e
                             | None => inr l
                             end = (inr items : ImportError + list JSValue) ->
                             l = items /\ forallb session_ok items = true).
  { intros l Hl. destruct (validateSessions l) as [e|] eqn:Hv; [discriminate|].
    injection Hl as <-. split; [reflexivity|].
    now apply ExportImportFacts.validateSessions_accepts. }
  assert (Hshape : (parsed = JArr items \/
                    exists fields version,
                      parsed = JObj fields /\ assoc "version" fields = Some version /\
                      assoc "sessions" fields = Some (JArr items)) /\
                   forallb session_ok items = true).
  { destruct (is_object parsed && js_in "version" parsed && js_in "sessions" parsed)%bool
      eqn:Hwrap.
    - apply Bool.andb_true_iff in Hwrap. destruct Hwrap as (Hwrap & _).
      apply Bool.andb_true_iff in Hwrap. destruct Hwrap as (_ & Hversion).
      destruct (js_get parsed "sessions") as [[| | | |l|]|] eqn:Hs; try discriminate.
      destruct (Hvalid l H) as (-> & Hok). split; [|exact Hok]. right.
      destruct parsed as [| | | | |fields]; try discriminate.
      unfold js_in, js_get in Hversion. cbn [js_get] in Hs.
      destruct (assoc "version" fields) as [version|] eqn:Hv; [|discriminate].
      now exists fields, version.
    - destruct parsed as [| | | |l|]; try discriminate.
      destruct (Hvalid l H) as (-> & Hok). split; [now left|exact Hok]. }
  destruct Hshape as (Hshape & Hok).
  split; [exists parsed; split; [reflexivity|exact Hshape]|].
  intros v Hv. apply session_ok_reads.
  rewrite forallb_forall in Hok. now apply Hok.
Qed.

(** A bare array with the session "Chat 2", as [JSON.stringify] prints
    it and [JSON.parse] reads it: the session is accepted, and it has an
    id and a log. *)
Lemma importJSON_accepts_valid_only_witness :
  importJSON JSON.parse (JSON.stringify (JArr [session_value chat_2])) =
    inr [json_normalise (session_value chat_2)] /\
  js_truthy (js_get (json_normalise (session_value chat_2)) "id") = true.
Proof.
  assert (H : importJSON JSON.parse (JSON.stringify (JArr [session_value chat_2])) =
              inr [json_normalise (session_value chat_2)])
    by (vm_compute; reflexivity).
  split; [exact H|].
  destruct (importJSON_accepts_valid_only JSON.parse _ _ H) as (_ & Hall).
  destruct (Hall (json_normalise (session_value chat_2)) (or_introl eq_refl))
    as (_ & Hid & _).
  exact Hid.
Defined.

End ImportSound.
